(** * wtimer: a hierarchical timing wheel, embedded in Rocq

    A shallow embedding of the Go package [wtimer] and the verification of
    its specification.  Go methods are named [Receiver_method]
    ([Ticks_LT] is [func (t Ticks) LT(u Ticks) bool]); plain functions keep
    their names.  Fixed-width integers are [Z] with the wrap-around of the
    Go type written out. *)

From Stdlib Require Import ZArith Lia Bool List String FMapPositive.
Import ListNotations.
Local Open Scope Z_scope.

(** ** Fixed-width integers *)

(** Conversion to (and arithmetic in) [uint8], [uint16], [uint32],
    [uint64]. *)
Definition u8 (x : Z) : Z := x mod 2 ^ 8.
Definition u16 (x : Z) : Z := x mod 2 ^ 16.
Definition u32 (x : Z) : Z := x mod 2 ^ 32.
Definition u64 (x : Z) : Z := x mod 2 ^ 64.

(** Conversion to (and arithmetic in) [int64], two's complement. *)
Definition i64 (x : Z) : Z := (x + 2 ^ 63) mod 2 ^ 64 - 2 ^ 63.

Definition MaxInt64 : Z := 2 ^ 63 - 1.
Definition MinInt64 : Z := - 2 ^ 63.

(** ** Wheel and tick constants (wtimer.go, ticks.go) *)

Definition WheelsNo : Z := 4.
Definition W0Bits : Z := 14.
Definition W1Bits : Z := 14.
Definition W2Bits : Z := 10.
Definition W3Bits : Z := 10.

Definition W0Entries : Z := Z.shiftl 1 W0Bits.
Definition W1Entries : Z := Z.shiftl 1 W1Bits.
Definition W2Entries : Z := Z.shiftl 1 W2Bits.
Definition W3Entries : Z := Z.shiftl 1 W3Bits.

Definition W0Mask : Z := Z.shiftl 1 W0Bits - 1.
Definition W1Mask : Z := Z.shiftl 1 W1Bits - 1.
Definition W2Mask : Z := Z.shiftl 1 W2Bits - 1.
Definition W3Mask : Z := Z.shiftl 1 W3Bits - 1.

Definition wTotalEntries : Z := W0Entries + W1Entries + W2Entries + W3Entries.

Definition TicksBits : Z := W0Bits + W1Bits + W2Bits + W3Bits.
Definition MaxTicksDiff : Z := Z.shiftl 1 (TicksBits - 1).
Definition TicksMask : Z := Z.lor (MaxTicksDiff - 1) MaxTicksDiff.

(** [var wheelEntries = [WheelsNo]uint16{...}]; an index outside the array
    is [None]. *)
Definition wheelEntries (i : Z) : option Z :=
  if i =? 0 then Some (u16 W0Entries)
  else if i =? 1 then Some (u16 W1Entries)
  else if i =? 2 then Some (u16 W2Entries)
  else if i =? 3 then Some (u16 W3Entries)
  else None.

(** ** Ticks (ticks.go) *)

(** [type Ticks struct { v uint64 }] *)
Record Ticks : Type := mkTicks { v : Z }.

Definition NewTicks (u : Z) : Ticks := mkTicks (Z.land u TicksMask).

Definition Ticks_diffWrap (t : Ticks) : bool :=
  negb (Z.land (v t) MaxTicksDiff =? 0).

Definition Ticks_Val (t : Ticks) : Z := Z.land (v t) TicksMask.

Definition Ticks_EQ (t u : Ticks) : bool :=
  Z.land (u64 (v t - v u)) TicksMask =? 0.

Definition Ticks_NE (t u : Ticks) : bool := negb (Ticks_EQ t u).

Definition Ticks_LT (t u : Ticks) : bool :=
  negb (Z.land (u64 (v t - v u)) MaxTicksDiff =? 0).

Definition Ticks_GT (t u : Ticks) : bool :=
  negb (Ticks_LT t u) && Ticks_NE t u.

Definition Ticks_GE (t u : Ticks) : bool :=
  Z.land (u64 (v t - v u)) MaxTicksDiff =? 0.

Definition Ticks_LE (t u : Ticks) : bool :=
  Ticks_LT t u || Ticks_EQ t u.

Definition Ticks_Add (t u : Ticks) : Ticks :=
  mkTicks (Z.land (u64 (v t + v u)) TicksMask).

Definition Ticks_Sub (t u : Ticks) : Ticks :=
  mkTicks (Z.land (u64 (v t - v u)) TicksMask).

Definition Ticks_AddUint64 (t : Ticks) (u : Z) : Ticks :=
  mkTicks (Z.land (u64 (v t + u)) TicksMask).

Definition Ticks_SubUint64 (t : Ticks) (u : Z) : Ticks :=
  mkTicks (Z.land (u64 (v t - u)) TicksMask).

(** ** Wheel positions (wtimer.go) *)

Definition wheelNone : Z := 255.
Definition wheelExp : Z := 254.
Definition wheelRQ : Z := 253.
Definition wheelNoIdx : Z := 65535.

Definition wheel0Pos (t : Z) : Z := Z.land t W0Mask.
Definition wheel1Pos (t : Z) : Z := Z.land (Z.shiftr t W0Bits) W1Mask.
Definition wheel2Pos (t : Z) : Z :=
  Z.land (Z.shiftr t (W0Bits + W1Bits)) W2Mask.
Definition wheel3Pos (t : Z) : Z :=
  Z.land (Z.shiftr t (W0Bits + W1Bits + W2Bits)) W3Mask.

(** [func getWheelPos(exp, now Ticks) (uint8, uint16)] *)
Definition getWheelPos (exp now : Ticks) : Z * Z :=
  let delta := Ticks_Val (Ticks_Sub exp now) in
  let expire := Ticks_Val exp in
  if delta <? W0Entries then
    if delta =? 0 then (wheelExp, wheelNoIdx)
    else (0, u16 (wheel0Pos expire))
  else if delta <? W0Entries * W1Entries then (1, u16 (wheel1Pos expire))
  else if delta <? W0Entries * W1Entries * W2Entries then
    (2, u16 (wheel2Pos expire))
  else (3, u16 (wheel3Pos expire)).

(** ** Errors (errors.go) *)

(** The package's error values; [ErrorsNew msg] is a value made on the spot
    by [errors.New(msg)], different from every package-level error. *)
Inductive error : Type :=
| ErrInactiveTimer
| ErrNotResetTimer
| ErrActiveTimer
| ErrRunningTimer
| ErrDeletedTimer
| ErrAlreadyRemovedTimer
| ErrInvalidTimer
| ErrTicksTooHigh
| ErrDurationTooSmall
| ErrInvalidParameters
| ErrorsNew (msg : string).

(** ** Timer information word (tinfo.go) *)

(** [type tInfo struct { atomicV uint32 }], laid out as
    [flags:8 | wheelNo:8 | wheelIdx:16].  The load / compare-and-swap loops
    of the source succeed at their first round when nothing runs in
    parallel, so each is one read-modify-write here. *)
Record tInfo : Type := mkTInfo { atomicV : Z }.

Definition flgsMask : Z := 255.
Definition wNoMask : Z := 255.
Definition wIdxMask : Z := 65535.
Definition flgsBpos : Z := 24.
Definition wNoBpos : Z := 16.

(** [^x] on [uint32] *)
Definition not32 (x : Z) : Z := u32 (Z.lnot x).
(** [^x] on [uint8] *)
Definition not8 (x : Z) : Z := u8 (Z.lnot x).

Definition tInfo_setFlags (t : tInfo) (mask : Z) : tInfo :=
  let f := u32 (Z.shiftl (u32 mask) flgsBpos) in
  let crt := atomicV t in
  mkTInfo (Z.lor crt f).

Definition tInfo_resetFlags (t : tInfo) (mask : Z) : tInfo :=
  let f := u32 (Z.shiftl (u32 mask) flgsBpos) in
  let crt := atomicV t in
  mkTInfo (Z.land crt (not32 f)).

Definition tInfo_chgFlags (t : tInfo) (setMask resetMask : Z) : tInfo :=
  let setM := u32 (Z.shiftl (u32 setMask) flgsBpos) in
  let resetM := u32 (Z.shiftl (u32 resetMask) flgsBpos) in
  let crt := atomicV t in
  mkTInfo (Z.lor (Z.land crt (not32 resetM)) setM).

Definition tInfo_assignFlags (t : tInfo) (newVal : Z) : tInfo :=
  let v := u32 (Z.shiftl (u32 newVal) flgsBpos) in
  let resetM := u32 (Z.shiftl (u32 flgsMask) flgsBpos) in
  let crt := atomicV t in
  mkTInfo (Z.lor (Z.land crt (not32 resetM)) v).

Definition tInfo_setWheel (t : tInfo) (w idx : Z) : tInfo :=
  let v := Z.lor (u32 (Z.shiftl (u32 w) wNoBpos)) (u32 idx) in
  let resetM := Z.lor (u32 (Z.shiftl (u32 wNoMask) wNoBpos)) (u32 wIdxMask) in
  let crt := atomicV t in
  mkTInfo (Z.lor (Z.land crt (not32 resetM)) v).

Definition tInfo_setAll (t : tInfo) (flgs w idx : Z) : tInfo :=
  mkTInfo (Z.lor (Z.lor (u32 (Z.shiftl (u32 flgs) flgsBpos))
                        (u32 (Z.shiftl (u32 w) wNoBpos)))
                 (u32 idx)).

(** [getAll] returns flags, wheel number and index. *)
Definition tInfo_getAll (t : tInfo) : Z * Z * Z :=
  let crt := atomicV t in
  let f := Z.shiftr crt flgsBpos in
  let w := Z.land (Z.shiftr crt wNoBpos) wNoMask in
  let idx := Z.land crt wIdxMask in
  (u8 f, u8 w, u16 idx).

Definition tInfo_flags (t : tInfo) : Z :=
  let '(f, _, _) := tInfo_getAll t in f.

Definition tInfo_wheelPos (t : tInfo) : Z * Z :=
  let '(_, w, idx) := tInfo_getAll t in (u8 w, u16 idx).

(** ** Timer flags (timer.go) *)

Definition fHead : Z := 1.
Definition fActive : Z := 2.
Definition fDelete : Z := 4.
Definition fRunning : Z := 8.
Definition fRemoved : Z := 16.
Definition Ffast : Z := 32.
Definition FgoR : Z := 64.
Definition fInternalMask : Z :=
  Z.lor (Z.lor (Z.lor (Z.lor fHead fActive) fDelete) fRunning) fRemoved.

(** [const Periodic time.Duration = time.Duration(^int64(0))] *)
Definition Periodic : Z := i64 (Z.lnot 0).

(** [time.Microsecond], [time.Hour], in nanoseconds *)
Definition Microsecond : Z := 1000.
Definition Hour : Z := 3600 * 1000000000.

Definition runQueuesNo : Z := 8.
Definition runQueuesWorkersNo : Z := 8.

(** ** Memory *)

(** The lists of a scheduler: [wt.wlists[i]], [wt.expired], [wt.rQs[i]]. *)
Inductive lstRef : Type :=
| Lwlists (i : Z)
| Lexpired
| LrQs (i : Z).

(** Addresses of [TimerLnk] structures: the head of one of the scheduler's
    lists ([&lst.head]) or a timer handle owned by the user. *)
Inductive addr : Type :=
| AHead (l : lstRef)
| ATimer (n : nat).

(** A [*TimerLnk]; [None] is [nil]. *)
Definition ptr : Type := option addr.

Definition lstRef_eq_dec (a b : lstRef) : {a = b} + {a <> b}.
Proof. decide equality; apply Z.eq_dec. Defined.

Definition addr_eq_dec (a b : addr) : {a = b} + {a <> b}.
Proof. decide equality; [apply lstRef_eq_dec | apply Nat.eq_dec]. Defined.

Definition ptr_eq_dec (a b : ptr) : {a = b} + {a <> b}.
Proof. decide equality; apply addr_eq_dec. Defined.

Definition ptr_eqb (a b : ptr) : bool := if ptr_eq_dec a b then true else false.

(** Go arrays, indexed by [Z]: a table of the elements written so far over
    the zero value of the element type.  Bounds are checked where the
    source indexes, not here. *)
Record arr (A : Type) : Type := mkArr {
  arr_zero : A;
  arr_tbl : PositiveMap.t A
}.
Arguments mkArr {A} arr_zero arr_tbl.
Arguments arr_zero {A} a.
Arguments arr_tbl {A} a.

Definition Zkey (i : Z) : positive :=
  match i with
  | Z0 => 1%positive
  | Zpos p => xO p
  | Zneg p => xI p
  end.

Definition mkarr {A : Type} (zero : A) : arr A :=
  mkArr zero (PositiveMap.empty A).

(** [a[i]] *)
Definition aget {A : Type} (a : arr A) (i : Z) : A :=
  match PositiveMap.find (Zkey i) (arr_tbl a) with
  | Some x => x
  | None => arr_zero a
  end.

(** [a[i] = x] *)
Definition upd {A : Type} (a : arr A) (i : Z) (x : A) : arr A :=
  mkArr (arr_zero a) (PositiveMap.add (Zkey i) x (arr_tbl a)).

(** What a Go run-time failure ends the program with; [Deadlock] is a
    [Lock] of a mutex that is held, with no other goroutine to release
    it. *)
Inductive gopanic : Type :=
| NilDeref
| IndexOutOfRange
| Deadlock
| UnlockOfUnlocked
| DivideByZero.

Section Scheduler.

(** [U] is the state of the user's program, the only thing a timer callback
    acts on here; [Arg] is the type of the opaque callback argument. *)
Context {U Arg : Type}.

(** [type TimerHandlerF func(wt *WTimer, h *TimerLnk, arg interface{})
    (bool, time.Duration)].  A callback gets the handle and the argument,
    changes the state of the user's program and answers [(rearm, delta)];
    it makes no call into the scheduler. *)
Definition TimerHandlerF : Type := addr -> option Arg -> U -> U * (bool * Z).

(** [type TimerLnk struct] (timer.go); [intvl] is a [time.Duration],
    nanoseconds in an [int64]. *)
Record TimerLnk : Type := mkTimerLnk {
  next : ptr;
  prev : ptr;
  expire : Ticks;
  info : tInfo;
  rctx : tInfo;
  intvl : Z;
  f : option TimerHandlerF;
  arg : option Arg
}.

(** The zero value [TimerLnk{}]. *)
Definition TimerLnk_zero : TimerLnk :=
  mkTimerLnk None None (mkTicks 0) (mkTInfo 0) (mkTInfo 0) 0 None None.

Definition set_next (x : ptr) (r : TimerLnk) : TimerLnk :=
  mkTimerLnk x (prev r) (expire r) (info r) (rctx r) (intvl r) (f r) (arg r).
Definition set_prev (x : ptr) (r : TimerLnk) : TimerLnk :=
  mkTimerLnk (next r) x (expire r) (info r) (rctx r) (intvl r) (f r) (arg r).
Definition set_expire (x : Ticks) (r : TimerLnk) : TimerLnk :=
  mkTimerLnk (next r) (prev r) x (info r) (rctx r) (intvl r) (f r) (arg r).
Definition set_info (x : tInfo) (r : TimerLnk) : TimerLnk :=
  mkTimerLnk (next r) (prev r) (expire r) x (rctx r) (intvl r) (f r) (arg r).
Definition set_rctx (x : tInfo) (r : TimerLnk) : TimerLnk :=
  mkTimerLnk (next r) (prev r) (expire r) (info r) x (intvl r) (f r) (arg r).
Definition set_intvl (x : Z) (r : TimerLnk) : TimerLnk :=
  mkTimerLnk (next r) (prev r) (expire r) (info r) (rctx r) x (f r) (arg r).
Definition set_f (x : option TimerHandlerF) (r : TimerLnk) : TimerLnk :=
  mkTimerLnk (next r) (prev r) (expire r) (info r) (rctx r) (intvl r) x (arg r).
Definition set_arg (x : option Arg) (r : TimerLnk) : TimerLnk :=
  mkTimerLnk (next r) (prev r) (expire r) (info r) (rctx r) (intvl r) (f r) x.

(** [type timerLst struct] (timer_lst.go) *)
Record timerLst : Type := mkTimerLst {
  head : TimerLnk;
  wheelNo : Z;
  wheelIdx : Z
}.

Definition timerLst_zero : timerLst := mkTimerLst TimerLnk_zero 0 0.

Definition set_head (x : TimerLnk) (r : timerLst) : timerLst :=
  mkTimerLst x (wheelNo r) (wheelIdx r).
Definition set_wheelNo (x : Z) (r : timerLst) : timerLst :=
  mkTimerLst (head r) x (wheelIdx r).
Definition set_wheelIdx (x : Z) (r : timerLst) : timerLst :=
  mkTimerLst (head r) (wheelNo r) x.

(** [type wheel struct { no uint8; lsts []timerLst }]: the slice [lsts] is
    the window [wlists[lsts_off : lsts_off+lsts_len]] of the scheduler's
    array of lists. *)
Record wheel : Type := mkWheel {
  no : Z;
  lsts_off : Z;
  lsts_len : Z
}.

(** [type WTimer struct] (wtimer.go).  A mutex is [true] when held; the
    channel [rQch] is [None] when nil and otherwise holds the number of
    signals waiting in its buffer; the time stamps are nanoseconds of the
    monotonic clock. *)
Record WTimer : Type := mkWTimer {
  opLock : bool;
  wheels : arr wheel;
  wlists : arr timerLst;
  expired : timerLst;
  rQtail : Z;
  rQhead : Z;
  rQs : arr timerLst;
  rQlocks : arr bool;
  rQch : option Z;
  running : ptr;
  rQrunning : arr ptr;
  tickDuration : Z;
  nowTicks : Z;
  lastTickT : Z;
  badTime : Z;
  refTS : Z;
  refTicks : Ticks;
  wg : Z
}.

(** The zero value [var wt WTimer]. *)
Definition WTimer_zero : WTimer :=
  mkWTimer false (mkarr (mkWheel 0 0 0)) (mkarr timerLst_zero)
    timerLst_zero 0 0 (mkarr timerLst_zero) (mkarr false) None None
    (mkarr None) 0 0 0 0 0 (mkTicks 0) 0.

Definition set_opLock (x : bool) (r : WTimer) : WTimer :=
  mkWTimer x (wheels r) (wlists r) (expired r) (rQtail r) (rQhead r) (rQs r) (rQlocks r) (rQch r) (running r) (rQrunning r) (tickDuration r) (nowTicks r) (lastTickT r) (badTime r) (refTS r) (refTicks r) (wg r).
Definition set_wheels (x : arr wheel) (r : WTimer) : WTimer :=
  mkWTimer (opLock r) x (wlists r) (expired r) (rQtail r) (rQhead r) (rQs r) (rQlocks r) (rQch r) (running r) (rQrunning r) (tickDuration r) (nowTicks r) (lastTickT r) (badTime r) (refTS r) (refTicks r) (wg r).
Definition set_wlists (x : arr timerLst) (r : WTimer) : WTimer :=
  mkWTimer (opLock r) (wheels r) x (expired r) (rQtail r) (rQhead r) (rQs r) (rQlocks r) (rQch r) (running r) (rQrunning r) (tickDuration r) (nowTicks r) (lastTickT r) (badTime r) (refTS r) (refTicks r) (wg r).
Definition set_expired (x : timerLst) (r : WTimer) : WTimer :=
  mkWTimer (opLock r) (wheels r) (wlists r) x (rQtail r) (rQhead r) (rQs r) (rQlocks r) (rQch r) (running r) (rQrunning r) (tickDuration r) (nowTicks r) (lastTickT r) (badTime r) (refTS r) (refTicks r) (wg r).
Definition set_rQtail (x : Z) (r : WTimer) : WTimer :=
  mkWTimer (opLock r) (wheels r) (wlists r) (expired r) x (rQhead r) (rQs r) (rQlocks r) (rQch r) (running r) (rQrunning r) (tickDuration r) (nowTicks r) (lastTickT r) (badTime r) (refTS r) (refTicks r) (wg r).
Definition set_rQhead (x : Z) (r : WTimer) : WTimer :=
  mkWTimer (opLock r) (wheels r) (wlists r) (expired r) (rQtail r) x (rQs r) (rQlocks r) (rQch r) (running r) (rQrunning r) (tickDuration r) (nowTicks r) (lastTickT r) (badTime r) (refTS r) (refTicks r) (wg r).
Definition set_rQs (x : arr timerLst) (r : WTimer) : WTimer :=
  mkWTimer (opLock r) (wheels r) (wlists r) (expired r) (rQtail r) (rQhead r) x (rQlocks r) (rQch r) (running r) (rQrunning r) (tickDuration r) (nowTicks r) (lastTickT r) (badTime r) (refTS r) (refTicks r) (wg r).
Definition set_rQlocks (x : arr bool) (r : WTimer) : WTimer :=
  mkWTimer (opLock r) (wheels r) (wlists r) (expired r) (rQtail r) (rQhead r) (rQs r) x (rQch r) (running r) (rQrunning r) (tickDuration r) (nowTicks r) (lastTickT r) (badTime r) (refTS r) (refTicks r) (wg r).
Definition set_rQch (x : option Z) (r : WTimer) : WTimer :=
  mkWTimer (opLock r) (wheels r) (wlists r) (expired r) (rQtail r) (rQhead r) (rQs r) (rQlocks r) x (running r) (rQrunning r) (tickDuration r) (nowTicks r) (lastTickT r) (badTime r) (refTS r) (refTicks r) (wg r).
Definition set_running (x : ptr) (r : WTimer) : WTimer :=
  mkWTimer (opLock r) (wheels r) (wlists r) (expired r) (rQtail r) (rQhead r) (rQs r) (rQlocks r) (rQch r) x (rQrunning r) (tickDuration r) (nowTicks r) (lastTickT r) (badTime r) (refTS r) (refTicks r) (wg r).
Definition set_rQrunning (x : arr ptr) (r : WTimer) : WTimer :=
  mkWTimer (opLock r) (wheels r) (wlists r) (expired r) (rQtail r) (rQhead r) (rQs r) (rQlocks r) (rQch r) (running r) x (tickDuration r) (nowTicks r) (lastTickT r) (badTime r) (refTS r) (refTicks r) (wg r).
Definition set_tickDuration (x : Z) (r : WTimer) : WTimer :=
  mkWTimer (opLock r) (wheels r) (wlists r) (expired r) (rQtail r) (rQhead r) (rQs r) (rQlocks r) (rQch r) (running r) (rQrunning r) x (nowTicks r) (lastTickT r) (badTime r) (refTS r) (refTicks r) (wg r).
Definition set_nowTicks (x : Z) (r : WTimer) : WTimer :=
  mkWTimer (opLock r) (wheels r) (wlists r) (expired r) (rQtail r) (rQhead r) (rQs r) (rQlocks r) (rQch r) (running r) (rQrunning r) (tickDuration r) x (lastTickT r) (badTime r) (refTS r) (refTicks r) (wg r).
Definition set_lastTickT (x : Z) (r : WTimer) : WTimer :=
  mkWTimer (opLock r) (wheels r) (wlists r) (expired r) (rQtail r) (rQhead r) (rQs r) (rQlocks r) (rQch r) (running r) (rQrunning r) (tickDuration r) (nowTicks r) x (badTime r) (refTS r) (refTicks r) (wg r).
Definition set_badTime (x : Z) (r : WTimer) : WTimer :=
  mkWTimer (opLock r) (wheels r) (wlists r) (expired r) (rQtail r) (rQhead r) (rQs r) (rQlocks r) (rQch r) (running r) (rQrunning r) (tickDuration r) (nowTicks r) (lastTickT r) x (refTS r) (refTicks r) (wg r).
Definition set_refTS (x : Z) (r : WTimer) : WTimer :=
  mkWTimer (opLock r) (wheels r) (wlists r) (expired r) (rQtail r) (rQhead r) (rQs r) (rQlocks r) (rQch r) (running r) (rQrunning r) (tickDuration r) (nowTicks r) (lastTickT r) (badTime r) x (refTicks r) (wg r).
Definition set_refTicks (x : Ticks) (r : WTimer) : WTimer :=
  mkWTimer (opLock r) (wheels r) (wlists r) (expired r) (rQtail r) (rQhead r) (rQs r) (rQlocks r) (rQch r) (running r) (rQrunning r) (tickDuration r) (nowTicks r) (lastTickT r) (badTime r) (refTS r) x (wg r).
Definition set_wg (x : Z) (r : WTimer) : WTimer :=
  mkWTimer (opLock r) (wheels r) (wlists r) (expired r) (rQtail r) (rQhead r) (rQs r) (rQlocks r) (rQch r) (running r) (rQrunning r) (tickDuration r) (nowTicks r) (lastTickT r) (badTime r) (refTS r) (refTicks r) x.

(** The program state: the scheduler, the timer handles the user owns (by
    address), the state of the user's program, the reading of the monotonic
    clock ([timestamp.Now()]), and three records kept for the
    specification: the callback invocations (latest first), the goroutines
    started for [FgoR] timers and not run yet, and the messages handed to
    [BUG] and [PANIC]. *)
Record World : Type := mkWorld {
  wt : WTimer;
  timers : nat -> TimerLnk;
  user : U;
  wallClock : Z;
  calls : list addr;
  spawned : list addr;
  faults : list string
}.

Definition set_wt (x : WTimer) (r : World) : World :=
  mkWorld x (timers r) (user r) (wallClock r) (calls r) (spawned r) (faults r).
Definition set_timers (x : nat -> TimerLnk) (r : World) : World :=
  mkWorld (wt r) x (user r) (wallClock r) (calls r) (spawned r) (faults r).
Definition set_user (x : U) (r : World) : World :=
  mkWorld (wt r) (timers r) x (wallClock r) (calls r) (spawned r) (faults r).
Definition set_wallClock (x : Z) (r : World) : World :=
  mkWorld (wt r) (timers r) (user r) x (calls r) (spawned r) (faults r).
Definition set_calls (x : list addr) (r : World) : World :=
  mkWorld (wt r) (timers r) (user r) (wallClock r) x (spawned r) (faults r).
Definition set_spawned (x : list addr) (r : World) : World :=
  mkWorld (wt r) (timers r) (user r) (wallClock r) (calls r) x (faults r).
Definition set_faults (x : list string) (r : World) : World :=
  mkWorld (wt r) (timers r) (user r) (wallClock r) (calls r) (spawned r) x.
(** *** Loads and stores *)

Definition lst_of (l : lstRef) (s : WTimer) : timerLst :=
  match l with
  | Lwlists i => aget (wlists s) i
  | Lexpired => expired s
  | LrQs i => aget (rQs s) i
  end.

Definition set_lst (l : lstRef) (x : timerLst) (s : WTimer) : WTimer :=
  match l with
  | Lwlists i => set_wlists (upd (wlists s) i x) s
  | Lexpired => set_expired x s
  | LrQs i => set_rQs (upd (rQs s) i x) s
  end.

Definition load (a : addr) (w : World) : TimerLnk :=
  match a with
  | AHead l => head (lst_of l (wt w))
  | ATimer n => timers w n
  end.

Definition store (a : addr) (x : TimerLnk) (w : World) : World :=
  match a with
  | AHead l => set_wt (set_lst l (set_head x (lst_of l (wt w))) (wt w)) w
  | ATimer n =>
      set_timers (fun m => if Nat.eqb m n then x else timers w m) w
  end.

(** *** The monad of scheduler code

    A computation runs on the program state and gives a result and a new
    state, or ends in a Go run-time failure, or needs more fuel than it was
    given (the loops over linked lists are bounded by fuel). *)
Inductive outcome (A : Type) : Type :=
| Ok (a : A) (w : World)
| Panic (p : gopanic)
| OutOfFuel.
Arguments Ok {A} a w.
Arguments Panic {A} p.
Arguments OutOfFuel {A}.

Definition M (A : Type) : Type := World -> outcome A.

Definition ret {A : Type} (a : A) : M A := fun w => Ok a w.

Definition bind {A B : Type} (c : M A) (k : A -> M B) : M B :=
  fun w =>
    match c w with
    | Ok a w' => k a w'
    | Panic p => Panic p
    | OutOfFuel => OutOfFuel
    end.

Definition panic {A : Type} (p : gopanic) : M A := fun _ => Panic p.
Definition outOfFuel {A : Type} : M A := fun _ => OutOfFuel.

Notation "x <- c1 ;; c2" := (bind c1 (fun x => c2))
  (at level 61, c1 at next level, right associativity).
Notation "' pat <- c1 ;; c2" := (bind c1 (fun x => match x with pat => c2 end))
  (at level 61, pat pattern, c1 at next level, right associativity).
Notation "c1 ;; c2" := (bind c1 (fun _ => c2))
  (at level 61, right associativity).

(** [when c m] is [if c { m }]. *)
Definition when (c : bool) (m : M unit) : M unit := if c then m else ret tt.

(** Following a pointer; [nil] is a run-time failure. *)
Definition deref (p : ptr) : M addr :=
  match p with
  | Some a => ret a
  | None => panic NilDeref
  end.

Definition rd (a : addr) : M TimerLnk := fun w => Ok (load a w) w.

Definition wr (a : addr) (g : TimerLnk -> TimerLnk) : M unit :=
  fun w => Ok tt (store a (g (load a w)) w).

Definition rdLst (l : lstRef) : M timerLst := fun w => Ok (lst_of l (wt w)) w.

Definition wrLst (l : lstRef) (g : timerLst -> timerLst) : M unit :=
  fun w => Ok tt (set_wt (set_lst l (g (lst_of l (wt w))) (wt w)) w).

Definition rdWt {A : Type} (g : WTimer -> A) : M A := fun w => Ok (g (wt w)) w.

Definition wrWt (g : WTimer -> WTimer) : M unit :=
  fun w => Ok tt (set_wt (g (wt w)) w).

(** Modelled from the spec: the logging sinks [BUG] and [PANIC] (their
    definitions are not among the sources) take a formatted string and
    return; the message is kept in [faults].  [DBG], [WARN] and [ERR] only
    print and are left out. *)
Definition BUG (msg : string) : M unit :=
  fun w => Ok tt (set_faults (msg :: faults w) w).

Definition PANIC (msg : string) : M unit :=
  fun w => Ok tt (set_faults (msg :: faults w) w).

(** [timestamp.Now()] *)
Definition timestamp_Now : M Z := fun w => Ok (wallClock w) w.

Definition is_nil (p : ptr) : bool :=
  match p with None => true | Some _ => false end.

(** *** Intrusive lists (timer.go, timer_lst.go) *)

(** [func (tl *TimerLnk) Detached() bool], on the structure at [tl] *)
Definition TimerLnk_Detached (tl : addr) (x : TimerLnk) : bool :=
  ptr_eqb (Some tl) (next x) || (is_nil (next x) && is_nil (prev x)).

Definition isDetached (e : addr) : M bool :=
  x <- rd e ;; ret (TimerLnk_Detached e x).

Definition timerLst_forceEmpty (lst : lstRef) : M unit :=
  wr (AHead lst) (set_next (Some (AHead lst))) ;;
  wr (AHead lst) (set_prev (Some (AHead lst))).

Definition timerLst_init (lst : lstRef) (wNo wIdx : Z) : M unit :=
  timerLst_forceEmpty lst ;;
  wrLst lst (set_wheelNo wNo) ;;
  wrLst lst (set_wheelIdx wIdx) ;;
  wr (AHead lst) (fun h => set_info (tInfo_setFlags (info h) fHead) h) ;;
  wr (AHead lst) (fun h => set_info (tInfo_setWheel (info h) wNo wIdx) h).

Definition timerLst_isEmpty (lst : lstRef) : M bool :=
  h <- rd (AHead lst) ;; ret (ptr_eqb (next h) (Some (AHead lst))).

(** [func (lst *timerLst) append(e *TimerLnk)], [e] not nil *)
Definition timerLst_append (lst : lstRef) (e : addr) : M unit :=
  d <- isDetached e ;;
  when (negb d) (PANIC "timerLst append called on an entry not detached") ;;
  h <- rd (AHead lst) ;;
  wr e (set_prev (prev h)) ;;
  wr e (set_next (Some (AHead lst))) ;;
  x <- rd e ;;
  p <- deref (prev x) ;;
  wr p (set_next (Some e)) ;;
  wr (AHead lst) (set_prev (Some e)) ;;
  x <- rd e ;;
  let '(w, idx) := tInfo_wheelPos (info x) in
  when (negb (w =? wheelNone) || negb (idx =? wheelNoIdx))
    (PANIC "timerLst insert called on an entry already on a diff. list") ;;
  l <- rdLst lst ;;
  wr e (fun x => set_info (tInfo_setWheel (info x) (wheelNo l) (wheelIdx l)) x).

(** [func (lst *timerLst) rm(e *TimerLnk)] *)
Definition timerLst_rm (lst : lstRef) (e : ptr) : M unit :=
  match e with
  | None => PANIC "called with nil-detached element" ;; panic NilDeref
  | Some a =>
      x <- rd a ;;
      when (is_nil (next x) || is_nil (prev x))
        (PANIC "called with nil-detached element") ;;
      when (ptr_eqb (next x) e || ptr_eqb (prev x) e)
        (if ptr_eqb e (Some (AHead lst))
         then PANIC "trying to rm list head"
         else PANIC "called with detached element") ;;
      p <- deref (prev x) ;;
      wr p (set_next (next x)) ;;
      x <- rd a ;;
      n <- deref (next x) ;;
      wr n (set_prev (prev x)) ;;
      wr a (set_next e) ;;
      wr a (set_prev e) ;;
      x <- rd a ;;
      l <- rdLst lst ;;
      let '(w, idx) := tInfo_wheelPos (info x) in
      when (negb (w =? wheelNo l) || negb (idx =? wheelIdx l))
        (PANIC "timerLst rm called on an entry from a different list") ;;
      wr a (fun x => set_info (tInfo_setWheel (info x) wheelNone wheelNoIdx) x)
  end.

Definition setWheel_at (a : addr) (w idx : Z) : M unit :=
  wr a (fun x => set_info (tInfo_setWheel (info x) w idx) x).

(** [for v := s; v != e; v = v.next { v.info.setWheel(w, idx) }] *)
Fixpoint setWheel_loop (fuel : nat) (v e : ptr) (w idx : Z) : M unit :=
  if ptr_eqb v e then ret tt
  else
    match fuel with
    | O => outOfFuel
    | S k =>
        a <- deref v ;;
        setWheel_at a w idx ;;
        x <- rd a ;;
        setWheel_loop k (next x) e w idx
    end.

(** [func (lst *timerLst) rmSubList(s, e *TimerLnk) *TimerLnk] *)
Definition timerLst_rmSubList (fuel : nat) (lst : lstRef) (s e : ptr)
  : M ptr :=
  match e with
  | None => PANIC "called with nil-detached element" ;; panic NilDeref
  | Some ea =>
      xe <- rd ea ;;
      when (is_nil (next xe) || is_nil (prev xe))
        (PANIC "called with nil-detached element") ;;
      when ((ptr_eqb (next xe) e || ptr_eqb (prev xe) e)
            && negb (ptr_eqb e (Some (AHead lst))))
        (PANIC "called with detached element") ;;
      match s with
      | None => PANIC "called with nil-detached element" ;; panic NilDeref
      | Some sa =>
          xs <- rd sa ;;
          when (is_nil (next xs) || is_nil (prev xs))
            (PANIC "called with nil-detached element") ;;
          when ((ptr_eqb (next xs) s || ptr_eqb (prev xs) s)
                && negb (ptr_eqb s (Some (AHead lst))))
            (PANIC "called with detached element") ;;
          if ptr_eqb s (Some (AHead lst)) || ptr_eqb e (Some (AHead lst))
          then ret None
          else
            sp <- deref (prev xs) ;;
            xe <- rd ea ;;
            wr sp (set_next (next xe)) ;;
            xe <- rd ea ;;
            en <- deref (next xe) ;;
            xs <- rd sa ;;
            wr en (set_prev (prev xs)) ;;
            wr sa (set_prev e) ;;
            wr ea (set_next s) ;;
            setWheel_loop fuel s e wheelNone wheelNoIdx ;;
            setWheel_at ea wheelNone wheelNoIdx ;;
            ret s
      end
  end.

(** [func (lst *timerLst) appendSubList(s, e *TimerLnk)] *)
Definition timerLst_appendSubList (fuel : nat) (lst : lstRef) (s e : ptr)
  : M unit :=
  sa <- deref s ;;
  h <- rd (AHead lst) ;;
  wr sa (set_prev (prev h)) ;;
  ea <- deref e ;;
  wr ea (set_next (Some (AHead lst))) ;;
  h <- rd (AHead lst) ;;
  hp <- deref (prev h) ;;
  wr hp (set_next s) ;;
  wr (AHead lst) (set_prev e) ;;
  l <- rdLst lst ;;
  setWheel_loop fuel s e (wheelNo l) (wheelIdx l) ;;
  l <- rdLst lst ;;
  setWheel_at ea (wheelNo l) (wheelIdx l).

(** [func (lst *timerLst) mv(dst *timerLst) bool] *)
Definition timerLst_mv (fuel : nat) (lst dst : lstRef) : M bool :=
  h <- rd (AHead lst) ;;
  let s := next h in
  let e := prev h in
  r <- timerLst_rmSubList fuel lst s e ;;
  if is_nil r then ret false
  else timerLst_appendSubList fuel dst s e ;; ret true.

(** *** The scheduler (wtimer.go) *)

(** [wt.wheels[wheel].lsts[idx]], with the bounds checks of the array and
    of the slice *)
Definition wheelLst (wheel idx : Z) : M lstRef :=
  fun w =>
    if (0 <=? wheel) && (wheel <? WheelsNo) then
      let wh := aget (wheels (wt w)) wheel in
      if (0 <=? idx) && (idx <? lsts_len wh)
      then Ok (Lwlists (lsts_off wh + idx)) w
      else Panic IndexOutOfRange
    else Panic IndexOutOfRange.

(** [wt.rQs[idx]], [wt.rQlocks[idx]], [wt.rQrunning[idx]]: the index into
    an array of [runQueuesNo] elements *)
Definition rQidx (idx : Z) : M Z :=
  if (0 <=? idx) && (idx <? runQueuesNo) then ret idx
  else panic IndexOutOfRange.

Definition WTimer_lock : M unit :=
  fun w =>
    if opLock (wt w) then Panic Deadlock
    else Ok tt (set_wt (set_opLock true (wt w)) w).

Definition WTimer_unlock : M unit :=
  fun w =>
    if opLock (wt w) then Ok tt (set_wt (set_opLock false (wt w)) w)
    else Panic UnlockOfUnlocked.

(** [wt.rQlocks[idx].Lock()] and [Unlock()] *)
Definition rQlock_Lock (idx : Z) : M unit :=
  i <- rQidx idx ;;
  fun w =>
    if aget (rQlocks (wt w)) i then Panic Deadlock
    else Ok tt (set_wt (set_rQlocks (upd (rQlocks (wt w)) i true) (wt w)) w).

Definition rQlock_Unlock (idx : Z) : M unit :=
  i <- rQidx idx ;;
  fun w =>
    if aget (rQlocks (wt w)) i
    then Ok tt (set_wt (set_rQlocks (upd (rQlocks (wt w)) i false) (wt w)) w)
    else Panic UnlockOfUnlocked.

(** [func (w *wheel) init(n uint8, lists []timerLst)]: the loop over the
    [cnt] lists that remain from index [i] on *)
Fixpoint wheel_init_loop (wheel : Z) (cnt : nat) (i : Z) : M unit :=
  match cnt with
  | O => ret tt
  | S k =>
      lst <- wheelLst wheel i ;;
      n <- rdWt (fun s => no (aget (wheels s) wheel)) ;;
      timerLst_init lst n (u16 i) ;;
      wheel_init_loop wheel k (i + 1)
  end.

Definition wheel_init (wheel : Z) (n : Z) (off len : Z) : M unit :=
  wrWt (fun s => set_wheels (upd (wheels s) wheel (mkWheel n off len)) s) ;;
  wheel_init_loop wheel (Z.to_nat len) 0.

(** The first loop of [Init]: [cnt] wheels remain from wheel [i] on, [pos]
    is the start of the next window of [wlists]. *)
Fixpoint Init_wheels (cnt : nat) (i pos : Z) : M unit :=
  match cnt with
  | O => ret tt
  | S k =>
      match wheelEntries i with
      | None => panic IndexOutOfRange
      | Some sz =>
          (if (0 <=? pos) && (pos + sz <=? wTotalEntries)
           then wheel_init i (u8 i) pos sz
           else panic IndexOutOfRange) ;;
          Init_wheels k (i + 1) (pos + sz)
      end
  end.

(** The second loop of [Init], over the run queues. *)
Fixpoint Init_rQs (cnt : nat) (i : Z) : M unit :=
  match cnt with
  | O => ret tt
  | S k =>
      q <- rQidx i ;;
      timerLst_init (LrQs q) wheelRQ (u16 i) ;;
      Init_rQs k (i + 1)
  end.

(** [func (wt *WTimer) Init(td time.Duration) error]; [None] is [nil]. *)
Definition WTimer_Init (td : Z) : M (option error) :=
  if td <? Microsecond then
    ret (Some (ErrorsNew "wtimer.Init: tick duration too small"))
  else if td >? Hour * 24 then
    ret (Some (ErrorsNew "wtimer.Init: tick duration too high"))
  else
    wrWt (set_tickDuration td) ;;
    Init_wheels (Z.to_nat WheelsNo) 0 0 ;;
    timerLst_init Lexpired wheelExp wheelNoIdx ;;
    Init_rQs (Z.to_nat runQueuesNo) 0 ;;
    wrWt (set_rQch (Some 0)) ;;
    ret None.

(** [func (wt *WTimer) Now() Ticks] *)
Definition WTimer_Now (s : WTimer) : Ticks := NewTicks (nowTicks s).

(** [func (wt *WTimer) incTime()] *)
Definition WTimer_incTime : M unit :=
  wrWt (fun s => set_nowTicks (u64 (nowTicks s + 1)) s).

(** [func (wt *WTimer) Ticks(d time.Duration) (Ticks, time.Duration)]; Go's
    [/] and [%] truncate towards zero. *)
Definition WTimer_Ticks (s : WTimer) (d : Z) : Ticks * Z :=
  if negb (tickDuration s =? 0) then
    let t := i64 (Z.quot d (tickDuration s)) in
    (NewTicks (u64 t), Z.rem d (tickDuration s))
  else (NewTicks 0, d).

(** [func (wt *WTimer) Duration(t Ticks) time.Duration] *)
Definition WTimer_Duration (s : WTimer) (t : Ticks) : Z :=
  i64 (i64 (Ticks_Val t) * tickDuration s).

(** [func (wt *WTimer) TicksRoundUp(d time.Duration) Ticks] *)
Definition WTimer_TicksRoundUp (s : WTimer) (d : Z) : Ticks :=
  let '(dticks, rest) := WTimer_Ticks s d in
  if (Ticks_Val dticks =? 0)
     || (rest >=? Z.quot (i64 (50 * tickDuration s)) 100)
  then Ticks_AddUint64 dticks 1
  else dticks.

(** [func (wt *WTimer) Reset(tl *TimerLnk, flags uint8) error] *)
Definition WTimer_Reset (tl : addr) (flags : Z) : M (option error) :=
  x <- rd tl ;;
  let f := tInfo_flags (info x) in
  if negb (Z.land f fActive =? 0) && (Z.land f fRemoved =? 0) then
    ret (Some ErrActiveTimer)
  else if negb (is_nil (next x)) || negb (is_nil (prev x)) then
    ret (Some ErrInvalidTimer)
  else
    let flags := Z.land flags (not8 fInternalMask) in
    wr tl (fun x => set_info (tInfo_chgFlags (info x) flags fInternalMask) x) ;;
    ret None.

(** [func (wt *WTimer) InitTimer(tl *TimerLnk, flags uint8) error] *)
Definition WTimer_InitTimer (tl : addr) (flags : Z) : M (option error) :=
  wr tl (fun _ => TimerLnk_zero) ;;
  setWheel_at tl wheelNone wheelNoIdx ;;
  WTimer_Reset tl flags.

(** [func (wt *WTimer) appendTimer(tl *TimerLnk, wheel uint8, idx uint16)
    error] *)
Definition WTimer_appendTimer (tl : addr) (wheel idx : Z) : M (option error) :=
  if wheel <? WheelsNo then
    lst <- wheelLst wheel idx ;;
    timerLst_append lst tl ;;
    ret None
  else if wheel =? wheelExp then
    timerLst_append Lexpired tl ;;
    ret None
  else
    BUG "invalid wheel no" ;;
    ret (Some ErrInvalidTimer).

(** [func (wt *WTimer) addUnsafe(tl *TimerLnk, now Ticks) error] *)
Definition WTimer_addUnsafe (tl : addr) (now : Ticks) : M (option error) :=
  x <- rd tl ;;
  s <- rdWt (fun s => s) ;;
  let '(delta, _) := WTimer_Ticks s (intvl x) in
  if Ticks_Val delta >? MaxTicksDiff then
    BUG "delta value is too high" ;;
    ret (Some ErrTicksTooHigh)
  else
    ts <- timestamp_Now ;;
    let expIntvl := i64 (i64 (ts - refTS s) + intvl x) in
    let dticks := WTimer_TicksRoundUp s expIntvl in
    if Ticks_Val dticks >? MaxTicksDiff - 1 then
      BUG "adjusted delta value is too high" ;;
      ret (Some ErrTicksTooHigh)
    else
      wr tl (set_expire (Ticks_Add (refTicks s) dticks)) ;;
      x <- rd tl ;;
      let '(w, idx) := getWheelPos (expire x) now in
      WTimer_appendTimer tl w idx.

(** [func (wt *WTimer) addSanityChecks(tl *TimerLnk, delta time.Duration,
    f TimerHandlerF) error] *)
Definition WTimer_addSanityChecks (tl : addr) (delta : Z)
  (fn : option TimerHandlerF) : M (option error) :=
  x <- rd tl ;;
  if negb (Z.land (tInfo_flags (info x)) fActive =? 0) then
    ret (Some ErrActiveTimer)
  else if negb (Z.land (tInfo_flags (info x)) fRunning =? 0) then
    ret (Some ErrNotResetTimer)
  else if negb (Z.land (tInfo_flags (info x)) fRemoved =? 0) then
    ret (Some ErrNotResetTimer)
  else if negb (is_nil (next x)) || negb (is_nil (prev x)) then
    BUG "called with linked timer" ;;
    ret (Some ErrInvalidTimer)
  else
    let '(w, idx) := tInfo_wheelPos (info x) in
    if negb (w =? wheelNone) || negb (idx =? wheelNoIdx) then
      BUG "called non-init or bad timer" ;;
      ret (Some ErrInvalidTimer)
    else
      match fn with
      | None => ret (Some ErrInvalidParameters)
      | Some _ => ret None
      end.

(** [func (wt *WTimer) Add(tl *TimerLnk, d time.Duration, f TimerHandlerF,
    p interface{}) error] *)
Definition WTimer_Add (tl : addr) (d : Z) (fn : option TimerHandlerF)
  (p : option Arg) : M (option error) :=
  WTimer_lock ;;
  err <- WTimer_addSanityChecks tl d fn ;;
  match err with
  | Some e => WTimer_unlock ;; ret (Some e)
  | None =>
      wr tl (set_f fn) ;;
      wr tl (set_arg p) ;;
      wr tl (set_intvl d) ;;
      wr tl (fun x => set_info (tInfo_chgFlags (info x) fActive fInternalMask) x) ;;
      now <- rdWt WTimer_Now ;;
      r <- WTimer_addUnsafe tl now ;;
      when (negb (match r with None => true | Some _ => false end))
        (wr tl (fun x => set_info (tInfo_setFlags (info x) fRemoved) x)) ;;
      WTimer_unlock ;;
      ret r
  end.

(** [func (wt *WTimer) AddT(tl *TimerLnk, delta Ticks, f TimerHandlerF,
    p interface{}) error] *)
Definition WTimer_AddT (tl : addr) (delta : Ticks) (fn : option TimerHandlerF)
  (p : option Arg) : M (option error) :=
  s <- rdWt (fun s => s) ;;
  let intvl := WTimer_Duration s delta in
  WTimer_Add tl intvl fn p.

(** [func (wt *WTimer) AddExpire(tl *TimerLnk, expire Ticks,
    f TimerHandlerF, p interface{}) error] *)
Definition WTimer_AddExpire (tl : addr) (exp : Ticks)
  (fn : option TimerHandlerF) (p : option Arg) : M (option error) :=
  s <- rdWt (fun s => s) ;;
  let now := WTimer_Now s in
  let intvl := WTimer_Duration s (Ticks_Sub exp now) in
  WTimer_lock ;;
  err <- WTimer_addSanityChecks tl intvl fn ;;
  match err with
  | Some e => WTimer_unlock ;; ret (Some e)
  | None =>
      wr tl (set_f fn) ;;
      wr tl (set_arg p) ;;
      wr tl (set_intvl intvl) ;;
      wr tl (set_expire exp) ;;
      wr tl (fun x => set_info (tInfo_chgFlags (info x) fActive fInternalMask) x) ;;
      x <- rd tl ;;
      let '(w, idx) := getWheelPos (expire x) now in
      r <- WTimer_appendTimer tl w idx ;;
      WTimer_unlock ;;
      ret r
  end.

(** [del] internal flags *)
Definition fDelInactiveOk : Z := 1.
Definition fDelAlreadyOk : Z := 2.
Definition fDelRaceOk : Z := 4.
Definition fDelForce : Z := 8.
Definition fDelTry : Z := 16.

Definition setFlags_at (a : addr) (mask : Z) : M unit :=
  wr a (fun x => set_info (tInfo_setFlags (info x) mask) x).

(** [lst.rm(tl); tl.next = nil; tl.prev = nil;
    tl.info.setFlags(fRemoved)] *)
Definition rm_and_mark (lst : lstRef) (tl : addr) : M unit :=
  timerLst_rm lst (Some tl) ;;
  wr tl (set_next None) ;;
  wr tl (set_prev None) ;;
  setFlags_at tl fRemoved.

(** [func (wt *WTimer) del(tl *TimerLnk, delF delFlags) (bool, error)];
    each [goto retry] takes one unit of fuel. *)
Fixpoint WTimer_del (fuel : nat) (tl : addr) (delF : Z)
  : M (bool * option error) :=
  WTimer_lock ;;
  x <- rd tl ;;
  let '(flags, wheel, idx) := tInfo_getAll (info x) in
  if negb (Z.land flags (Z.lor fActive fDelete) =? fActive)
     && (Z.land flags fActive =? 0) then
    WTimer_unlock ;;
    ret (true, Some ErrInactiveTimer)
  else if negb (Z.land flags (Z.lor fActive fDelete) =? fActive)
          && (Z.land delF (Z.lor fDelRaceOk fDelForce) =? 0) then
    WTimer_unlock ;;
    if negb (Z.land delF fDelAlreadyOk =? 0)
    then ret (negb (Z.land flags fRemoved =? 0), None)
    else ret (negb (Z.land flags fRemoved =? 0), Some ErrDeletedTimer)
  else if wheel =? wheelNone then
    x <- rd tl ;;
    if negb (Z.land (tInfo_flags (info x)) fRunning =? 0) then
      when (Z.land delF fDelTry =? 0) (setFlags_at tl fDelete) ;;
      WTimer_unlock ;;
      ret (false, None)
    else
      WTimer_unlock ;;
      when (Z.land flags fRemoved =? 0)
        (BUG "timer removed but fRemoved not set") ;;
      ret (true, Some ErrAlreadyRemovedTimer)
  else
    when (negb (Z.land flags fRemoved =? 0))
      (PANIC "timer fRemoved  SET but on wheel") ;;
    x <- rd tl ;;
    if negb (wheel =? wheelRQ)
       && (TimerLnk_Detached tl x || is_nil (next x) || is_nil (prev x)) then
      WTimer_unlock ;;
      PANIC "invalid timer link" ;;
      ret (true, Some ErrInvalidTimer)
    else if wheel <? WheelsNo then
      lst <- wheelLst wheel idx ;;
      rm_and_mark lst tl ;;
      WTimer_unlock ;;
      ret (true, None)
    else if wheel =? wheelExp then
      x <- rd tl ;;
      r <- (if Z.land (tInfo_flags (info x)) fRunning =? 0 then
              rm_and_mark Lexpired tl ;;
              ret true
            else
              PANIC "timer on wheelExp but fRunning was set" ;;
              when (Z.land delF fDelTry =? 0) (setFlags_at tl fDelete) ;;
              ret false) ;;
      WTimer_unlock ;;
      ret (r, None)
    else if wheel =? wheelRQ then
      WTimer_unlock ;;
      rQlock_Lock idx ;;
      x <- rd tl ;;
      let '(wheel2, idx2) := tInfo_wheelPos (info x) in
      if negb (wheel =? wheel2) || negb (idx =? idx2) then
        rQlock_Unlock idx ;;
        match fuel with
        | O => outOfFuel
        | S k => WTimer_del k tl delF
        end
      else
        x <- rd tl ;;
        r <- (if Z.land (tInfo_flags (info x)) fRunning =? 0 then
                q <- rQidx idx ;;
                rm_and_mark (LrQs q) tl ;;
                ret true
              else
                when (Z.land delF fDelTry =? 0) (setFlags_at tl fDelete) ;;
                ret false) ;;
        rQlock_Unlock idx ;;
        ret (r, None)
    else
      WTimer_unlock ;;
      PANIC " unknown wheel" ;;
      ret (true, Some ErrInvalidTimer).

(** [func (wt *WTimer) Del(tl *TimerLnk) (bool, error)] *)
Definition WTimer_Del (fuel : nat) (tl : addr) : M (bool * option error) :=
  WTimer_del fuel tl 0.

(** [func (wt *WTimer) DelTry(tl *TimerLnk) (bool, error)] *)
Definition WTimer_DelTry (fuel : nat) (tl : addr) : M (bool * option error) :=
  WTimer_del fuel tl fDelTry.

(** [func (wt *WTimer) redistTimer(lst *timerLst, tl *TimerLnk,
    now Ticks)] *)
Definition WTimer_redistTimer (lst : lstRef) (tl : ptr) (now : Ticks)
  : M unit :=
  ta <- deref tl ;;
  x <- rd ta ;;
  expire0 <- (if Ticks_LT (expire x) now
              then BUG "rtimer: expire less then now" ;; ret now
              else ret (expire x)) ;;
  let '(w, idx) := getWheelPos expire0 now in
  l <- rdLst lst ;;
  if (w =? wheelNo l) && (idx =? wheelIdx l) then
    BUG "redistributed to the same wheel/idx"
  else
    timerLst_rm lst tl ;;
    r <- WTimer_appendTimer ta w idx ;;
    match r with
    | None => ret tt
    | Some _ =>
        wr ta (set_next None) ;;
        wr ta (set_prev None) ;;
        setFlags_at ta fRemoved
    end.

(** The loop of [redistLst]:
    [for v, nxt := s, s.next; v != &lst.head; v, nxt = nxt, nxt.next] *)
Fixpoint redistLst_loop (fuel : nat) (lst : lstRef) (v nxt : ptr)
  (now : Ticks) : M unit :=
  if ptr_eqb v (Some (AHead lst)) then ret tt
  else
    match fuel with
    | O => outOfFuel
    | S k =>
        WTimer_redistTimer lst v now ;;
        na <- deref nxt ;;
        xn <- rd na ;;
        redistLst_loop k lst nxt (next xn) now
    end.

(** [func (wt *WTimer) redistLst(lst *timerLst, now Ticks)] *)
Definition WTimer_redistLst (fuel : nat) (lst : lstRef) (now : Ticks)
  : M unit :=
  h <- rd (AHead lst) ;;
  let s := next h in
  sa <- deref s ;;
  xs <- rd sa ;;
  redistLst_loop fuel lst s (next xs) now ;;
  e <- timerLst_isEmpty lst ;;
  when (negb e) (BUG "lst not empty after redistTimer").

(** [func (wt *WTimer) redistTimers(now Ticks)] *)
Definition WTimer_redistTimers (fuel : nat) (now : Ticks) : M unit :=
  let t := Ticks_Val now in
  let idx0 := wheel0Pos t in
  when (idx0 =? 0)
    (let idx1 := wheel1Pos t in
     when (idx1 =? 0)
       (let idx2 := wheel2Pos t in
        when (idx2 =? 0)
          (let idx3 := wheel3Pos t in
           l3 <- wheelLst 3 idx3 ;;
           WTimer_redistLst fuel l3 now) ;;
        l2 <- wheelLst 2 idx2 ;;
        WTimer_redistLst fuel l2 now) ;;
     l1 <- wheelLst 1 idx1 ;;
     WTimer_redistLst fuel l1 now) ;;
  l0 <- wheelLst 0 idx0 ;;
  timerLst_mv fuel l0 Lexpired ;;
  ret tt.

(** [func (wt *WTimer) afterRunUnsafe(t *TimerLnk, rearm bool,
    delta time.Duration) bool] *)
Definition WTimer_afterRunUnsafe (t : ptr) (rearm : bool) (delta : Z)
  : M bool :=
  if rearm then
    ta <- deref t ;;
    x <- rd ta ;;
    if Z.land (tInfo_flags (info x)) fDelete =? 0 then
      wr ta (fun x => set_info (tInfo_resetFlags (info x) fRunning) x) ;;
      when (negb (delta =? Periodic)) (wr ta (set_intvl delta)) ;;
      now <- rdWt WTimer_Now ;;
      r <- WTimer_addUnsafe ta now ;;
      match r with
      | Some _ =>
          PANIC "addUnsafe failed" ;;
          setFlags_at ta fRemoved ;;
          ret false
      | None => ret true
      end
    else
      let '(w, i) := tInfo_wheelPos (info x) in
      when (negb (w =? wheelNone)) (PANIC "expected wheel to be none") ;;
      wr ta (fun x => set_info (tInfo_chgFlags (info x) fRemoved fRunning) x) ;;
      ret false
  else ret false.

(** [t.f(wt, t, t.arg)]: the callback runs on the state of the user's
    program, and the invocation is recorded. *)
Definition call_handler (t : addr) : M (bool * Z) :=
  x <- rd t ;;
  match f x with
  | None => panic NilDeref
  | Some fn =>
      fun w =>
        let '(u', r) := fn t (arg x) (user w) in
        Ok r (set_calls (t :: calls w) (set_user u' w))
  end.

(** [go func() { ... }()] for an [FgoR] timer: the goroutine is started;
    when it runs is not decided here. *)
Definition spawn_handler (t : addr) : M unit :=
  fun w => Ok tt (set_spawned (t :: spawned w) w).

(** The non-blocking sends of [processExpired] on [wt.rQch], a channel of
    capacity [runQueuesWorkersNo*4] that nobody reads from meanwhile. *)
Fixpoint runq_signal (cnt : nat) : M unit :=
  match cnt with
  | O => ret tt
  | S k =>
      ch <- rdWt rQch ;;
      match ch with
      | Some n =>
          if n <? runQueuesWorkersNo * 4
          then wrWt (set_rQch (Some (n + 1))) ;; runq_signal k
          else ret tt
      | None => ret tt
      end
  end.

(** The loop of [processExpired], [for !lst.isEmpty() { ... }]; the result
    is [rQadded]. *)
Fixpoint processExpired_loop (fuel : nat) (rQadded : Z) : M Z :=
  e <- timerLst_isEmpty Lexpired ;;
  if e then ret rQadded
  else
    match fuel with
    | O => outOfFuel
    | S k =>
        h <- rd (AHead Lexpired) ;;
        let t := next h in
        timerLst_rm Lexpired t ;;
        ta <- deref t ;;
        wr ta (set_next None) ;;
        wr ta (set_prev None) ;;
        x <- rd ta ;;
        let flags := tInfo_flags (info x) in
        if negb (Z.land flags Ffast =? 0) then
          wrWt (set_running t) ;;
          wr ta (fun x => set_rctx (tInfo_setWheel (rctx x) wheelExp wheelNoIdx) x) ;;
          setFlags_at ta fRunning ;;
          WTimer_unlock ;;
          '(rearm, delta) <- call_handler ta ;;
          let t' := if rearm then t else None in
          WTimer_lock ;;
          WTimer_afterRunUnsafe t' rearm delta ;;
          wrWt (set_running None) ;;
          processExpired_loop k rQadded
        else if negb (Z.land flags FgoR =? 0) then
          setFlags_at ta fRunning ;;
          wr ta (fun x => set_rctx (tInfo_setWheel (rctx x) wheelNone wheelNoIdx) x) ;;
          WTimer_unlock ;;
          wrWt (fun s => set_wg (wg s + 1) s) ;;
          spawn_handler ta ;;
          WTimer_lock ;;
          processExpired_loop k rQadded
        else
          rqPos <- rdWt rQhead ;;
          let idx := rqPos mod runQueuesNo in
          rQlock_Lock idx ;;
          q <- rQidx idx ;;
          timerLst_append (LrQs q) ta ;;
          rQlock_Unlock idx ;;
          wrWt (fun s => if rQhead s =? rqPos
                         then set_rQhead (u32 (rqPos + 1)) s else s) ;;
          processExpired_loop k (rQadded + 1)
    end.

(** [func (wt *WTimer) processExpired(now Ticks)] *)
Definition WTimer_processExpired (fuel : nat) (now : Ticks) : M unit :=
  rQadded <- processExpired_loop fuel 0 ;;
  when (negb (rQadded =? 0))
    (WTimer_unlock ;;
     let sigsNo :=
       if rQadded >? runQueuesWorkersNo then runQueuesWorkersNo
       else rQadded in
     runq_signal (Z.to_nat sigsNo) ;;
     WTimer_lock).

(** [func (wt *WTimer) run(now Ticks)] *)
Definition WTimer_run (fuel : nat) (now : Ticks) : M unit :=
  WTimer_lock ;;
  WTimer_redistTimers fuel now ;;
  WTimer_processExpired fuel now ;;
  WTimer_unlock.

(** The loop of [advanceTimeTo]:
    [for wt.Now().NE(t) { wt.incTime(); wt.run(wt.Now()) }] *)
Fixpoint advanceTimeTo_loop (fuel : nat) (t : Ticks) : M unit :=
  now <- rdWt WTimer_Now ;;
  if Ticks_NE now t then
    match fuel with
    | O => outOfFuel
    | S k =>
        WTimer_incTime ;;
        now <- rdWt WTimer_Now ;;
        WTimer_run fuel now ;;
        advanceTimeTo_loop k t
    end
  else ret tt.

(** [func (wt *WTimer) advanceTimeTo(t Ticks)] *)
Definition WTimer_advanceTimeTo (fuel : nat) (t : Ticks) : M unit :=
  now <- rdWt WTimer_Now ;;
  when (Ticks_GT now t) (BUG "advancing too many ticks") ;;
  advanceTimeTo_loop fuel t.

(** [func (wt *WTimer) ticker() uint64] (wtimer_ticker.go) *)
Definition WTimer_ticker (fuel : nat) : M Z :=
  now <- timestamp_Now ;;
  s <- rdWt (fun s => s) ;;
  if now <? lastTickT s then
    wrWt (fun s => set_badTime (u32 (badTime s + 1)) s) ;;
    s <- rdWt (fun s => s) ;;
    when (badTime s >? 10)
      (wrWt (set_lastTickT now) ;;
       wrWt (fun s => set_refTS (lastTickT s) s) ;;
       wrWt (fun s => set_refTicks (WTimer_Now s) s)) ;;
    ret 0
  else
    wrWt (set_badTime 0) ;;
    when (tickDuration s =? 0) (panic DivideByZero) ;;
    when (Z.quot (i64 (now - refTS s)) (tickDuration s) >? MaxTicksDiff - 2)
      (s <- rdWt (fun s => s) ;;
       let '(diff, _) := WTimer_Ticks s (i64 (now - lastTickT s)) in
       wrWt (fun s => set_refTS (lastTickT s) s) ;;
       wrWt (fun s => set_refTicks (Ticks_Sub (WTimer_Now s) diff) s)) ;;
    s <- rdWt (fun s => s) ;;
    let diff := i64 (now - lastTickT s) in
    if diff <? tickDuration s then ret 0
    else
      let '(ticks, rest) := WTimer_Ticks s diff in
      wrWt (set_lastTickT (now + - rest)) ;;
      s <- rdWt (fun s => s) ;;
      WTimer_advanceTimeTo fuel (Ticks_Add (WTimer_Now s) ticks) ;;
      ret (Ticks_Val ticks).

End Scheduler.

Arguments Ok {U Arg A} a w.
Arguments Panic {U Arg A} p.
Arguments OutOfFuel {U Arg A}.

Notation "x <- c1 ;; c2" := (bind c1 (fun x => c2))
  (at level 61, c1 at next level, right associativity).
Notation "' pat <- c1 ;; c2" := (bind c1 (fun x => match x with pat => c2 end))
  (at level 61, pat pattern, c1 at next level, right associativity).
Notation "c1 ;; c2" := (bind c1 (fun _ => c2))
  (at level 61, right associativity).

(** ** Vocabulary of the specification *)

(** The three fields of the information word: flags, wheel number, index
    inside the wheel. *)
Definition flagsOf (t : tInfo) : Z := (Z.shiftr (atomicV t) 24) mod 2 ^ 8.
Definition wheelOf (t : tInfo) : Z := (Z.shiftr (atomicV t) 16) mod 2 ^ 8.
Definition idxOf (t : tInfo) : Z := atomicV t mod 2 ^ 16.

(** A program that has done nothing yet: the zero scheduler, zero timer
    handles, a counter as the state of the user's program. *)
Definition world0 : @World nat unit :=
  mkWorld WTimer_zero (fun _ => TimerLnk_zero) 0%nat 0 [] [] [].

(** The tick engine over a run of clock samples: [ticker] is called once
    for every sample, in order. *)
Fixpoint ticker_samples {U Arg : Type} (fuel : nat) (samples : list Z)
  : @M U Arg unit :=
  match samples with
  | [] => ret tt
  | ts :: rest =>
      (fun w => Ok tt (set_wallClock ts w)) ;;
      WTimer_ticker fuel ;;
      ticker_samples fuel rest
  end.

(** The scheduler without its lists: what no store to a [TimerLnk]
    changes. *)
Definition ctl {U Arg : Type} (s : @WTimer U Arg) : @WTimer U Arg :=
  set_rQs (mkarr timerLst_zero)
    (set_expired timerLst_zero (set_wlists (mkarr timerLst_zero) s)).

(** The wheel number and index a list was initialised with. *)
Definition lstTag {U Arg : Type} (l : lstRef) (w : @World U Arg) : Z * Z :=
  (wheelNo (lst_of l (wt w)), wheelIdx (lst_of l (wt w))).

(** [frame mods w w']: from [w] to [w'] only the [TimerLnk] structures at
    the addresses [mods] may have changed (and the messages to [BUG] and
    [PANIC]). *)
Definition frame {U Arg : Type} (mods : list addr) (w w' : @World U Arg)
  : Prop :=
  (forall a, ~ In a mods -> load a w' = load a w) /\
  (forall l, lstTag l w' = lstTag l w) /\
  ctl (wt w') = ctl (wt w) /\
  user w' = user w /\ wallClock w' = wallClock w /\
  calls w' = calls w /\ spawned w' = spawned w.

(** Where the window of wheel [k] starts in [wt.wlists], and the number of
    index bits of wheel [k]. *)
Definition wheelOff (k : Z) : Z :=
  if k =? 0 then 0
  else if k =? 1 then W0Entries
  else if k =? 2 then W0Entries + W1Entries
  else W0Entries + W1Entries + W2Entries.

Definition wheelBits (k : Z) : Z :=
  if k =? 0 then W0Bits
  else if k =? 1 then W1Bits
  else if k =? 2 then W2Bits
  else W3Bits.

(** The wheels are set up as [Init] leaves them: wheel [k] is number [k]
    and owns [wheelEntries[k]] lists from [wheelOff k] on. *)
Definition wheels_ready {U Arg : Type} (s : @WTimer U Arg) : Prop :=
  forall k n, wheelEntries k = Some n ->
              aget (wheels s) k = mkWheel k (wheelOff k) n.

(** A list as [timerLst.init(n, i)] leaves it: empty, tagged [(n, i)], its
    head flagged [fHead]. *)
Definition lst_initialised {U Arg : Type} (l : lstRef) (n i : Z)
  (w : @World U Arg) : Prop :=
  let t := lst_of l (wt w) in
  next (head t) = Some (AHead l) /\ prev (head t) = Some (AHead l) /\
  wheelNo t = n /\ wheelIdx t = i /\
  Z.land (tInfo_flags (info (head t))) fHead = fHead /\
  tInfo_wheelPos (info (head t)) = (n, i).

(** A scheduler right after a successful [Init]: every list of every
    wheel, the expired list and the run queues are initialised. *)
Definition initialised {U Arg : Type} (w : @World U Arg) : Prop :=
  wheels_ready (wt w) /\
  (forall k n idx, wheelEntries k = Some n -> 0 <= idx < n ->
                   lst_initialised (Lwlists (wheelOff k + idx)) k idx w) /\
  lst_initialised Lexpired wheelExp wheelNoIdx w /\
  (forall i, 0 <= i < runQueuesNo -> lst_initialised (LrQs i) wheelRQ i w) /\
  rQch (wt w) = Some 0.

(** [only_lists P w w']: from [w] to [w'] only the lists [l] with [P l]
    may have changed. *)
Definition only_lists {U Arg : Type} (P : lstRef -> Prop)
  (w w' : @World U Arg) : Prop :=
  (forall l, ~ P l -> lst_of l (wt w') = lst_of l (wt w)) /\
  ctl (wt w') = ctl (wt w) /\ w' = set_wt (wt w') w.

(** The [Delete] flag of a timer structure, as [del] tests it. *)
Definition delBit {U Arg : Type} (x : @TimerLnk U Arg) : Z :=
  Z.land (tInfo_flags (info x)) fDelete.

(** A computation that leaves the [Delete] flag of every timer structure
    as it found it, whenever it returns. *)
Definition keeps_delete {U Arg A : Type} (c : @M U Arg A) : Prop :=
  forall w r w', c w = Ok r w' ->
                 forall a, delBit (load a w') = delBit (load a w).
(** [removed_from tl p n flags w w']: from [w] to [w'] the timer [tl],
    which had the flags [flags] and sat between [p] and [n] on a list, was
    taken off that list: its links are nil, its position is
    [(wheelNone, wheelNoIdx)], it has [fRemoved] besides its old flags, and
    [p] and [n] are linked to each other; no other structure changed. *)
Definition removed_from {U Arg : Type} (tl p n : addr) (flags : Z)
  (w w' : @World U Arg) : Prop :=
  next (load tl w') = None /\ prev (load tl w') = None /\
  TimerLnk_Detached tl (load tl w') = true /\
  tInfo_wheelPos (info (load tl w')) = (wheelNone, wheelNoIdx) /\
  tInfo_flags (info (load tl w')) = Z.lor flags fRemoved /\
  next (load p w') = Some n /\ prev (load n w') = Some p /\
  (forall a, a <> tl -> a <> p -> a <> n -> load a w' = load a w).
(** [waiting_on wheel idx flags w]: the position [(wheel, idx)] names a
    list of the scheduler [del] can take a timer from: a slot of a wheel,
    the expired list, or a run queue whose lock is free; on the last two
    the timer's callback must not be running. *)
Definition waiting_on {U Arg : Type} (wheel idx flags : Z) (w : @World U Arg)
  : Prop :=
  (0 <= wheel < WheelsNo /\
   0 <= idx < lsts_len (aget (wheels (wt w)) wheel)) \/
  (wheel = wheelExp /\ Z.land flags fRunning = 0) \/
  (wheel = wheelRQ /\ Z.land flags fRunning = 0 /\
   0 <= idx < runQueuesNo /\ aget (rQlocks (wt w)) idx = false).
(** The world a computation leaves, for examples on concrete worlds. *)
Definition run_on {U Arg A : Type} (c : @M U Arg A) (w : @World U Arg)
  : @World U Arg :=
  match c w with Ok _ w' => w' | _ => w end.

(** A timer handle, initialised with [Ffast], in the state in which
    [processExpired] leaves it while its callback runs: active, running,
    off every list. *)
Definition world_running : @World nat unit :=
  run_on (WTimer_InitTimer (ATimer 0) Ffast ;;
          setFlags_at (ATimer 0) (Z.lor fActive fRunning)) world0.

(** An active timer as the only entry of the expired list. *)
Definition world_expiring : @World nat unit :=
  run_on (timerLst_init Lexpired wheelExp wheelNoIdx ;;
          WTimer_InitTimer (ATimer 0) 0 ;;
          setFlags_at (ATimer 0) fActive ;;
          timerLst_append Lexpired (ATimer 0)) world0.

(** [func (lst *timerLst) insert(e *TimerLnk)] (timer_lst.go), [e] not
    nil *)
Definition timerLst_insert {U Arg : Type} (lst : lstRef) (e : addr)
  : @M U Arg unit :=
  d <- isDetached e ;;
  when (negb d) (PANIC "timerLst insert called on an entry not detached") ;;
  wr e (set_prev (Some (AHead lst))) ;;
  h <- rd (AHead lst) ;;
  wr e (set_next (next h)) ;;
  x <- rd e ;;
  n <- deref (next x) ;;
  wr n (set_prev (Some e)) ;;
  wr (AHead lst) (set_next (Some e)) ;;
  x <- rd e ;;
  let '(w, idx) := tInfo_wheelPos (info x) in
  when (negb (w =? wheelNone) || negb (idx =? wheelNoIdx))
    (PANIC "timerLst insert called on an entry already on a diff. list") ;;
  l <- rdLst lst ;;
  wr e (fun x => set_info (tInfo_setWheel (info x) (wheelNo l) (wheelIdx l)) x).
(** An initialised expired list and an initialised timer handle that was
    never added. *)
Definition world_listed : @World nat unit :=
  run_on (timerLst_init Lexpired wheelExp wheelNoIdx ;;
          WTimer_InitTimer (ATimer 0) 0) world0.

(** The list a wheel position names: a slot of one of the wheels, or the
    expired list. *)
Definition slotLst (wh idx : Z) : lstRef :=
  if wh =? wheelExp then Lexpired else Lwlists (wheelOff wh + idx).

(** A small scheduler for examples: the four wheels are set up as [Init]
    sets them up, of the lists only slot 5 of wheel 0 and the expired list
    are initialised, the clock is at tick 0, and the timer handle 0 is
    initialised as a fast timer. *)
Definition world_wheels : @World nat unit :=
  run_on (wrWt (set_wheels
                  (upd (upd (upd (upd (wheels (wt world0))
                     0 (mkWheel 0 (wheelOff 0) 16384))
                     1 (mkWheel 1 (wheelOff 1) 16384))
                     2 (mkWheel 2 (wheelOff 2) 1024))
                     3 (mkWheel 3 (wheelOff 3) 1024))) ;;
          timerLst_init (Lwlists 5) 0 5 ;;
          timerLst_init Lexpired wheelExp wheelNoIdx ;;
          WTimer_InitTimer (ATimer 0) Ffast) world0.

(** A callback that counts its invocations and does not rearm. *)
Definition count_once : @TimerHandlerF nat unit :=
  fun _ _ u => (S u, (false, 0)).

(** A list without entries: its head is linked to itself. *)
Definition lst_empty {U Arg : Type} (l : lstRef) (w : @World U Arg) : Prop :=
  next (load (AHead l) w) = Some (AHead l) /\
  prev (load (AHead l) w) = Some (AHead l).

(** The lists of the wheels, with their positions. *)
Definition wheel_slot (l : lstRef) (k idx : Z) : Prop :=
  exists n, wheelEntries k = Some n /\ 0 <= idx < n /\
            l = Lwlists (wheelOff k + idx).

(** A scheduler that is set up and holds no timer that waits for its
    tick: the wheels are ready and every list of every wheel and the
    expired list are empty. *)
Definition quiet {U Arg : Type} (w : @World U Arg) : Prop :=
  wheels_ready (wt w) /\
  (forall l k idx, wheel_slot l k idx -> lst_empty l w) /\
  lst_empty Lexpired w.

(** The list [del] takes a timer at position [(wheel, idx)] from:
    [&wt.wheels[wheel].lsts[idx]], [&wt.expired] or [&wt.rQs[idx]]. *)
Definition delLst {U Arg : Type} (wheel idx : Z) (w : @World U Arg)
  : lstRef :=
  if wheel <? WheelsNo
  then Lwlists (lsts_off (aget (wheels (wt w)) wheel) + idx)
  else if wheel =? wheelExp then Lexpired else LrQs idx.

(** A computation that leaves the count of backward clock samples as it
    found it, whenever it returns. *)
Definition keeps_badTime {U Arg A : Type} (c : @M U Arg A) : Prop :=
  forall w r w', c w = Ok r w' -> badTime (wt w') = badTime (wt w).

(* ===================================================================== *)
(** * Verification *)

(** ** Bit-level facts *)

Lemma TicksMask_ones : TicksMask = Z.ones 48.
Proof. reflexivity. Qed.

Lemma MaxTicksDiff_pow2 : MaxTicksDiff = 2 ^ 47.
Proof. reflexivity. Qed.

Lemma land_TicksMask (x : Z) : Z.land x TicksMask = x mod 2 ^ 48.
Proof. rewrite TicksMask_ones. apply Z.land_ones. lia. Qed.

(** Masking with a single bit tests that bit. *)
Lemma land_pow2_eqb (x n : Z) :
  0 <= n -> (Z.land x (2 ^ n) =? 0) = negb (Z.testbit x n).
Proof.
  intros Hn.
  assert (E : Z.land x (2 ^ n) = if Z.testbit x n then 2 ^ n else 0).
  { apply Z.bits_inj'. intros m Hm.
    rewrite Z.land_spec, Z.pow2_bits_eqb by lia.
    destruct (Z.eqb_spec n m) as [->|Hne].
    - destruct (Z.testbit x m) eqn:E1.
      + rewrite Z.pow2_bits_true; auto.
      + now rewrite Z.bits_0.
    - rewrite andb_false_r.
      destruct (Z.testbit x n).
      + rewrite Z.pow2_bits_false; auto.
      + now rewrite Z.bits_0. }
  rewrite E. destruct (Z.testbit x n); [|reflexivity].
  apply Z.eqb_neq. pose proof (Z.pow_pos_nonneg 2 n). lia.
Qed.

(** The top bit of a [TicksBits]-bit number. *)
Lemma testbit_47 (z : Z) :
  0 <= z < 2 ^ 48 -> Z.testbit z 47 = (2 ^ 47 <=? z).
Proof.
  intros Hz.
  assert (E : Z.b2z (Z.testbit z 47) = (z / 2 ^ 47) mod 2)
    by (apply Z.testbit_spec'; lia).
  destruct (Z.leb_spec (2 ^ 47) z) as [H|H].
  - assert (z / 2 ^ 47 = 1) by (symmetry; apply (Z.div_unique z (2^47) 1 (z - 2^47)); lia).
    rewrite H0 in E. destruct (Z.testbit z 47); [reflexivity|discriminate].
  - rewrite Z.div_small in E by lia.
    destruct (Z.testbit z 47); [discriminate|reflexivity].
Qed.

Lemma Ticks_Val_mod (a : Ticks) : Ticks_Val a = v a mod 2 ^ 48.
Proof. apply land_TicksMask. Qed.

Lemma Ticks_Val_range (a : Ticks) : 0 <= Ticks_Val a < 2 ^ 48.
Proof. rewrite Ticks_Val_mod. apply Z.mod_pos_bound. lia. Qed.

Lemma u64_mod48 (x : Z) : u64 x mod 2 ^ 48 = x mod 2 ^ 48.
Proof.
  unfold u64. apply Z.mod_mod_divide.
  exists (2 ^ 16). reflexivity.
Qed.

(** [LT] reads the sign bit of the [TicksBits]-bit difference. *)
Lemma Ticks_LT_sign (a b : Ticks) :
  Ticks_LT a b = (MaxTicksDiff <=? (v a - v b) mod 2 ^ TicksBits).
Proof.
  unfold Ticks_LT. rewrite MaxTicksDiff_pow2, land_pow2_eqb, negb_involutive by lia.
  change TicksBits with 48.
  rewrite <- testbit_47 by (apply Z.mod_pos_bound; lia).
  unfold u64. rewrite !Z.mod_pow2_bits_low by lia. reflexivity.
Qed.

Lemma Ticks_GE_sign (a b : Ticks) : Ticks_GE a b = negb (Ticks_LT a b).
Proof. unfold Ticks_GE, Ticks_LT. now rewrite negb_involutive. Qed.

Lemma Ticks_EQ_mod (a b : Ticks) :
  Ticks_EQ a b = ((v a - v b) mod 2 ^ TicksBits =? 0).
Proof.
  unfold Ticks_EQ. rewrite land_TicksMask, u64_mod48. reflexivity.
Qed.

(** The difference of the stored values, reduced, is the difference of the
    canonical values, reduced. *)
Lemma diff_mod_Val (a b : Ticks) :
  (v a - v b) mod 2 ^ TicksBits
  = (Ticks_Val a - Ticks_Val b) mod 2 ^ TicksBits.
Proof.
  rewrite !Ticks_Val_mod. change TicksBits with 48.
  now rewrite <- Zminus_mod.
Qed.

(** C3. Tick values whose canonical values are less than [MaxTicksDiff]
    apart compare with [LT], [EQ], [NE], [LE], [GT] and [GE] as their
    canonical values compare as unsigned numbers; for any two tick values,
    [a.LT(b)] holds exactly when [(a - b) mod 2^TicksBits] has its top bit
    set, that is, is at least [2^(TicksBits-1)]. *)
Theorem ticks_compare_native (a b : Ticks) :
  (Z.abs (Ticks_Val a - Ticks_Val b) < MaxTicksDiff ->
   Ticks_LT a b = (Ticks_Val a <? Ticks_Val b) /\
   Ticks_EQ a b = (Ticks_Val a =? Ticks_Val b) /\
   Ticks_NE a b = negb (Ticks_Val a =? Ticks_Val b) /\
   Ticks_LE a b = (Ticks_Val a <=? Ticks_Val b) /\
   Ticks_GT a b = (Ticks_Val a >? Ticks_Val b) /\
   Ticks_GE a b = (Ticks_Val a >=? Ticks_Val b)) /\
  Ticks_LT a b = Z.testbit ((v a - v b) mod 2 ^ TicksBits) (TicksBits - 1) /\
  (Ticks_LT a b = true <->
   2 ^ (TicksBits - 1) <= (v a - v b) mod 2 ^ TicksBits).
Proof.
  assert (Hsign := Ticks_LT_sign a b).
  split; [|split].
  - intros Hclose.
    assert (Hlt : Ticks_LT a b = (Ticks_Val a <? Ticks_Val b)).
    { rewrite Hsign, diff_mod_Val.
      rewrite MaxTicksDiff_pow2 in *. change TicksBits with 48.
      pose proof (Ticks_Val_range a) as Ha.
      pose proof (Ticks_Val_range b) as Hb.
      destruct (Z.ltb_spec (Ticks_Val a) (Ticks_Val b)) as [L|L].
      - replace ((Ticks_Val a - Ticks_Val b) mod 2 ^ 48)
          with (Ticks_Val a - Ticks_Val b + 2 ^ 48).
        + apply Z.leb_le. lia.
        + apply (Z.mod_unique_pos _ _ (-1)); lia.
      - rewrite Z.mod_small by lia. apply Z.leb_gt. lia. }
    assert (Heq : Ticks_EQ a b = (Ticks_Val a =? Ticks_Val b)).
    { rewrite Ticks_EQ_mod, diff_mod_Val. change TicksBits with 48.
      pose proof (Ticks_Val_range a) as Ha.
      pose proof (Ticks_Val_range b) as Hb.
      destruct (Z.eqb_spec (Ticks_Val a) (Ticks_Val b)) as [E|E].
      - rewrite E, Z.sub_diag. reflexivity.
      - apply Z.eqb_neq. intros H0.
        apply Z.mod_divide in H0; [|lia]. destruct H0 as [k Hk].
        rewrite MaxTicksDiff_pow2 in Hclose. lia. }
    unfold Ticks_NE, Ticks_LE, Ticks_GT. rewrite Ticks_GE_sign.
    unfold Ticks_NE. rewrite Hlt, Heq.
    repeat split; try reflexivity.
    + destruct (Z.ltb_spec (Ticks_Val a) (Ticks_Val b));
        destruct (Z.eqb_spec (Ticks_Val a) (Ticks_Val b));
        destruct (Z.leb_spec (Ticks_Val a) (Ticks_Val b)); simpl; lia || reflexivity.
    + rewrite Z.gtb_ltb.
      destruct (Z.ltb_spec (Ticks_Val a) (Ticks_Val b));
        destruct (Z.eqb_spec (Ticks_Val a) (Ticks_Val b));
        destruct (Z.ltb_spec (Ticks_Val b) (Ticks_Val a)); simpl; lia || reflexivity.
    + rewrite Z.geb_leb.
      destruct (Z.ltb_spec (Ticks_Val a) (Ticks_Val b));
        destruct (Z.leb_spec (Ticks_Val b) (Ticks_Val a)); simpl; lia || reflexivity.
  - rewrite Hsign, MaxTicksDiff_pow2. change TicksBits with 48.
    symmetry. apply testbit_47. apply Z.mod_pos_bound. lia.
  - rewrite Hsign, MaxTicksDiff_pow2. change (TicksBits - 1) with 47.
    apply Z.leb_le.
Qed.

Lemma ticks_compare_native_witness :
  Z.abs (Ticks_Val (NewTicks 5) - Ticks_Val (NewTicks 9)) < MaxTicksDiff /\
  Ticks_LT (NewTicks 5) (NewTicks 9)
  = (Ticks_Val (NewTicks 5) <? Ticks_Val (NewTicks 9)).
Proof.
  assert (H : Z.abs (Ticks_Val (NewTicks 5) - Ticks_Val (NewTicks 9))
              < MaxTicksDiff) by (vm_compute; reflexivity).
  split; [exact H|].
  exact (proj1 (proj1 (ticks_compare_native (NewTicks 5) (NewTicks 9)) H)).
Defined.

(** ** Placement on the wheels *)

Lemma u16_small (x : Z) : 0 <= x < 2 ^ 16 -> u16 x = x.
Proof. intros H. unfold u16. apply Z.mod_small. exact H. Qed.

Lemma wheel0Pos_mod (t : Z) : wheel0Pos t = t mod 2 ^ 14.
Proof. unfold wheel0Pos. change W0Mask with (Z.ones 14). apply Z.land_ones. lia. Qed.

Lemma wheel1Pos_mod (t : Z) : wheel1Pos t = (t / 2 ^ 14) mod 2 ^ 14.
Proof.
  unfold wheel1Pos. change W1Mask with (Z.ones 14). change W0Bits with 14.
  rewrite Z.land_ones, Z.shiftr_div_pow2 by lia. reflexivity.
Qed.

Lemma wheel2Pos_mod (t : Z) : wheel2Pos t = (t / 2 ^ 28) mod 2 ^ 10.
Proof.
  unfold wheel2Pos. change W2Mask with (Z.ones 10).
  change (W0Bits + W1Bits) with 28.
  rewrite Z.land_ones, Z.shiftr_div_pow2 by lia. reflexivity.
Qed.

Lemma wheel3Pos_mod (t : Z) : wheel3Pos t = (t / 2 ^ 38) mod 2 ^ 10.
Proof.
  unfold wheel3Pos. change W3Mask with (Z.ones 10).
  change (W0Bits + W1Bits + W2Bits) with 38.
  rewrite Z.land_ones, Z.shiftr_div_pow2 by lia. reflexivity.
Qed.

Lemma wheel0Pos_range (t : Z) : 0 <= wheel0Pos t < 2 ^ 14.
Proof. rewrite wheel0Pos_mod. apply Z.mod_pos_bound. lia. Qed.

Lemma wheel1Pos_range (t : Z) : 0 <= wheel1Pos t < 2 ^ 14.
Proof. rewrite wheel1Pos_mod. apply Z.mod_pos_bound. lia. Qed.

Lemma wheel2Pos_range (t : Z) : 0 <= wheel2Pos t < 2 ^ 10.
Proof. rewrite wheel2Pos_mod. apply Z.mod_pos_bound. lia. Qed.

Lemma wheel3Pos_range (t : Z) : 0 <= wheel3Pos t < 2 ^ 10.
Proof. rewrite wheel3Pos_mod. apply Z.mod_pos_bound. lia. Qed.

Lemma u16_wheel0Pos (t : Z) : u16 (wheel0Pos t) = wheel0Pos t.
Proof. apply u16_small. pose proof (wheel0Pos_range t). lia. Qed.

Lemma u16_wheel1Pos (t : Z) : u16 (wheel1Pos t) = wheel1Pos t.
Proof. apply u16_small. pose proof (wheel1Pos_range t). lia. Qed.

Lemma u16_wheel2Pos (t : Z) : u16 (wheel2Pos t) = wheel2Pos t.
Proof. apply u16_small. pose proof (wheel2Pos_range t). lia. Qed.

Lemma u16_wheel3Pos (t : Z) : u16 (wheel3Pos t) = wheel3Pos t.
Proof. apply u16_small. pose proof (wheel3Pos_range t). lia. Qed.

(** The tick distance [exp.Sub(now).Val()] is the difference of the
    canonical values modulo [2^TicksBits]. *)
Lemma Ticks_Val_Sub (a b : Ticks) :
  Ticks_Val (Ticks_Sub a b)
  = (Ticks_Val a - Ticks_Val b) mod 2 ^ TicksBits.
Proof.
  unfold Ticks_Sub, Ticks_Val at 1. cbn [v].
  rewrite !land_TicksMask, Z.mod_mod, u64_mod48 by lia.
  apply diff_mod_Val.
Qed.

(** [getWheelPos] as a function of the tick distance. *)
Lemma getWheelPos_cases (exp now : Ticks) :
  getWheelPos exp now =
  let delta := Ticks_Val (Ticks_Sub exp now) in
  let e := Ticks_Val exp in
  if delta =? 0 then (wheelExp, wheelNoIdx)
  else if delta <? 2 ^ 14 then (0, wheel0Pos e)
  else if delta <? 2 ^ 28 then (1, wheel1Pos e)
  else if delta <? 2 ^ 38 then (2, wheel2Pos e)
  else (3, wheel3Pos e).
Proof.
  unfold getWheelPos. cbv zeta.
  change W0Entries with (2 ^ 14).
  change (2 ^ 14 * W1Entries) with (2 ^ 28).
  change (2 ^ 28 * W2Entries) with (2 ^ 38).
  rewrite u16_wheel0Pos, u16_wheel1Pos, u16_wheel2Pos, u16_wheel3Pos.
  set (delta := Ticks_Val (Ticks_Sub exp now)).
  destruct (Z.eqb_spec delta 0) as [E|E].
  - rewrite E. reflexivity.
  - destruct (Z.ltb_spec delta (2 ^ 14)); [reflexivity|].
    destruct (Z.ltb_spec delta (2 ^ 28)); [reflexivity|].
    destruct (Z.ltb_spec delta (2 ^ 38)); reflexivity.
Qed.

(** C2. With [delta] the tick distance from [now] to [exp], modulo
    [2^TicksBits], [getWheelPos] answers the expired list when [delta] is
    0, wheel 0 at slot [exp & W0Mask] when [0 < delta < 2^W0Bits], wheel 1
    at slot [(exp >> W0Bits) & W1Mask] when [delta] is below
    [2^(W0Bits+W1Bits)], wheel 2 at slot [(exp >> (W0Bits+W1Bits)) &
    W2Mask] when it is below [2^(W0Bits+W1Bits+W2Bits)], and wheel 3 at
    slot [(exp >> (W0Bits+W1Bits+W2Bits)) & W3Mask] otherwise. *)
Theorem getWheelPos_placement (exp now : Ticks) :
  let delta := Ticks_Val (Ticks_Sub exp now) in
  let e := Ticks_Val exp in
  delta = (Ticks_Val exp - Ticks_Val now) mod 2 ^ TicksBits /\
  (delta = 0 -> getWheelPos exp now = (wheelExp, wheelNoIdx)) /\
  (0 < delta < 2 ^ W0Bits ->
   getWheelPos exp now = (0, Z.land e W0Mask)) /\
  (2 ^ W0Bits <= delta < 2 ^ (W0Bits + W1Bits) ->
   getWheelPos exp now = (1, Z.land (Z.shiftr e W0Bits) W1Mask)) /\
  (2 ^ (W0Bits + W1Bits) <= delta < 2 ^ (W0Bits + W1Bits + W2Bits) ->
   getWheelPos exp now = (2, Z.land (Z.shiftr e (W0Bits + W1Bits)) W2Mask)) /\
  (2 ^ (W0Bits + W1Bits + W2Bits) <= delta ->
   getWheelPos exp now
   = (3, Z.land (Z.shiftr e (W0Bits + W1Bits + W2Bits)) W3Mask)).
Proof.
  cbv zeta. rewrite getWheelPos_cases. cbv zeta.
  change (2 ^ W0Bits) with (2 ^ 14).
  change (2 ^ (W0Bits + W1Bits)) with (2 ^ 28).
  change (2 ^ (W0Bits + W1Bits + W2Bits)) with (2 ^ 38).
  fold (wheel0Pos (Ticks_Val exp)) (wheel1Pos (Ticks_Val exp))
       (wheel2Pos (Ticks_Val exp)) (wheel3Pos (Ticks_Val exp)).
  set (delta := Ticks_Val (Ticks_Sub exp now)).
  split; [apply Ticks_Val_Sub|].
  destruct (Z.eqb_spec delta 0); destruct (Z.ltb_spec delta (2 ^ 14));
    destruct (Z.ltb_spec delta (2 ^ 28)); destruct (Z.ltb_spec delta (2 ^ 38));
    repeat split; intros; try reflexivity; lia.
Qed.

Lemma getWheelPos_placement_witness :
  2 ^ W0Bits <= Ticks_Val (Ticks_Sub (NewTicks 70000) (NewTicks 100))
             < 2 ^ (W0Bits + W1Bits) /\
  getWheelPos (NewTicks 70000) (NewTicks 100) = (1, 4).
Proof.
  assert (H : 2 ^ W0Bits <= Ticks_Val (Ticks_Sub (NewTicks 70000) (NewTicks 100))
                         < 2 ^ (W0Bits + W1Bits))
    by (vm_compute; split; [discriminate | reflexivity]).
  split; [exact H|].
  exact (proj1 (proj2 (proj2 (proj2
    (getWheelPos_placement (NewTicks 70000) (NewTicks 100))))) H).
Defined.

(** ** Durations and ticks *)

Lemma i64_small (x : Z) : MinInt64 <= x <= MaxInt64 -> i64 x = x.
Proof.
  unfold MinInt64, MaxInt64, i64. intros H.
  rewrite Z.mod_small by lia. lia.
Qed.

Lemma u64_small (x : Z) : 0 <= x < 2 ^ 64 -> u64 x = x.
Proof. intros H. unfold u64. now apply Z.mod_small. Qed.

Lemma Ticks_Val_NewTicks (x : Z) : Ticks_Val (NewTicks x) = x mod 2 ^ 48.
Proof.
  unfold Ticks_Val, NewTicks. cbn [v].
  rewrite !land_TicksMask. apply Z.mod_mod. lia.
Qed.

Lemma NewTicks_mod (x : Z) : NewTicks x = mkTicks (x mod 2 ^ 48).
Proof. unfold NewTicks. now rewrite land_TicksMask. Qed.

Lemma Ticks_Val_AddUint64 (t : Ticks) (u : Z) :
  Ticks_Val (Ticks_AddUint64 t u) = (v t + u) mod 2 ^ 48.
Proof.
  unfold Ticks_Val, Ticks_AddUint64. cbn [v].
  rewrite !land_TicksMask, Z.mod_mod, u64_mod48 by lia. reflexivity.
Qed.

(** [wt.Ticks(d)] for a duration that is not negative. *)
Lemma WTimer_Ticks_nonneg {U Arg : Type} (s : @WTimer U Arg) (d : Z) :
  0 < tickDuration s -> 0 <= d <= MaxInt64 ->
  WTimer_Ticks s d
  = (mkTicks ((d / tickDuration s) mod 2 ^ 48), d mod tickDuration s).
Proof.
  intros Htd Hd. unfold WTimer_Ticks.
  destruct (Z.eqb_spec (tickDuration s) 0) as [E|_]; [lia|]. cbn [negb].
  rewrite Z.quot_div_nonneg, Z.rem_mod_nonneg by lia.
  assert (0 <= d / tickDuration s <= d).
  { split; [apply Z.div_pos; lia|]. apply Z.div_le_upper_bound; nia. }
  unfold MaxInt64 in *.
  rewrite i64_small by (unfold MinInt64, MaxInt64; lia).
  rewrite u64_small by lia.
  now rewrite NewTicks_mod.
Qed.

(** C4, as the code has it. For a duration [d] that is not negative and a
    valid tick duration [td], let [q] be the whole ticks in [d] as a tick
    value ([d / td] modulo [2^TicksBits]) and [r] the remainder.
    [TicksRoundUp(d)] is 1 tick when [q] is 0 (so for every zero or
    sub-tick duration), [q + 1] (as a tick value) when [r] is at least half
    a tick with the half rounded down to whole nanoseconds
    ([50*td/100]), and [q] otherwise. *)
Theorem TicksRoundUp_rounding {U Arg : Type} (s : @WTimer U Arg) (d : Z) :
  Microsecond <= tickDuration s <= Hour * 24 ->
  0 <= d <= MaxInt64 ->
  let td := tickDuration s in
  let q := (d / td) mod 2 ^ TicksBits in
  let r := d mod td in
  WTimer_Ticks s d = (mkTicks q, r) /\
  Ticks_Val (WTimer_TicksRoundUp s d)
  = (if q =? 0 then 1
     else if 50 * td / 100 <=? r then (q + 1) mod 2 ^ TicksBits
     else q) /\
  (d < td -> Ticks_Val (WTimer_TicksRoundUp s d) = 1).
Proof.
  intros Htd Hd. cbv zeta. change TicksBits with 48.
  unfold Microsecond, Hour in Htd.
  assert (Hq : 0 <= (d / tickDuration s) mod 2 ^ 48 < 2 ^ 48)
    by (apply Z.mod_pos_bound; lia).
  assert (HT := WTimer_Ticks_nonneg s d ltac:(lia) Hd).
  assert (Hmain : Ticks_Val (WTimer_TicksRoundUp s d)
    = (if (d / tickDuration s) mod 2 ^ 48 =? 0 then 1
       else if 50 * tickDuration s / 100 <=? d mod tickDuration s
            then ((d / tickDuration s) mod 2 ^ 48 + 1) mod 2 ^ 48
            else (d / tickDuration s) mod 2 ^ 48)).
  { assert (HV : Ticks_Val (mkTicks ((d / tickDuration s) mod 2 ^ 48))
                 = (d / tickDuration s) mod 2 ^ 48).
    { unfold Ticks_Val. cbn [v]. rewrite land_TicksMask.
      now apply Z.mod_small. }
    unfold WTimer_TicksRoundUp. rewrite HT.
    rewrite i64_small by (unfold MinInt64, MaxInt64; lia).
    rewrite Z.quot_div_nonneg by lia.
    rewrite Z.geb_leb, HV.
    destruct (Z.eqb_spec ((d / tickDuration s) mod 2 ^ 48) 0) as [E|E].
    - cbn [orb]. rewrite Ticks_Val_AddUint64. cbn [v]. rewrite E. reflexivity.
    - cbn [orb].
      destruct (Z.leb_spec (50 * tickDuration s / 100) (d mod tickDuration s)).
      + rewrite Ticks_Val_AddUint64. reflexivity.
      + exact HV. }
  split; [exact HT|]. split; [exact Hmain|].
  intros Hlt. rewrite Hmain, Z.div_small by lia. reflexivity.
Qed.

Lemma TicksRoundUp_rounding_witness :
  let s : @WTimer unit unit := set_tickDuration 1000000 WTimer_zero in
  (Microsecond <= tickDuration s <= Hour * 24) /\
  (0 <= 2500000 <= MaxInt64) /\
  Ticks_Val (WTimer_TicksRoundUp s 2500000) = 3.
Proof.
  cbv zeta.
  assert (H1 : Microsecond
               <= tickDuration (set_tickDuration (U:=unit) (Arg:=unit) 1000000 WTimer_zero)
               <= Hour * 24)
    by (vm_compute; split; discriminate).
  assert (H2 : 0 <= 2500000 <= MaxInt64) by (vm_compute; split; discriminate).
  split; [exact H1|]. split; [exact H2|].
  exact (proj1 (proj2 (TicksRoundUp_rounding
    (set_tickDuration (U:=unit) (Arg:=unit) 1000000 WTimer_zero) 2500000 H1 H2))).
Defined.

(** C4 as the specification words it fails for a tick duration that is an
    odd number of nanoseconds: with ticks of 1001 ns, 1501 ns are one whole
    tick and a remainder of 500 ns, which is less than 50 % of a tick
    ([2 * 500 < 1001]), and still [TicksRoundUp] answers 2 ticks and not
    the rounded-down count of 1. *)
Lemma TicksRoundUp_below_half_rounds_up :
  let s : @WTimer unit unit := set_tickDuration 1001 WTimer_zero in
  (Microsecond <= tickDuration s <= Hour * 24) /\
  WTimer_Ticks s 1501 = (mkTicks 1, 500) /\
  2 * 500 < tickDuration s /\
  Ticks_Val (WTimer_TicksRoundUp s 1501) = 2 /\
  Ticks_Val (WTimer_TicksRoundUp s 1501) <> Ticks_Val (fst (WTimer_Ticks s 1501)).
Proof.
  cbv zeta. vm_compute. repeat split; discriminate.
Qed.

(** C8, as the code has it. For a tick duration above zero and a tick value
    [t] whose duration [Val(t) * tickDuration] fits the 64-bit
    [time.Duration], [Ticks(Duration(t))] is [t] again (the tick value with
    the canonical value of [t], equal to [t] by [EQ]) with remainder 0. *)
Theorem Ticks_Duration_roundtrip {U Arg : Type} (s : @WTimer U Arg)
  (t : Ticks) :
  0 < tickDuration s ->
  Ticks_Val t * tickDuration s <= MaxInt64 ->
  WTimer_Ticks s (WTimer_Duration s t) = (mkTicks (Ticks_Val t), 0) /\
  Ticks_EQ (fst (WTimer_Ticks s (WTimer_Duration s t))) t = true.
Proof.
  intros Htd Hfit.
  pose proof (Ticks_Val_range t) as Hv.
  assert (HD : WTimer_Duration s t = Ticks_Val t * tickDuration s).
  { unfold WTimer_Duration.
    rewrite (i64_small (Ticks_Val t)) by (unfold MinInt64, MaxInt64; lia).
    apply i64_small. unfold MinInt64. nia. }
  assert (HT : WTimer_Ticks s (WTimer_Duration s t)
               = (mkTicks (Ticks_Val t), 0)).
  { rewrite HD, WTimer_Ticks_nonneg by nia.
    rewrite Z.div_mul, Z.mod_mul by lia.
    now rewrite Z.mod_small by lia. }
  split; [exact HT|].
  rewrite HT. cbn [fst].
  rewrite Ticks_EQ_mod, diff_mod_Val.
  unfold Ticks_Val at 1. cbn [v]. rewrite land_TicksMask.
  rewrite (Z.mod_small (Ticks_Val t)) by lia.
  now rewrite Z.sub_diag.
Qed.

Lemma Ticks_Duration_roundtrip_witness :
  let s : @WTimer unit unit := set_tickDuration 1000000 WTimer_zero in
  0 < tickDuration s /\
  Ticks_Val (NewTicks 123456) * tickDuration s <= MaxInt64 /\
  WTimer_Ticks s (WTimer_Duration s (NewTicks 123456)) = (mkTicks 123456, 0).
Proof.
  cbv zeta.
  assert (H1 : 0 < tickDuration (set_tickDuration (U:=unit) (Arg:=unit) 1000000 WTimer_zero))
    by reflexivity.
  assert (H2 : Ticks_Val (NewTicks 123456)
               * tickDuration (set_tickDuration (U:=unit) (Arg:=unit) 1000000 WTimer_zero)
               <= MaxInt64)
    by (vm_compute; discriminate).
  split; [exact H1|]. split; [exact H2|].
  exact (proj1 (Ticks_Duration_roundtrip
    (set_tickDuration (U:=unit) (Arg:=unit) 1000000 WTimer_zero) (NewTicks 123456) H1 H2)).
Defined.

(** C8 as the specification words it fails when the duration does not fit:
    with ticks of 1 ms, the duration of [2^44] ticks wraps around in the
    64-bit [time.Duration] to a negative number, and converting it back
    gives another tick value, with a remainder that is not 0. *)
Lemma Ticks_Duration_overflow :
  let s : @WTimer unit unit := set_tickDuration 1000000 WTimer_zero in
  let t := NewTicks (2 ^ 44) in
  (Microsecond <= tickDuration s <= Hour * 24) /\
  WTimer_Duration s t = -854558029293551616 /\
  WTimer_Ticks s (WTimer_Duration s t) = (mkTicks 280620418681363, -551616) /\
  Ticks_EQ (fst (WTimer_Ticks s (WTimer_Duration s t))) t = false.
Proof.
  cbv zeta. vm_compute. repeat split; discriminate.
Qed.

(** ** The timer information word *)

(** Equality of two numbers bit by bit, for the shifts and masks of
    [tInfo]; the bit index is split at the field borders 8, 16, 24, 32. *)
Ltac bit_ranges i :=
  assert (i < 8 \/ 8 <= i < 16 \/ 16 <= i < 24 \/ 24 <= i < 32 \/ 32 <= i)
    as [?|[?|[?|[?|?]]]] by lia.

Ltac bit_step :=
  first
    [ rewrite Z.lor_spec | rewrite Z.land_spec
    | rewrite Z.testbit_mod_pow2 by lia
    | rewrite Z.shiftl_spec by lia
    | rewrite Z.shiftr_spec by lia
    | rewrite Z.lnot_spec by lia
    | rewrite Z.testbit_ones by lia
    | rewrite Z.testbit_0_l ].

Ltac bit_cmp :=
  repeat match goal with
    | |- context [?a <? ?b] => destruct (Z.ltb_spec a b); try lia
    | |- context [?a <=? ?b] => destruct (Z.leb_spec a b); try lia
    end.

Ltac bit_idx :=
  repeat match goal with
    | |- context [Z.testbit ?x ?j] =>
        first [ rewrite (Z.testbit_neg_r x j) by lia
              | progress ring_simplify j ]
    end.

Ltac bit_bool :=
  cbn [andb orb negb];
  repeat match goal with
    | |- context [Z.testbit ?x ?j] => destruct (Z.testbit x j)
    end;
  cbn [andb orb negb]; try reflexivity.

Ltac bitblast :=
  let i := fresh "i" in
  let Hi := fresh "Hi" in
  apply Z.bits_inj'; intros i Hi; unfold not32, not8; unfold u8, u16, u32;
  repeat bit_step; bit_ranges i; bit_cmp; bit_idx; bit_bool.

Lemma land_255 (x : Z) : Z.land x 255 = x mod 2 ^ 8.
Proof. change 255 with (Z.ones 8). apply Z.land_ones. lia. Qed.

Lemma land_65535 (x : Z) : Z.land x 65535 = x mod 2 ^ 16.
Proof. change 65535 with (Z.ones 16). apply Z.land_ones. lia. Qed.

Lemma getAll_fields (t : tInfo) :
  tInfo_getAll t = (flagsOf t, wheelOf t, idxOf t).
Proof.
  unfold tInfo_getAll, flagsOf, wheelOf, idxOf, wNoMask, wIdxMask, flgsBpos, wNoBpos, u8, u16.
  rewrite land_255, land_65535, !Z.mod_mod by lia. reflexivity.
Qed.

Lemma flags_fields (t : tInfo) : tInfo_flags t = flagsOf t.
Proof. unfold tInfo_flags. now rewrite getAll_fields. Qed.

Lemma wheelPos_fields (t : tInfo) : tInfo_wheelPos t = (wheelOf t, idxOf t).
Proof.
  unfold tInfo_wheelPos. rewrite getAll_fields.
  unfold wheelOf, idxOf, u8, u16. now rewrite !Z.mod_mod by lia.
Qed.

Lemma flagsOf_range (t : tInfo) : 0 <= flagsOf t < 2 ^ 8.
Proof. apply Z.mod_pos_bound. lia. Qed.

Lemma flagsOf_setFlags (t : tInfo) (m : Z) :
  flagsOf (tInfo_setFlags t m) = Z.lor (flagsOf t) (u8 m).
Proof.
  unfold flagsOf, tInfo_setFlags, flgsBpos. cbn [atomicV]. bitblast.
Qed.

Lemma wheelOf_setFlags (t : tInfo) (m : Z) :
  wheelOf (tInfo_setFlags t m) = wheelOf t.
Proof.
  unfold wheelOf, tInfo_setFlags, flgsBpos. cbn [atomicV]. bitblast.
Qed.

Lemma idxOf_setFlags (t : tInfo) (m : Z) :
  idxOf (tInfo_setFlags t m) = idxOf t.
Proof.
  unfold idxOf, tInfo_setFlags, flgsBpos. cbn [atomicV]. bitblast.
Qed.

Lemma flagsOf_resetFlags (t : tInfo) (m : Z) :
  flagsOf (tInfo_resetFlags t m) = Z.land (flagsOf t) (not8 m).
Proof.
  unfold flagsOf, tInfo_resetFlags, flgsBpos. cbn [atomicV]. bitblast.
Qed.

Lemma wheelOf_resetFlags (t : tInfo) (m : Z) :
  wheelOf (tInfo_resetFlags t m) = wheelOf t.
Proof.
  unfold wheelOf, tInfo_resetFlags, flgsBpos. cbn [atomicV]. bitblast.
Qed.

Lemma idxOf_resetFlags (t : tInfo) (m : Z) :
  idxOf (tInfo_resetFlags t m) = idxOf t.
Proof.
  unfold idxOf, tInfo_resetFlags, flgsBpos. cbn [atomicV]. bitblast.
Qed.

Lemma flagsOf_chgFlags (t : tInfo) (sm rm : Z) :
  flagsOf (tInfo_chgFlags t sm rm)
  = Z.lor (Z.land (flagsOf t) (not8 rm)) (u8 sm).
Proof.
  unfold flagsOf, tInfo_chgFlags, flgsBpos. cbn [atomicV]. bitblast.
Qed.

Lemma wheelOf_chgFlags (t : tInfo) (sm rm : Z) :
  wheelOf (tInfo_chgFlags t sm rm) = wheelOf t.
Proof.
  unfold wheelOf, tInfo_chgFlags, flgsBpos. cbn [atomicV]. bitblast.
Qed.

Lemma idxOf_chgFlags (t : tInfo) (sm rm : Z) :
  idxOf (tInfo_chgFlags t sm rm) = idxOf t.
Proof.
  unfold idxOf, tInfo_chgFlags, flgsBpos. cbn [atomicV]. bitblast.
Qed.

Lemma flagsOf_setWheel (t : tInfo) (w idx : Z) :
  0 <= w < 2 ^ 8 -> 0 <= idx < 2 ^ 16 ->
  flagsOf (tInfo_setWheel t w idx) = flagsOf t.
Proof.
  intros Hw Hidx.
  unfold flagsOf, tInfo_setWheel, wNoBpos, wNoMask, wIdxMask. cbn [atomicV].
  replace idx with (idx mod 2 ^ 16) by (now apply Z.mod_small).
  replace w with (w mod 2 ^ 8) by (now apply Z.mod_small).
  change 255 with (Z.ones 8). change 65535 with (Z.ones 16).
  bitblast.
Qed.

Lemma wheelOf_setWheel (t : tInfo) (w idx : Z) :
  0 <= idx < 2 ^ 16 -> wheelOf (tInfo_setWheel t w idx) = u8 w.
Proof.
  intros Hidx.
  unfold wheelOf, tInfo_setWheel, wNoBpos, wNoMask, wIdxMask. cbn [atomicV].
  replace idx with (idx mod 2 ^ 16) by (now apply Z.mod_small).
  change 255 with (Z.ones 8). change 65535 with (Z.ones 16).
  bitblast.
Qed.

Lemma idxOf_setWheel (t : tInfo) (w idx : Z) :
  idxOf (tInfo_setWheel t w idx) = u16 idx.
Proof.
  unfold idxOf, tInfo_setWheel, wNoBpos, wNoMask, wIdxMask. cbn [atomicV].
  change 255 with (Z.ones 8). change 65535 with (Z.ones 16).
  bitblast.
Qed.

(** ** Arrays and memory *)

Lemma Zkey_inj (i j : Z) : Zkey i = Zkey j -> i = j.
Proof. destruct i, j; cbn; intros H; congruence. Qed.

Lemma aget_upd_eq {A : Type} (a : arr A) (i : Z) (x : A) :
  aget (upd a i x) i = x.
Proof. unfold aget, upd. cbn. now rewrite PositiveMap.gss. Qed.

Lemma aget_upd_ne {A : Type} (a : arr A) (i j : Z) (x : A) :
  i <> j -> aget (upd a i x) j = aget a j.
Proof.
  intros H. unfold aget, upd. cbn.
  rewrite PositiveMap.gso; [reflexivity|].
  intros E. apply H. symmetry. now apply Zkey_inj.
Qed.

Lemma aget_mkarr {A : Type} (z : A) (i : Z) : aget (mkarr z) i = z.
Proof. unfold aget, mkarr. cbn. now rewrite PositiveMap.gempty. Qed.

Section Memory.
Context {U Arg : Type}.
Implicit Types (w : @World U Arg) (s : @WTimer U Arg) (x : @TimerLnk U Arg).

Lemma lst_of_set_lst_eq l (t : timerLst) s : lst_of l (set_lst l t s) = t.
Proof. destruct l; cbn; auto using aget_upd_eq. Qed.

Lemma lst_of_set_lst_ne l l' (t : timerLst) s :
  l <> l' -> lst_of l' (set_lst l t s) = lst_of l' s.
Proof.
  intros H. destruct l, l'; cbn; try reflexivity; try congruence;
    apply aget_upd_ne; congruence.
Qed.

Lemma load_store_eq a x w : load a (store a x w) = x.
Proof.
  destruct a as [l|n]; cbn.
  - now rewrite lst_of_set_lst_eq.
  - now rewrite Nat.eqb_refl.
Qed.

Lemma load_store_ne a b x w : a <> b -> load b (store a x w) = load b w.
Proof.
  intros H. destruct a as [l|n], b as [l'|n']; cbn; try reflexivity.
  - rewrite lst_of_set_lst_ne by congruence. reflexivity.
  - destruct (Nat.eqb_spec n' n); [congruence|reflexivity].
Qed.

Lemma load_store a b x w :
  load b (store a x w) = if addr_eq_dec a b then x else load b w.
Proof.
  destruct (addr_eq_dec a b) as [->|H].
  - apply load_store_eq.
  - now apply load_store_ne.
Qed.

End Memory.

(** ** Reset *)

Lemma fInternalMask_ones : fInternalMask = Z.ones 5.
Proof. reflexivity. Qed.

(** What [chgFlags(flags & ^fInternalMask, fInternalMask)] leaves in the
    flags field: no internal flag, and the user flags of before together
    with the new ones. *)
Lemma Reset_flag_bits (f flags : Z) :
  0 <= f < 2 ^ 8 -> 0 <= flags < 2 ^ 8 ->
  let f' := Z.lor (Z.land f (not8 fInternalMask))
                  (u8 (Z.land flags (not8 fInternalMask))) in
  Z.land f' fInternalMask = 0 /\
  Z.land f' (not8 fInternalMask)
  = Z.lor (Z.land f (not8 fInternalMask)) (Z.land flags (not8 fInternalMask)) /\
  f' = Z.lor (Z.land f (not8 fInternalMask)) (Z.land flags (not8 fInternalMask)).
Proof.
  intros Hf Hfl. cbv zeta. rewrite fInternalMask_ones.
  replace f with (f mod 2 ^ 8) by (now apply Z.mod_small).
  replace flags with (flags mod 2 ^ 8) by (now apply Z.mod_small).
  repeat split; bitblast.
Qed.

Section Reset.
Context {U Arg : Type}.
Implicit Types (w : @World U Arg).

(** C7, as the code has it. [Reset(tl, flags)] answers [ErrActiveTimer] on
    a timer that is active and not removed, otherwise [ErrInvalidTimer] on
    a timer with a link that is not nil, and otherwise succeeds; after a
    successful [Reset] the timer has none of the internal flags and its
    user flags are those it had before together with
    [flags & ^fInternalMask]: the old user flags are kept, not replaced.
    They are exactly [flags & ^fInternalMask] when the timer had no user
    flag before. *)
Theorem Reset_sets_user_flags (tl : addr) (flags : Z) w :
  0 <= flags < 2 ^ 8 ->
  let x := load tl w in
  let f := tInfo_flags (info x) in
  let active := negb (Z.land f fActive =? 0) && (Z.land f fRemoved =? 0) in
  let linked := negb (is_nil (next x)) || negb (is_nil (prev x)) in
  (active = true -> WTimer_Reset tl flags w = Ok (Some ErrActiveTimer) w) /\
  (active = false -> linked = true ->
   WTimer_Reset tl flags w = Ok (Some ErrInvalidTimer) w) /\
  (active = false -> linked = false ->
   exists w',
     WTimer_Reset tl flags w = Ok None w' /\
     let x' := load tl w' in
     let f' := tInfo_flags (info x') in
     Z.land f' fInternalMask = 0 /\
     Z.land f' (not8 fInternalMask)
     = Z.lor (Z.land f (not8 fInternalMask))
             (Z.land flags (not8 fInternalMask)) /\
     (Z.land f (not8 fInternalMask) = 0 ->
      f' = Z.land flags (not8 fInternalMask)) /\
     tInfo_wheelPos (info x') = tInfo_wheelPos (info x) /\
     next x' = next x /\ prev x' = prev x).
Proof.
  intros Hfl. cbv zeta.
  unfold WTimer_Reset, bind, rd, wr, ret.
  destruct (negb (Z.land (tInfo_flags (info (load tl w))) fActive =? 0)
            && (Z.land (tInfo_flags (info (load tl w))) fRemoved =? 0)) eqn:Ea.
  { repeat split; intros; try reflexivity; discriminate. }
  destruct (negb (is_nil (next (load tl w)))
            || negb (is_nil (prev (load tl w)))) eqn:El.
  { repeat split; intros; try reflexivity; discriminate. }
  split; [discriminate|]. split; [discriminate|]. intros _ _.
  eexists. split; [reflexivity|].
  rewrite load_store_eq. cbn [info next prev set_info].
  rewrite !flags_fields, !wheelPos_fields, flagsOf_chgFlags,
    wheelOf_chgFlags, idxOf_chgFlags.
  destruct (Reset_flag_bits (flagsOf (info (load tl w))) flags
              (flagsOf_range _) Hfl) as (H1 & H2 & H3).
  repeat split; try assumption.
  intros H0. rewrite flags_fields in H0. rewrite H3, H0. apply Z.lor_0_l.
Qed.

End Reset.

Lemma Reset_sets_user_flags_witness :
  exists w',
    WTimer_Reset (ATimer 0) FgoR world0 = Ok None w' /\
    tInfo_flags (info (load (ATimer 0) w')) = Z.land FgoR (not8 fInternalMask).
Proof.
  assert (Hfl : 0 <= FgoR < 2 ^ 8) by (vm_compute; split; [discriminate|reflexivity]).
  destruct (proj2 (proj2 (Reset_sets_user_flags (ATimer 0) FgoR world0 Hfl))
              eq_refl eq_refl) as (w' & HR & _ & _ & H3 & _).
  exists w'. split; [exact HR|]. apply H3. reflexivity.
Defined.

(** C7 as the specification words it fails on a timer that has a user flag
    already: a handle is initialised with the user flag [Ffast] and then
    reset with flags 0; both calls succeed and the timer still has [Ffast],
    where [0 & ^fInternalMask] is 0. *)
Lemma Reset_keeps_old_user_flags :
  exists w1 w2,
    WTimer_InitTimer (ATimer 0) Ffast world0 = Ok None w1 /\
    WTimer_Reset (ATimer 0) 0 w1 = Ok None w2 /\
    tInfo_flags (info (load (ATimer 0) w2)) = Ffast /\
    tInfo_flags (info (load (ATimer 0) w2)) <> Z.land 0 (not8 fInternalMask).
Proof.
  eexists. eexists.
  split; [vm_compute; reflexivity|].
  split; [vm_compute; reflexivity|].
  split; [reflexivity|]. vm_compute. discriminate.
Qed.

(** ** The tick engine when time goes backwards *)

Section Ticker.
Context {U Arg : Type}.
Implicit Types (w : @World U Arg).

(** One call of [ticker] on a clock sample earlier than [lastTickT]. *)
Lemma ticker_backwards_step (fuel : nat) w :
  wallClock w < lastTickT (wt w) ->
  let bad := u32 (badTime (wt w) + 1) in
  WTimer_ticker fuel w
  = Ok 0 (if bad >? 10
          then set_wt (set_refTicks (WTimer_Now (wt w))
                        (set_refTS (wallClock w)
                          (set_lastTickT (wallClock w)
                            (set_badTime bad (wt w))))) w
          else set_wt (set_badTime bad (wt w)) w).
Proof.
  intros Hback. cbv zeta.
  unfold WTimer_ticker, bind, timestamp_Now, rdWt, wrWt, when, ret.
  apply Z.ltb_lt in Hback. rewrite Hback. cbn.
  destruct (u32 (badTime (wt w) + 1) >? 10); reflexivity.
Qed.

End Ticker.

(** ** Frames *)

Section Frames.
Context {U Arg : Type}.
Implicit Types (w : @World U Arg) (s : @WTimer U Arg) (x : @TimerLnk U Arg).

Lemma ctl_set_lst l (t : timerLst) s : ctl (set_lst l t s) = ctl s.
Proof. destruct l; reflexivity. Qed.

Lemma ctl_store a x w : ctl (wt (store a x w)) = ctl (wt w).
Proof. destruct a as [l|n]; cbn; [apply ctl_set_lst | reflexivity]. Qed.

Lemma lstTag_store a x w l : lstTag l (store a x w) = lstTag l w.
Proof.
  unfold lstTag. destruct a as [l0|n]; cbn; [|reflexivity].
  destruct (lstRef_eq_dec l0 l) as [->|H].
  - now rewrite lst_of_set_lst_eq.
  - now rewrite lst_of_set_lst_ne.
Qed.

Lemma frame_refl mods w : frame mods w w.
Proof. unfold frame. repeat split; reflexivity. Qed.

Lemma frame_trans m1 m2 w1 w2 w3 :
  frame m1 w1 w2 -> frame m2 w2 w3 -> frame (m1 ++ m2) w1 w3.
Proof.
  intros (A1 & B1 & C1 & D1 & E1 & F1 & G1) (A2 & B2 & C2 & D2 & E2 & F2 & G2).
  unfold frame. split; [|repeat split; try congruence].
  intros a Ha. rewrite A2, A1; auto; intros Hin; apply Ha, in_or_app; auto.
Qed.

Lemma frame_incl m1 m2 w w' : incl m1 m2 -> frame m1 w w' -> frame m2 w w'.
Proof.
  intros Hi (A & R). split; [|exact R].
  intros a Ha. apply A. intros Hin. apply Ha, Hi, Hin.
Qed.

Lemma frame_store mods a x w : In a mods -> frame mods w (store a x w).
Proof.
  intros Hin. unfold frame. repeat split.
  - intros b Hb. apply load_store_ne. intros ->. contradiction.
  - intros l. apply lstTag_store.
  - apply ctl_store.
  - destruct a as [l|n]; reflexivity.
  - destruct a as [l|n]; reflexivity.
  - destruct a as [l|n]; reflexivity.
  - destruct a as [l|n]; reflexivity.
Qed.

Lemma frame_store_r mods a x w w' :
  In a mods -> frame mods w w' -> frame mods w (store a x w').
Proof.
  intros Hin H.
  apply (frame_incl (mods ++ mods)).
  - intros b Hb. apply in_app_or in Hb. tauto.
  - eapply frame_trans; [exact H|]. now apply frame_store.
Qed.

Lemma faults_store a x w : faults (store a x w) = faults w.
Proof. destruct a; reflexivity. Qed.

Lemma user_store a x w : user (store a x w) = user w.
Proof. destruct a; reflexivity. Qed.

Lemma calls_store a x w : calls (store a x w) = calls w.
Proof. destruct a; reflexivity. Qed.

Lemma spawned_store a x w : spawned (store a x w) = spawned w.
Proof. destruct a; reflexivity. Qed.

(** Fields of the scheduler that a frame keeps. *)
Lemma ctl_nowTicks s s' : ctl s' = ctl s -> nowTicks s' = nowTicks s.
Proof. intros H. exact (f_equal nowTicks H). Qed.

Lemma ctl_wheels s s' : ctl s' = ctl s -> wheels s' = wheels s.
Proof. intros H. exact (f_equal wheels H). Qed.

Lemma ctl_opLock s s' : ctl s' = ctl s -> opLock s' = opLock s.
Proof. intros H. exact (f_equal opLock H). Qed.

Lemma ctl_rQhead s s' : ctl s' = ctl s -> rQhead s' = rQhead s.
Proof. intros H. exact (f_equal rQhead H). Qed.

Lemma ctl_rQlocks s s' : ctl s' = ctl s -> rQlocks s' = rQlocks s.
Proof. intros H. exact (f_equal rQlocks H). Qed.

Lemma ctl_tickDuration s s' :
  ctl s' = ctl s -> tickDuration s' = tickDuration s.
Proof. intros H. exact (f_equal tickDuration H). Qed.

End Frames.

(** ** Running the list operations *)

Lemma ptr_eqb_refl (p : ptr) : ptr_eqb p p = true.
Proof. unfold ptr_eqb. destruct (ptr_eq_dec p p); congruence. Qed.

Lemma ptr_eqb_neq (p q : ptr) : p <> q -> ptr_eqb p q = false.
Proof. intros H. unfold ptr_eqb. destruct (ptr_eq_dec p q); congruence. Qed.

Lemma ptr_eqb_Some_neq (a b : addr) : a <> b -> ptr_eqb (Some a) (Some b) = false.
Proof. intros H. apply ptr_eqb_neq. congruence. Qed.

(** Unfolding of the monad's plumbing; conditions stay as they are. *)
Ltac mrun :=
  cbv beta iota delta
    [bind ret rd wr rdLst wrLst rdWt wrWt when isDetached setWheel_at
     setFlags_at timestamp_Now].

(** Loads from a chain of stores. *)
Ltac neq_addr :=
  solve [ assumption
        | congruence
        | intros ?; subst; congruence
        | apply not_eq_sym; assumption ].

Ltac mload :=
  repeat first
    [ rewrite load_store_eq
    | rewrite load_store_ne by neq_addr ].

(** Tags of lists read from a chain of stores. *)
Ltac mtag :=
  repeat match goal with
    | |- context [wheelNo (lst_of ?l (wt ?W))] =>
        change (wheelNo (lst_of l (wt W))) with (fst (lstTag l W))
    | |- context [wheelIdx (lst_of ?l (wt ?W))] =>
        change (wheelIdx (lst_of l (wt W))) with (snd (lstTag l W))
    end;
  rewrite ?lstTag_store.

Section ListOps.
Context {U Arg : Type}.
Implicit Types (w : @World U Arg) (x : @TimerLnk U Arg).

Lemma load_set_faults a (fl : list string) w :
  load a (set_faults fl w) = load a w.
Proof. destruct a; reflexivity. Qed.

Lemma lstTag_set_faults l (fl : list string) w :
  lstTag l (set_faults fl w) = lstTag l w.
Proof. reflexivity. Qed.

Lemma frame_set_faults_r mods (fl : list string) w w' :
  frame mods w w' -> frame mods w (set_faults fl w').
Proof.
  intros (A & B & C & D & E & F & G). unfold frame.
  repeat split; assumption.
Qed.

(** [append] to an empty list. *)
Lemma timerLst_append_empty (lst : lstRef) (e : addr) w :
  e <> AHead lst ->
  prev (load (AHead lst) w) = Some (AHead lst) ->
  TimerLnk_Detached e (load e w) = true ->
  tInfo_wheelPos (info (load e w)) = (wheelNone, wheelNoIdx) ->
  exists w',
    timerLst_append lst e w = Ok tt w' /\
    frame [e; AHead lst] w w' /\ faults w' = faults w /\
    load e w'
    = set_info (tInfo_setWheel (info (load e w))
                  (fst (lstTag lst w)) (snd (lstTag lst w)))
        (set_next (Some (AHead lst))
           (set_prev (Some (AHead lst)) (load e w))) /\
    load (AHead lst) w'
    = set_prev (Some e) (set_next (Some e) (load (AHead lst) w)).
Proof.
  intros He Hp Hd Hpos.
  unfold timerLst_append. mrun. rewrite Hd. cbn [negb]. mrun.
  rewrite Hp. mload. cbn [prev next set_prev set_next deref]. mrun.
  mload. cbn [info set_next set_prev]. rewrite Hpos.
  cbn [negb orb Z.eqb wheelNone wheelNoIdx].
  cbn [Pos.eqb negb orb]. mrun.
  eexists. split; [reflexivity|].
  split; [|split; [|split]].
  - repeat (apply frame_store_r; [cbn; tauto|]). apply frame_refl.
  - now rewrite !faults_store.
  - mload.
    match goal with
    | |- context [wheelNo (lst_of lst (wt ?W))] =>
        change (wheelNo (lst_of lst (wt W))) with (fst (lstTag lst W));
        change (wheelIdx (lst_of lst (wt W))) with (snd (lstTag lst W))
    end.
    rewrite !lstTag_store. reflexivity.
  - mload. reflexivity.
Qed.

(** [rm] of an entry that is linked between [p] and [n]. *)
Lemma timerLst_rm_spec (lst : lstRef) (a p n : addr) w :
  next (load a w) = Some n -> prev (load a w) = Some p ->
  n <> a -> p <> a ->
  exists w',
    timerLst_rm lst (Some a) w = Ok tt w' /\
    frame [a; p; n] w w' /\
    (tInfo_wheelPos (info (load a w)) = lstTag lst w ->
     faults w' = faults w) /\
    load a w'
    = set_info (tInfo_setWheel (info (load a w)) wheelNone wheelNoIdx)
        (set_prev (Some a) (set_next (Some a) (load a w))) /\
    load p w'
    = (if addr_eq_dec p n
       then set_prev (Some p) (set_next (Some n) (load p w))
       else set_next (Some n) (load p w)) /\
    load n w'
    = (if addr_eq_dec p n
       then set_prev (Some p) (set_next (Some n) (load p w))
       else set_prev (Some p) (load n w)).
Proof.
  intros Hn Hp Hna Hpa.
  unfold timerLst_rm. mrun. rewrite Hn, Hp.
  cbn [is_nil orb].
  rewrite !ptr_eqb_Some_neq by assumption. cbn [orb]. mrun.
  cbn [deref]. mrun. mload. rewrite Hn, Hp. cbn [deref]. mrun.
  mload. cbn [info set_next set_prev]. mtag.
  destruct (tInfo_wheelPos (info (load a w))) as [w0 idx] eqn:Epos.
  destruct (negb (w0 =? fst (lstTag lst w)) || negb (idx =? snd (lstTag lst w)))
    eqn:Etag.
  - (* the tag differs: a message is recorded *)
    unfold PANIC. mrun. rewrite !load_set_faults. mload.
    eexists. split; [reflexivity|].
    split; [|split; [|split; [|split]]].
    + apply frame_store_r; [cbn; tauto|]. apply frame_set_faults_r.
      repeat (apply frame_store_r; [cbn; tauto|]). apply frame_refl.
    + intros E. rewrite <- E in Etag. cbn [fst snd] in Etag.
      rewrite !Z.eqb_refl in Etag. discriminate.
    + mload. reflexivity.
    + destruct (addr_eq_dec p n) as [->|Hpn];
        mload; rewrite load_set_faults; mload; reflexivity.
    + destruct (addr_eq_dec p n) as [->|Hpn];
        mload; rewrite load_set_faults; mload; reflexivity.
  - mrun. mload.
    eexists. split; [reflexivity|].
    split; [|split; [|split; [|split]]].
    + repeat (apply frame_store_r; [cbn; tauto|]). apply frame_refl.
    + intros _. now rewrite !faults_store.
    + mload. reflexivity.
    + destruct (addr_eq_dec p n) as [->|Hpn]; mload; reflexivity.
    + destruct (addr_eq_dec p n) as [->|Hpn]; mload; reflexivity.
Qed.

End ListOps.

(** ** Init *)

(** Simplification of a field read from nested field updates. *)
Ltac wt_simpl :=
  cbn [opLock wheels wlists expired rQtail rQhead rQs rQlocks rQch running
       rQrunning tickDuration nowTicks lastTickT badTime refTS refTicks wg
       set_opLock set_wheels set_wlists set_expired set_rQtail set_rQhead
       set_rQs set_rQlocks set_rQch set_running set_rQrunning
       set_tickDuration set_nowTicks set_lastTickT set_badTime set_refTS
       set_refTicks set_wg ctl].

Ltac wt_simpl_in H :=
  cbn [opLock wheels wlists expired rQtail rQhead rQs rQlocks rQch running
       rQrunning tickDuration nowTicks lastTickT badTime refTS refTicks wg
       set_opLock set_wheels set_wlists set_expired set_rQtail set_rQhead
       set_rQs set_rQlocks set_rQch set_running set_rQrunning
       set_tickDuration set_nowTicks set_lastTickT set_badTime set_refTS
       set_refTicks set_wg ctl] in H.

Section InitProofs.
Context {U Arg : Type}.
Implicit Types (w : @World U Arg) (s : @WTimer U Arg) (x : @TimerLnk U Arg).

Lemma Lwlists_inj (i j : Z) : Lwlists i = Lwlists j -> i = j.
Proof. congruence. Qed.

Lemma only_lists_refl P w : only_lists P w w.
Proof. unfold only_lists. repeat split. destruct w; reflexivity. Qed.

Lemma only_lists_trans (P Q R : lstRef -> Prop) w1 w2 w3 :
  (forall l, P l -> R l) -> (forall l, Q l -> R l) ->
  only_lists P w1 w2 -> only_lists Q w2 w3 -> only_lists R w1 w3.
Proof.
  intros HP HQ (A1 & B1 & C1) (A2 & B2 & C2). unfold only_lists.
  repeat split.
  - intros l Hl. rewrite A2, A1; auto.
  - congruence.
  - rewrite C2, C1. reflexivity.
Qed.

Lemma timerLst_init_spec (l : lstRef) (n i : Z) w :
  0 <= n < 2 ^ 8 -> 0 <= i < 2 ^ 16 ->
  exists w',
    timerLst_init l n i w = Ok tt w' /\
    lst_initialised l n i w' /\
    only_lists (fun l' => l' = l) w w'.
Proof.
  intros Hn Hi. unfold timerLst_init, timerLst_forceEmpty. mrun.
  eexists. split; [reflexivity|]. split.
  - unfold lst_initialised. cbn [wt set_wt store load].
    rewrite !lst_of_set_lst_eq.
    cbn [head next prev wheelNo wheelIdx info set_head set_next set_prev
         set_info set_wheelNo set_wheelIdx].
    rewrite flags_fields, wheelPos_fields, flagsOf_setWheel,
      wheelOf_setWheel, idxOf_setWheel, flagsOf_setFlags by lia.
    repeat split.
    + change fHead with (Z.ones 1). bitblast.
    + unfold u8, u16. rewrite !Z.mod_small by lia. reflexivity.
  - unfold only_lists. cbn [wt set_wt store load].
    repeat split.
    + intros l' Hl'. rewrite !lst_of_set_lst_ne by congruence. reflexivity.
    + rewrite !ctl_set_lst. reflexivity.
Qed.


Lemma lst_initialised_eq (l : lstRef) (n i : Z) w w' :
  lst_of l (wt w') = lst_of l (wt w) ->
  lst_initialised l n i w -> lst_initialised l n i w'.
Proof. unfold lst_initialised. intros ->. auto. Qed.

Lemma wheelLst_ok (wheel idx off len : Z) w :
  0 <= wheel < WheelsNo ->
  aget (wheels (wt w)) wheel = mkWheel wheel off len ->
  0 <= idx < len ->
  wheelLst wheel idx w = Ok (Lwlists (off + idx)) w.
Proof.
  intros Hw Hwh Hidx. unfold wheelLst. rewrite Hwh. cbn [lsts_len lsts_off].
  destruct (Z.leb_spec 0 wheel); [|lia].
  destruct (Z.ltb_spec wheel WheelsNo); [|lia].
  destruct (Z.leb_spec 0 idx); [|lia].
  destruct (Z.ltb_spec idx len); [|lia].
  reflexivity.
Qed.

(** The loop of [wheel.init] over the lists [i .. len-1] of a wheel. *)
Lemma wheel_init_loop_spec (wheel off len : Z) :
  0 <= wheel < WheelsNo -> len <= 2 ^ 16 ->
  forall (cnt : nat) (i : Z) w,
    aget (wheels (wt w)) wheel = mkWheel wheel off len ->
    0 <= i -> i + Z.of_nat cnt = len ->
    exists w',
      wheel_init_loop wheel cnt i w = Ok tt w' /\
      (forall j, i <= j < len ->
                 lst_initialised (Lwlists (off + j)) wheel j w') /\
      only_lists (fun l => exists j, i <= j < len /\ l = Lwlists (off + j))
                 w w'.
Proof.
  intros Hw Hlen. induction cnt as [|k IH]; intros i w Hwh Hi Hcnt.
  - exists w. cbn. split; [reflexivity|]. split.
    + intros j Hj. lia.
    + apply only_lists_refl.
  - cbn [wheel_init_loop].
    unfold bind at 1. rewrite (wheelLst_ok wheel i off len) by (auto; lia).
    unfold bind at 1. unfold rdWt at 1. rewrite Hwh. cbn [no].
    unfold WheelsNo in Hw.
    destruct (timerLst_init_spec (Lwlists (off + i)) wheel (u16 i) w)
      as (w1 & Hrun & Hinit & Hfr); [lia | unfold u16; apply Z.mod_pos_bound; lia |].
    unfold bind at 1. rewrite Hrun.
    assert (Hwh1 : aget (wheels (wt w1)) wheel = mkWheel wheel off len).
    { destruct Hfr as (_ & Hc & _). now rewrite (ctl_wheels _ _ Hc). }
    destruct (IH (i + 1) w1 Hwh1) as (w2 & Hrun2 & Hinit2 & Hfr2); [lia|lia|].
    exists w2. split; [exact Hrun2|]. split.
    + intros j Hj.
      destruct (Z.eq_dec j i) as [->|Hne].
      * apply (lst_initialised_eq _ _ _ w1).
        -- apply Hfr2. intros (j' & Hj' & E). apply Lwlists_inj in E. lia.
        -- rewrite u16_small in Hinit by lia. exact Hinit.
      * apply Hinit2. lia.
    + eapply only_lists_trans; [| |exact Hfr|exact Hfr2].
      * intros l ->. exists i. split; [lia|reflexivity].
      * intros l (j & Hj & ->). exists j. split; [lia|reflexivity].
Qed.

Lemma wheel_init_spec (wheel off len : Z) w :
  0 <= wheel < WheelsNo -> 0 <= len <= 2 ^ 16 ->
  exists w',
    wheel_init wheel wheel off len w = Ok tt w' /\
    aget (wheels (wt w')) wheel = mkWheel wheel off len /\
    (forall k, k <> wheel -> aget (wheels (wt w')) k = aget (wheels (wt w)) k) /\
    (forall j, 0 <= j < len ->
               lst_initialised (Lwlists (off + j)) wheel j w') /\
    (forall l, ~ (exists j, 0 <= j < len /\ l = Lwlists (off + j)) ->
               lst_of l (wt w') = lst_of l (wt w)) /\
    set_wheels (wheels (wt w)) (ctl (wt w')) = ctl (wt w) /\
    w' = set_wt (wt w') w.
Proof.
  intros Hw Hlen. unfold wheel_init. unfold bind, wrWt at 1.
  set (w0 := set_wt (set_wheels (upd (wheels (wt w)) wheel (mkWheel wheel off len))
                       (wt w)) w).
  assert (Hwh0 : aget (wheels (wt w0)) wheel = mkWheel wheel off len)
    by (subst w0; cbn; apply aget_upd_eq).
  destruct (wheel_init_loop_spec wheel off len Hw (proj2 Hlen)
              (Z.to_nat len) 0 w0 Hwh0)
    as (w1 & Hrun & Hinit & Hl & Hc & Hw1); [lia|lia|].
  rewrite Hrun. exists w1. split; [reflexivity|].
  assert (Hwheels : wheels (wt w1) = wheels (wt w0)) by (now apply ctl_wheels).
  split; [now rewrite Hwheels|]. split.
  { intros k Hk. rewrite Hwheels. subst w0. cbn. now apply aget_upd_ne. }
  split; [exact Hinit|]. split.
  { intros l Hl'. rewrite Hl by exact Hl'. subst w0. reflexivity. }
  split.
  { rewrite Hc. subst w0. destruct w as [s ? ? ? ? ? ?]. destruct s. reflexivity. }
  rewrite Hw1. subst w0. reflexivity.
Qed.


Lemma wheelEntries_cases (k n : Z) :
  wheelEntries k = Some n ->
  (k = 0 /\ n = 16384) \/ (k = 1 /\ n = 16384) \/
  (k = 2 /\ n = 1024) \/ (k = 3 /\ n = 1024).
Proof.
  unfold wheelEntries.
  destruct (Z.eqb_spec k 0); [intros [= <-]; auto|].
  destruct (Z.eqb_spec k 1); [intros [= <-]; auto|].
  destruct (Z.eqb_spec k 2); [intros [= <-]; auto|].
  destruct (Z.eqb_spec k 3); [intros [= <-]; auto 6|].
  discriminate.
Qed.

(** The first loop of [Init]. *)
Lemma Init_wheels_spec w :
  exists w',
    Init_wheels (Z.to_nat WheelsNo) 0 0 w = Ok tt w' /\
    wheels_ready (wt w') /\
    (forall k n idx, wheelEntries k = Some n -> 0 <= idx < n ->
       lst_initialised (Lwlists (wheelOff k + idx)) k idx w') /\
    (forall l, (forall i, l <> Lwlists i) ->
       lst_of l (wt w') = lst_of l (wt w)) /\
    set_wheels (wheels (wt w)) (ctl (wt w')) = ctl (wt w) /\
    w' = set_wt (wt w') w.
Proof.
  change (Z.to_nat WheelsNo) with 4%nat. cbn [Init_wheels].
  change (wheelEntries 0) with (Some 16384).
  change (wheelEntries (0 + 1)) with (Some 16384).
  change (wheelEntries (0 + 1 + 1)) with (Some 1024).
  change (wheelEntries (0 + 1 + 1 + 1)) with (Some 1024).
  cbn iota.
  change ((0 <=? 0) && (0 + 16384 <=? wTotalEntries)) with true.
  change ((0 <=? 0 + 16384) && (0 + 16384 + 16384 <=? wTotalEntries)) with true.
  change ((0 <=? 0 + 16384 + 16384)
          && (0 + 16384 + 16384 + 1024 <=? wTotalEntries)) with true.
  change ((0 <=? 0 + 16384 + 16384 + 1024)
          && (0 + 16384 + 16384 + 1024 + 1024 <=? wTotalEntries)) with true.
  cbn iota.
  change (u8 0) with 0. change (u8 (0 + 1)) with 1.
  change (u8 (0 + 1 + 1)) with 2. change (u8 (0 + 1 + 1 + 1)) with 3.
  change (0 + 1) with 1. change (1 + 1) with 2. change (2 + 1) with 3.
  change (0 + 16384) with 16384. change (16384 + 16384) with 32768.
  change (32768 + 1024) with 33792.
  destruct (wheel_init_spec 0 0 16384 w) as (w1 & R1 & A1 & B1 & C1 & D1 & E1 & F1);
    [unfold WheelsNo; lia | lia |].
  destruct (wheel_init_spec 1 16384 16384 w1) as (w2 & R2 & A2 & B2 & C2 & D2 & E2 & F2);
    [unfold WheelsNo; lia | lia |].
  destruct (wheel_init_spec 2 32768 1024 w2) as (w3 & R3 & A3 & B3 & C3 & D3 & E3 & F3);
    [unfold WheelsNo; lia | lia |].
  destruct (wheel_init_spec 3 33792 1024 w3) as (w4 & R4 & A4 & B4 & C4 & D4 & E4 & F4);
    [unfold WheelsNo; lia | lia |].
  unfold bind. rewrite R1, R2, R3, R4.
  exists w4. split; [reflexivity|].
  assert (keep : forall (wa wb : @World U Arg) l n i,
             lst_of l (wt wb) = lst_of l (wt wa) ->
             lst_initialised l n i wa -> lst_initialised l n i wb)
    by (intros; eapply lst_initialised_eq; eauto).
  split; [|split; [|split; [|split]]].
  - intros k n Hk.
    destruct (wheelEntries_cases k n Hk) as [[-> ->]|[[-> ->]|[[-> ->]|[-> ->]]]].
    + rewrite B4, B3, B2 by lia. exact A1.
    + rewrite B4, B3 by lia. exact A2.
    + rewrite B4 by lia. exact A3.
    + exact A4.
  - intros k n idx Hk Hidx.
    destruct (wheelEntries_cases k n Hk) as [[-> ->]|[[-> ->]|[[-> ->]|[-> ->]]]];
      [change (wheelOff 0) with 0 | change (wheelOff 1) with 16384
      | change (wheelOff 2) with 32768 | change (wheelOff 3) with 33792].
    + apply (keep w1); [|apply C1; exact Hidx].
      rewrite D4, D3, D2; [reflexivity| | |];
        intros (j & Hj & E); apply Lwlists_inj in E; lia.
    + apply (keep w2); [|apply C2; exact Hidx].
      rewrite D4, D3; [reflexivity| |];
        intros (j & Hj & E); apply Lwlists_inj in E; lia.
    + apply (keep w3); [|apply C3; exact Hidx].
      rewrite D4; [reflexivity|];
        intros (j & Hj & E); apply Lwlists_inj in E; lia.
    + apply C4. exact Hidx.
  - intros l Hl.
    rewrite D4, D3, D2, D1; [reflexivity| | | |];
      intros (j & _ & E); exact (Hl _ E).
  - rewrite <- E1, <- E2, <- E3, <- E4.
    destruct (wt w4). reflexivity.
  - etransitivity; [exact F4|]. rewrite F3, F2, F1. reflexivity.
Qed.


Lemma LrQs_inj (i j : Z) : LrQs i = LrQs j -> i = j.
Proof. congruence. Qed.

(** The second loop of [Init], over the run queues [i .. 7]. *)
Lemma Init_rQs_spec :
  forall (cnt : nat) (i : Z) w,
    0 <= i -> i + Z.of_nat cnt = runQueuesNo ->
    exists w',
      Init_rQs cnt i w = Ok tt w' /\
      (forall j, i <= j < runQueuesNo ->
                 lst_initialised (LrQs j) wheelRQ j w') /\
      only_lists (fun l => exists j, i <= j < runQueuesNo /\ l = LrQs j) w w'.
Proof.
  unfold runQueuesNo.
  induction cnt as [|k IH]; intros i w Hi Hcnt.
  - exists w. cbn. split; [reflexivity|]. split.
    + intros j Hj. lia.
    + apply only_lists_refl.
  - cbn [Init_rQs]. unfold bind at 1. unfold rQidx, runQueuesNo.
    destruct (Z.leb_spec 0 i); [|lia]. destruct (Z.ltb_spec i 8); [|lia].
    cbn [andb]. unfold ret at 1.
    destruct (timerLst_init_spec (LrQs i) wheelRQ (u16 i) w)
      as (w1 & Hrun & Hinit & Hfr);
      [unfold wheelRQ; lia | unfold u16; apply Z.mod_pos_bound; lia |].
    unfold bind at 1. rewrite Hrun.
    destruct (IH (i + 1) w1) as (w2 & Hrun2 & Hinit2 & Hfr2); [lia|lia|].
    exists w2. split; [exact Hrun2|]. split.
    + intros j Hj.
      destruct (Z.eq_dec j i) as [->|Hne].
      * apply (lst_initialised_eq _ _ _ w1).
        -- apply Hfr2. intros (j' & Hj' & E). apply LrQs_inj in E. lia.
        -- rewrite u16_small in Hinit by lia. exact Hinit.
      * apply Hinit2. lia.
    + eapply only_lists_trans; [| |exact Hfr|exact Hfr2].
      * intros l ->. exists i. split; [lia|reflexivity].
      * intros l (j & Hj & ->). exists j. split; [lia|reflexivity].
Qed.

Lemma WTimer_eta (s : @WTimer U Arg) :
  s = mkWTimer (opLock s) (wheels s) (wlists s) (expired s) (rQtail s)
        (rQhead s) (rQs s) (rQlocks s) (rQch s) (running s) (rQrunning s)
        (tickDuration s) (nowTicks s) (lastTickT s) (badTime s) (refTS s)
        (refTicks s) (wg s).
Proof. destruct s; reflexivity. Qed.

(** What [Init] changes outside the lists: the wheels, the tick duration
    and the signal channel. *)
Lemma ctl_after_Init (s1 s : @WTimer U Arg) (td : Z) :
  set_wheels (wheels (set_tickDuration td s)) (ctl s1)
  = ctl (set_tickDuration td s) ->
  set_rQch (rQch s)
    (set_tickDuration (tickDuration s)
       (set_wheels (wheels s) (set_rQch (Some 0) (ctl s1)))) = ctl s.
Proof.
  intros H.
  rewrite (WTimer_eta (ctl s)).
  match goal with |- ?A = _ => rewrite (WTimer_eta A) end.
  assert (E1 := f_equal opLock H). assert (E2 := f_equal rQtail H).
  assert (E3 := f_equal rQhead H). assert (E4 := f_equal rQlocks H).
  assert (E5 := f_equal running H). assert (E6 := f_equal rQrunning H).
  assert (E7 := f_equal nowTicks H). assert (E8 := f_equal lastTickT H).
  assert (E9 := f_equal badTime H). assert (E10 := f_equal refTS H).
  assert (E11 := f_equal refTicks H). assert (E12 := f_equal wg H).
  wt_simpl_in E1. wt_simpl_in E2. wt_simpl_in E3. wt_simpl_in E4.
  wt_simpl_in E5. wt_simpl_in E6. wt_simpl_in E7. wt_simpl_in E8.
  wt_simpl_in E9. wt_simpl_in E10. wt_simpl_in E11. wt_simpl_in E12.
  wt_simpl.
  rewrite E1, E2, E3, E4, E5, E6, E7, E8, E9, E10, E11, E12. reflexivity.
Qed.

(** A successful [Init]: the lists are initialised, the tick duration is
    set, the signal channel is made, and nothing else changes. *)
Lemma Init_ok (td : Z) w :
  Microsecond <= td <= Hour * 24 ->
  exists w',
    WTimer_Init td w = Ok None w' /\
    initialised w' /\
    tickDuration (wt w') = td /\
    set_rQch (rQch (wt w))
      (set_tickDuration (tickDuration (wt w))
         (set_wheels (wheels (wt w)) (ctl (wt w')))) = ctl (wt w) /\
    w' = set_wt (wt w') w.
Proof.
  intros Htd. unfold WTimer_Init.
  destruct (Z.ltb_spec td Microsecond); [lia|].
  destruct (Z.gtb_spec td (Hour * 24)); [lia|].
  unfold bind at 1. unfold wrWt at 1.
  set (w0 := set_wt (set_tickDuration td (wt w)) w).
  destruct (Init_wheels_spec w0) as (w1 & R1 & A1 & B1 & C1 & D1 & E1).
  unfold bind at 1. rewrite R1.
  destruct (timerLst_init_spec Lexpired wheelExp wheelNoIdx w1)
    as (w2 & R2 & A2 & (B2 & C2 & D2));
    [unfold wheelExp; lia | unfold wheelNoIdx; lia |].
  unfold bind at 1. rewrite R2.
  destruct (Init_rQs_spec (Z.to_nat runQueuesNo) 0 w2)
    as (w3 & R3 & A3 & (B3 & C3 & D3)); [lia | reflexivity |].
  unfold bind at 1. rewrite R3.
  unfold bind, wrWt, ret.
  eexists. split; [reflexivity|].
  assert (W2 : wheels (wt w2) = wheels (wt w1)) by (now apply ctl_wheels).
  assert (W3 : wheels (wt w3) = wheels (wt w2)) by (now apply ctl_wheels).
  split; [|split; [|split]].
  - unfold initialised. cbn [wt set_wt].
    split; [|split; [|split; [|split]]].
    + unfold wheels_ready. cbn [wheels set_rQch]. rewrite W3, W2. exact A1.
    + intros k n idx Hk Hidx.
      apply (lst_initialised_eq _ _ _ w1); [|exact (B1 k n idx Hk Hidx)].
      cbn [wt set_wt]. unfold lst_of at 1. cbn [wlists set_rQch].
      change (aget (wlists (wt w3)) (wheelOff k + idx))
        with (lst_of (Lwlists (wheelOff k + idx)) (wt w3)).
      rewrite B3, B2; [reflexivity| |].
      * congruence.
      * intros (j & _ & E). discriminate.
    + apply (lst_initialised_eq _ _ _ w2); [|exact A2].
      cbn [wt set_wt]. unfold lst_of at 1. cbn [expired set_rQch].
      change (expired (wt w3)) with (lst_of Lexpired (wt w3)).
      apply B3. intros (j & _ & E). discriminate.
    + intros i Hi. apply (lst_initialised_eq _ _ _ w3); [reflexivity|].
      apply A3. lia.
    + reflexivity.
  - cbn [wt set_wt tickDuration set_rQch].
    rewrite (ctl_tickDuration _ _ C3), (ctl_tickDuration _ _ C2).
    assert (T1 := f_equal tickDuration D1). cbn in T1. rewrite T1.
    reflexivity.
  - cbn [wt set_wt]. 
    assert (X : ctl (set_rQch (Some 0) (wt w3)) = set_rQch (Some 0) (ctl (wt w3)))
      by reflexivity.
    rewrite X, C3, C2.
    subst w0. cbn [wt set_wt] in D1.
    exact (ctl_after_Init _ _ _ D1).
  - rewrite D3 at 2. rewrite D2. rewrite E1. subst w0. reflexivity.
Qed.


(** C6, as the code has it. [Init(td)] succeeds exactly when
    [1 µs <= td <= 24 h]; it then returns nil with every wheel list, the
    expired list and the run queues initialised and the tick duration set,
    and leaves the timers alone.  Outside that range it returns an error
    made on the spot with [errors.New] ("tick duration too small" or
    "tick duration too high"), not [ErrInvalidParameters], and changes
    nothing. *)
Theorem Init_tick_duration_range (td : Z) w :
  (Microsecond <= td <= Hour * 24 ->
   exists w',
     WTimer_Init td w = Ok None w' /\
     initialised w' /\ tickDuration (wt w') = td /\
     timers w' = timers w /\ nowTicks (wt w') = nowTicks (wt w)) /\
  (td < Microsecond ->
   WTimer_Init td w
   = Ok (Some (ErrorsNew "wtimer.Init: tick duration too small")) w) /\
  (Hour * 24 < td ->
   WTimer_Init td w
   = Ok (Some (ErrorsNew "wtimer.Init: tick duration too high")) w) /\
  ((exists w', WTimer_Init td w = Ok None w')
   <-> Microsecond <= td <= Hour * 24).
Proof.
  assert (Hsmall : td < Microsecond ->
    WTimer_Init td w
    = Ok (Some (ErrorsNew "wtimer.Init: tick duration too small")) w).
  { intros H. unfold WTimer_Init.
    destruct (Z.ltb_spec td Microsecond); [reflexivity|lia]. }
  assert (Hhigh : Hour * 24 < td ->
    WTimer_Init td w
    = Ok (Some (ErrorsNew "wtimer.Init: tick duration too high")) w).
  { intros H. unfold WTimer_Init.
    destruct (Z.ltb_spec td Microsecond); [unfold Microsecond, Hour in *; lia|].
    destruct (Z.gtb_spec td (Hour * 24)); [reflexivity|lia]. }
  assert (Hok : Microsecond <= td <= Hour * 24 ->
    exists w',
      WTimer_Init td w = Ok None w' /\
      initialised w' /\ tickDuration (wt w') = td /\
      timers w' = timers w /\ nowTicks (wt w') = nowTicks (wt w)).
  { intros H. destruct (Init_ok td w H) as (w' & R & I & T & C & E).
    exists w'. split; [exact R|]. split; [exact I|]. split; [exact T|].
    split.
    - rewrite E. reflexivity.
    - exact (f_equal nowTicks C). }
  split; [exact Hok|]. split; [exact Hsmall|]. split; [exact Hhigh|].
  split.
  - intros (w' & R).
    destruct (Z.lt_ge_cases td Microsecond) as [H|H];
      [rewrite (Hsmall H) in R; discriminate|].
    destruct (Z.lt_ge_cases (Hour * 24) td) as [H'|H'];
      [rewrite (Hhigh H') in R; discriminate|].
    lia.
  - intros H. destruct (Hok H) as (w' & R & _). now exists w'.
Qed.

End InitProofs.

Lemma Init_tick_duration_range_witness :
  (Microsecond <= 1000000 <= Hour * 24) /\
  exists w', WTimer_Init 1000000 world0 = Ok None w' /\ initialised w'.
Proof.
  assert (H : Microsecond <= 1000000 <= Hour * 24)
    by (vm_compute; split; discriminate).
  split; [exact H|].
  destruct (proj1 (Init_tick_duration_range 1000000 world0) H)
    as (w' & R & I & _).
  exists w'. split; [exact R | exact I].
Defined.

(** C6 as the specification words it fails on the kind of the error: for
    a tick duration of 0 and for one of 25 hours [Init] returns errors made
    with [errors.New], and neither is [ErrInvalidParameters]. *)
Lemma Init_error_is_not_InvalidParameters :
  WTimer_Init 0 world0
  = Ok (Some (ErrorsNew "wtimer.Init: tick duration too small")) world0 /\
  WTimer_Init (Hour * 25) world0
  = Ok (Some (ErrorsNew "wtimer.Init: tick duration too high")) world0 /\
  WTimer_Init 0 world0 <> Ok (Some ErrInvalidParameters) world0 /\
  WTimer_Init (Hour * 25) world0 <> Ok (Some ErrInvalidParameters) world0.
Proof.
  repeat split; try reflexivity; vm_compute; discriminate.
Qed.

(** ** Wheel positions stay inside the wheels *)

Section Bounds.
Context {U Arg : Type}.
Implicit Types (w : @World U Arg).

(** [append] never fails on an index. *)
Lemma timerLst_append_not_oob (lst : lstRef) (e : addr) w :
  timerLst_append lst e w <> Panic IndexOutOfRange.
Proof.
  unfold timerLst_append. mrun. unfold PANIC, deref, panic.
  destruct (negb (TimerLnk_Detached e (load e w)));
    (match goal with
     | |- context [match ?x with Some _ => _ | None => _ end] =>
         destruct x; [|discriminate]
     end);
    mrun;
    (match goal with
     | |- context [tInfo_wheelPos ?i] => destruct (tInfo_wheelPos i)
     end);
    (match goal with
     | |- context [if ?c then _ else _] => destruct c
     end); discriminate.
Qed.

End Bounds.

(** C10. For every pair of tick values, [getWheelPos] answers either
    [(wheelExp, wheelNoIdx)] or a wheel number [0..3] with an index below
    that wheel's size [wheelEntries[w] = 2^wheelBits(w)]; so [appendTimer]
    on its answer never indexes a wheel's lists out of bounds on a
    scheduler whose wheels are set up. *)
Theorem getWheelPos_within_wheel (exp now : Ticks) :
  let '(wh, idx) := getWheelPos exp now in
  ((wh = wheelExp /\ idx = wheelNoIdx) \/
   (0 <= wh < WheelsNo /\
    exists n, wheelEntries wh = Some n /\ n = 2 ^ wheelBits wh /\
              0 <= idx < n)) /\
  forall (U Arg : Type) (w : @World U Arg) (tl : addr),
    wheels_ready (wt w) ->
    WTimer_appendTimer tl wh idx w <> Panic IndexOutOfRange.
Proof.
  rewrite getWheelPos_cases. cbv zeta.
  set (delta := Ticks_Val (Ticks_Sub exp now)).
  set (e := Ticks_Val exp).
  assert (Happ : forall wh idx n,
    0 <= wh < WheelsNo -> wheelEntries wh = Some n -> 0 <= idx < n ->
    forall (U Arg : Type) (w : @World U Arg) (tl : addr),
      wheels_ready (wt w) ->
      WTimer_appendTimer tl wh idx w <> Panic IndexOutOfRange).
  { intros wh idx n Hwh Hn Hidx U Arg w tl Hr.
    unfold WTimer_appendTimer.
    destruct (Z.ltb_spec wh WheelsNo); [|lia].
    unfold bind at 1.
    rewrite (wheelLst_ok wh idx (wheelOff wh) n); auto.
    unfold bind, ret.
    pose proof (timerLst_append_not_oob (Lwlists (wheelOff wh + idx)) tl w).
    destruct (timerLst_append (Lwlists (wheelOff wh + idx)) tl w);
      congruence. }
  destruct (delta =? 0).
  { split; [left; split; reflexivity|].
    intros U Arg w tl _. unfold WTimer_appendTimer.
    change (wheelExp <? WheelsNo) with false.
    change (wheelExp =? wheelExp) with true. cbn iota.
    unfold bind, ret.
    pose proof (timerLst_append_not_oob Lexpired tl w).
    destruct (timerLst_append Lexpired tl w); congruence. }
  destruct (delta <? 2 ^ 14);
    [|destruct (delta <? 2 ^ 28); [|destruct (delta <? 2 ^ 38)]].
  - pose proof (wheel0Pos_range e).
    split; [right|apply (Happ 0 _ 16384)];
      try (unfold WheelsNo; lia); try reflexivity.
    split; [unfold WheelsNo; lia|]. exists 16384. repeat split; lia.
  - pose proof (wheel1Pos_range e).
    split; [right|apply (Happ 1 _ 16384)];
      try (unfold WheelsNo; lia); try reflexivity.
    split; [unfold WheelsNo; lia|]. exists 16384. repeat split; lia.
  - pose proof (wheel2Pos_range e).
    split; [right|apply (Happ 2 _ 1024)];
      try (unfold WheelsNo; lia); try reflexivity.
    split; [unfold WheelsNo; lia|]. exists 1024. repeat split; lia.
  - pose proof (wheel3Pos_range e).
    split; [right|apply (Happ 3 _ 1024)];
      try (unfold WheelsNo; lia); try reflexivity.
    split; [unfold WheelsNo; lia|]. exists 1024. repeat split; lia.
Qed.

Lemma getWheelPos_within_wheel_witness :
  exists w : @World nat unit,
    wheels_ready (wt w) /\
    WTimer_appendTimer (ATimer 0) 1 4 w <> Panic IndexOutOfRange.
Proof.
  destruct (Init_ok 1000000 world0) as (w & _ & (Hr & _) & _);
    [vm_compute; split; discriminate|].
  exists w. split; [exact Hr|].
  exact (proj2 (getWheelPos_within_wheel (NewTicks 70000) (NewTicks 100))
           nat unit w (ATimer 0) Hr).
Defined.

(** ** Deleting timers *)

Section KeepsDelete.
Context {U Arg : Type}.
Implicit Types (w : @World U Arg) (x : @TimerLnk U Arg).

Lemma load_set_wt_ctl a (s : @WTimer U Arg) w :
  wlists s = wlists (wt w) -> expired s = expired (wt w) ->
  rQs s = rQs (wt w) ->
  load a (set_wt s w) = load a w.
Proof.
  intros H1 H2 H3. destruct a as [[i| |i]|n]; cbn; congruence.
Qed.

Lemma keeps_ret {A : Type} (a : A) : keeps_delete (U:=U) (Arg:=Arg) (ret a).
Proof. intros w r w' [= _ <-] b. reflexivity. Qed.

Lemma keeps_bind {A B : Type} (c : M A) (k : A -> M B) :
  keeps_delete c -> (forall a, keeps_delete (k a)) ->
  keeps_delete (U:=U) (Arg:=Arg) (bind c k).
Proof.
  intros Hc Hk w r w' H b. unfold bind in H.
  destruct (c w) as [a w1| |] eqn:E; try discriminate.
  rewrite (Hk a w1 r w' H b). exact (Hc w a w1 E b).
Qed.

Lemma keeps_panic {A : Type} (p : gopanic) :
  keeps_delete (U:=U) (Arg:=Arg) (A:=A) (panic p).
Proof. intros w r w' H. discriminate. Qed.

Lemma keeps_outOfFuel {A : Type} :
  keeps_delete (U:=U) (Arg:=Arg) (A:=A) outOfFuel.
Proof. intros w r w' H. discriminate. Qed.

Lemma keeps_rd (a : addr) : keeps_delete (U:=U) (Arg:=Arg) (rd a).
Proof. intros w r w' [= _ <-] b. reflexivity. Qed.

Lemma keeps_rdLst (l : lstRef) : keeps_delete (U:=U) (Arg:=Arg) (rdLst l).
Proof. intros w r w' [= _ <-] b. reflexivity. Qed.

Lemma keeps_deref (p : ptr) : keeps_delete (U:=U) (Arg:=Arg) (deref p).
Proof. destruct p; [apply keeps_ret | apply keeps_panic]. Qed.

Lemma keeps_wr (a : addr) (g : TimerLnk -> TimerLnk) :
  (forall x, delBit (g x) = delBit x) ->
  keeps_delete (U:=U) (Arg:=Arg) (wr a g).
Proof.
  intros Hg w r w' [= _ <-] b. rewrite load_store.
  destruct (addr_eq_dec a b) as [->|_]; [apply Hg | reflexivity].
Qed.

Lemma keeps_when (c : bool) (m : M unit) :
  keeps_delete m -> keeps_delete (U:=U) (Arg:=Arg) (when c m).
Proof. intros H. destruct c; [exact H | apply keeps_ret]. Qed.

Lemma keeps_PANIC (msg : string) : keeps_delete (U:=U) (Arg:=Arg) (PANIC msg).
Proof. intros w r w' [= _ <-] b. now rewrite load_set_faults. Qed.

Lemma keeps_BUG (msg : string) : keeps_delete (U:=U) (Arg:=Arg) (BUG msg).
Proof. intros w r w' [= _ <-] b. now rewrite load_set_faults. Qed.

Lemma keeps_lock : keeps_delete (U:=U) (Arg:=Arg) WTimer_lock.
Proof.
  intros w r w' H b. unfold WTimer_lock in H.
  destruct (opLock (wt w)); [discriminate|]. injection H as _ <-.
  now rewrite load_set_wt_ctl.
Qed.

Lemma keeps_unlock : keeps_delete (U:=U) (Arg:=Arg) WTimer_unlock.
Proof.
  intros w r w' H b. unfold WTimer_unlock in H.
  destruct (opLock (wt w)); [|discriminate]. injection H as _ <-.
  now rewrite load_set_wt_ctl.
Qed.

Lemma keeps_rQidx (i : Z) : keeps_delete (U:=U) (Arg:=Arg) (rQidx i).
Proof.
  unfold rQidx. destruct ((0 <=? i) && (i <? runQueuesNo));
    [apply keeps_ret | apply keeps_panic].
Qed.

Lemma keeps_rQlock_Lock (i : Z) :
  keeps_delete (U:=U) (Arg:=Arg) (rQlock_Lock i).
Proof.
  apply keeps_bind; [apply keeps_rQidx|]. intros j w r w' H b.
  destruct (aget (rQlocks (wt w)) j); [discriminate|]. injection H as _ <-.
  now rewrite load_set_wt_ctl.
Qed.

Lemma keeps_rQlock_Unlock (i : Z) :
  keeps_delete (U:=U) (Arg:=Arg) (rQlock_Unlock i).
Proof.
  apply keeps_bind; [apply keeps_rQidx|]. intros j w r w' H b.
  destruct (aget (rQlocks (wt w)) j); [|discriminate]. injection H as _ <-.
  now rewrite load_set_wt_ctl.
Qed.

Lemma keeps_wheelLst (wheel idx : Z) :
  keeps_delete (U:=U) (Arg:=Arg) (wheelLst wheel idx).
Proof.
  intros w r w' H b. unfold wheelLst in H.
  destruct ((0 <=? wheel) && (wheel <? WheelsNo)); [|discriminate].
  destruct ((0 <=? idx) && (idx <? lsts_len (aget (wheels (wt w)) wheel)));
    [|discriminate].
  now injection H as _ <-.
Qed.

(** The stores of [del] and [rm]: links, the wheel position, [fRemoved]. *)
Lemma delBit_set_next (p : ptr) x : delBit (set_next p x) = delBit x.
Proof. reflexivity. Qed.

Lemma delBit_set_prev (p : ptr) x : delBit (set_prev p x) = delBit x.
Proof. reflexivity. Qed.

Lemma delBit_setWheel_none x :
  delBit (set_info (tInfo_setWheel (info x) wheelNone wheelNoIdx) x)
  = delBit x.
Proof.
  unfold delBit. cbn [info set_info].
  rewrite !flags_fields, flagsOf_setWheel;
    [reflexivity | unfold wheelNone; lia | unfold wheelNoIdx; lia].
Qed.

Lemma delBit_setFlags_removed x :
  delBit (set_info (tInfo_setFlags (info x) fRemoved) x) = delBit x.
Proof.
  unfold delBit. cbn [info set_info].
  rewrite !flags_fields, flagsOf_setFlags.
  unfold flagsOf. change fDelete with (2 ^ 2).
  change (u8 fRemoved) with (2 ^ 4).
  apply Z.bits_inj'. intros i Hi.
  rewrite !Z.land_spec, Z.lor_spec, !Z.pow2_bits_eqb by lia.
  destruct (Z.eqb_spec 2 i) as [<-|]; [|now rewrite !andb_false_r].
  cbn. now rewrite orb_false_r.
Qed.

Lemma keeps_rm (lst : lstRef) (e : ptr) :
  keeps_delete (U:=U) (Arg:=Arg) (timerLst_rm lst e).
Proof.
  unfold timerLst_rm. destruct e as [a|].
  2:{ apply keeps_bind; [apply keeps_PANIC | intros; apply keeps_panic]. }
  repeat first
    [ apply keeps_rd | apply keeps_rdLst | apply keeps_deref
    | apply keeps_when
    | apply keeps_PANIC
    | apply keeps_wr; intros; first [ reflexivity | apply delBit_setWheel_none ]
    | match goal with |- keeps_delete (if ?c then _ else _) => destruct c end
    | match goal with |- keeps_delete (match ?p with _ => _ end) =>
        destruct p end
    | match goal with |- keeps_delete (bind _ _) =>
        apply keeps_bind; [|intros] end ].
Qed.

Lemma keeps_rm_and_mark (lst : lstRef) (tl : addr) :
  keeps_delete (U:=U) (Arg:=Arg) (rm_and_mark lst tl).
Proof.
  unfold rm_and_mark, setFlags_at.
  repeat first
    [ apply keeps_rm
    | apply keeps_wr; intros; first [ reflexivity | apply delBit_setFlags_removed ]
    | match goal with |- keeps_delete (bind _ _) =>
        apply keeps_bind; [|intros] end ].
Qed.

End KeepsDelete.

Lemma land_pow2 (x n : Z) :
  0 <= n -> Z.land x (2 ^ n) = if Z.testbit x n then 2 ^ n else 0.
Proof.
  intros Hn. apply Z.bits_inj'. intros m Hm.
  rewrite Z.land_spec, Z.pow2_bits_eqb by lia.
  destruct (Z.eqb_spec n m) as [->|Hne].
  - destruct (Z.testbit x m) eqn:E1.
    + rewrite Z.pow2_bits_true; auto.
    + now rewrite Z.bits_0.
  - rewrite andb_false_r.
    destruct (Z.testbit x n).
    + rewrite Z.pow2_bits_false; auto.
    + now rewrite Z.bits_0.
Qed.

(** The test [flags&(fActive|fDelete) != fActive] of [del]. *)
Lemma active_not_deleted (f : Z) :
  (Z.land f (Z.lor fActive fDelete) =? fActive)
  = negb (Z.land f fActive =? 0) && (Z.land f fDelete =? 0).
Proof.
  rewrite Z.land_lor_distr_r.
  change fActive with (2 ^ 1). change fDelete with (2 ^ 2).
  rewrite !land_pow2 by lia.
  destruct (Z.testbit f 1), (Z.testbit f 2); reflexivity.
Qed.

Section Del.
Context {U Arg : Type}.
Implicit Types (w : @World U Arg) (x : @TimerLnk U Arg).

Lemma lock_run w :
  opLock (wt w) = false ->
  WTimer_lock w = Ok tt (set_wt (set_opLock true (wt w)) w).
Proof. intros H. unfold WTimer_lock. now rewrite H. Qed.

Lemma unlock_run w :
  opLock (wt w) = true ->
  WTimer_unlock w = Ok tt (set_wt (set_opLock false (wt w)) w).
Proof. intros H. unfold WTimer_unlock. now rewrite H. Qed.

Lemma load_set_opLock (b : bool) a w :
  load a (set_wt (set_opLock b (wt w)) w) = load a w.
Proof. now apply load_set_wt_ctl. Qed.

Lemma unlock_lock_id w :
  opLock (wt w) = false ->
  set_wt (set_opLock false (set_opLock true (wt w))) w = w.
Proof.
  intros H. destruct w as [s tm us wc cl sp fl]. cbn [wt] in H.
  unfold set_wt. cbn [wt timers user wallClock calls spawned faults].
  f_equal. destruct s. simpl in H. subst. reflexivity.
Qed.

(** [lst.rm(tl); tl.next = nil; tl.prev = nil; setFlags(fRemoved)] on an
    entry linked between [p] and [n]. *)
Lemma rm_and_mark_spec (lst : lstRef) (tl p n : addr) w :
  next (load tl w) = Some n -> prev (load tl w) = Some p ->
  n <> tl -> p <> tl ->
  exists w',
    rm_and_mark lst tl w = Ok tt w' /\
    frame [tl; p; n] w w' /\
    load tl w'
    = set_info (tInfo_setFlags
                  (tInfo_setWheel (info (load tl w)) wheelNone wheelNoIdx)
                  fRemoved)
        (set_prev None (set_next None (load tl w))) /\
    next (load p w') = Some n /\ prev (load n w') = Some p.
Proof.
  intros Hn Hp Hna Hpa. unfold rm_and_mark.
  destruct (timerLst_rm_spec lst tl p n w Hn Hp Hna Hpa)
    as (w1 & R & F & _ & Ltl & Lp & Ln).
  unfold bind at 1. rewrite R. mrun.
  eexists. split; [reflexivity|].
  split; [|split; [|split]].
  - repeat (apply frame_store_r; [cbn; tauto|]). exact F.
  - mload. rewrite Ltl. reflexivity.
  - mload. rewrite Lp. destruct (addr_eq_dec p n); reflexivity.
  - mload. rewrite Ln. destruct (addr_eq_dec p n) as [->|]; reflexivity.
Qed.


Lemma unlock_after_lock w :
  opLock (wt w) = false ->
  set_wt (set_opLock false (wt (set_wt (set_opLock true (wt w)) w)))
    (set_wt (set_opLock true (wt w)) w) = w.
Proof. exact (unlock_lock_id w). Qed.

Lemma getAll_flags_wheelPos (t : tInfo) (f wh idx : Z) :
  tInfo_getAll t = (f, wh, idx) ->
  tInfo_flags t = f /\ tInfo_wheelPos t = (wh, idx).
Proof.
  intros H. rewrite flags_fields, wheelPos_fields.
  rewrite getAll_fields in H. injection H as <- <- <-. auto.
Qed.

Lemma rQlock_Lock_run (idx : Z) w :
  0 <= idx < runQueuesNo -> aget (rQlocks (wt w)) idx = false ->
  rQlock_Lock idx w
  = Ok tt (set_wt (set_rQlocks (upd (rQlocks (wt w)) idx true) (wt w)) w).
Proof.
  intros Hi Hl. unfold rQlock_Lock, rQidx, bind, ret.
  destruct (Z.leb_spec 0 idx); [|lia].
  destruct (Z.ltb_spec idx runQueuesNo); [|lia].
  cbn [andb]. now rewrite Hl.
Qed.

Lemma rQlock_Unlock_run (idx : Z) w :
  0 <= idx < runQueuesNo -> aget (rQlocks (wt w)) idx = true ->
  rQlock_Unlock idx w
  = Ok tt (set_wt (set_rQlocks (upd (rQlocks (wt w)) idx false) (wt w)) w).
Proof.
  intros Hi Hl. unfold rQlock_Unlock, rQidx, bind, ret.
  destruct (Z.leb_spec 0 idx); [|lia].
  destruct (Z.ltb_spec idx runQueuesNo); [|lia].
  cbn [andb]. now rewrite Hl.
Qed.

Lemma load_set_rQlocks (l : arr bool) a w :
  load a (set_wt (set_rQlocks l (wt w)) w) = load a w.
Proof. now apply load_set_wt_ctl. Qed.

(** The first steps of [del]: the lock is taken and the information word
    is read. *)
Ltac del_enter Hlock Hall :=
  match goal with
  | |- context [WTimer_del ?fuel _ _] => destruct fuel; cbn [WTimer_del]
  end;
  unfold bind at 1; rewrite (lock_run _ Hlock);
  unfold bind at 1, rd at 1; rewrite load_set_opLock, Hall;
  rewrite active_not_deleted.

Ltac del_leave Hlock :=
  unfold bind at 1; rewrite unlock_run by reflexivity;
  unfold ret; rewrite (unlock_after_lock _ Hlock).

Lemma del_inactive (fuel : nat) (delF : Z) (tl : addr) w flags wheel idx :
  opLock (wt w) = false ->
  tInfo_getAll (info (load tl w)) = (flags, wheel, idx) ->
  Z.land flags fActive = 0 ->
  WTimer_del fuel tl delF w = Ok (true, Some ErrInactiveTimer) w.
Proof.
  intros Hlock Hall Hact.
  del_enter Hlock Hall.
  all: rewrite Hact; change (0 =? 0) with true; cbn [negb andb].
  all: del_leave Hlock; reflexivity.
Qed.

Lemma del_marked (fuel : nat) (delF : Z) (tl : addr) w flags wheel idx :
  opLock (wt w) = false ->
  tInfo_getAll (info (load tl w)) = (flags, wheel, idx) ->
  Z.land flags fActive <> 0 -> Z.land flags fDelete <> 0 ->
  Z.land delF (Z.lor fDelRaceOk fDelForce) = 0 ->
  Z.land delF fDelAlreadyOk = 0 ->
  WTimer_del fuel tl delF w
  = Ok (negb (Z.land flags fRemoved =? 0), Some ErrDeletedTimer) w.
Proof.
  intros Hlock Hall Hact Hdel Hrace Halr.
  apply Z.eqb_neq in Hact, Hdel.
  del_enter Hlock Hall.
  all: rewrite Hact, Hdel; cbn [negb andb].
  all: rewrite Hrace, Halr; change (0 =? 0) with true.
  all: cbn [negb andb]; del_leave Hlock; reflexivity.
Qed.

(** A timer whose callback is running, not marked for deletion, with the
    wheel position [None] of a running timer. *)
Lemma del_running_none (fuel : nat) (delF : Z) (tl : addr) w flags idx :
  opLock (wt w) = false ->
  tInfo_getAll (info (load tl w)) = (flags, wheelNone, idx) ->
  Z.land flags fActive <> 0 -> Z.land flags fDelete = 0 ->
  Z.land flags fRunning <> 0 ->
  Z.land delF fDelTry <> 0 ->
  WTimer_del fuel tl delF w = Ok (false, None) w.
Proof.
  intros Hlock Hall Hact Hdel Hrun Htry.
  destruct (getAll_flags_wheelPos _ _ _ _ Hall) as (Hfl & Hpos).
  apply Z.eqb_neq in Hact, Hrun, Htry.
  del_enter Hlock Hall.
  all: rewrite Hact, Hdel; change (0 =? 0) with true; cbn [negb andb].
  all: change (wheelNone =? wheelNone) with true; cbv iota.
  all: unfold bind at 1, rd at 1; rewrite load_set_opLock, Hfl, Hrun.
  all: cbn [negb]; rewrite Htry.
  all: unfold when; unfold bind at 1, ret at 1.
  all: del_leave Hlock; reflexivity.
Qed.

(** The same in the window where a worker has set [fRunning] on a timer
    of its run queue and has not unlinked it yet. *)
Lemma del_running_rq (fuel : nat) (delF : Z) (tl : addr) w flags idx :
  opLock (wt w) = false ->
  tInfo_getAll (info (load tl w)) = (flags, wheelRQ, idx) ->
  Z.land flags fActive <> 0 -> Z.land flags fDelete = 0 ->
  Z.land flags fRunning <> 0 -> Z.land flags fRemoved = 0 ->
  0 <= idx < runQueuesNo -> aget (rQlocks (wt w)) idx = false ->
  Z.land delF fDelTry <> 0 ->
  exists w',
    WTimer_del fuel tl delF w = Ok (false, None) w' /\
    (forall a, load a w' = load a w) /\
    faults w' = faults w /\ opLock (wt w') = false.
Proof.
  intros Hlock Hall Hact Hdel Hrun Hrem Hidx Hrq Htry.
  destruct (getAll_flags_wheelPos _ _ _ _ Hall) as (Hfl & Hpos).
  apply Z.eqb_neq in Hact, Hrun, Htry.
  del_enter Hlock Hall.
  all: rewrite Hact, Hdel; change (0 =? 0) with true; cbn [negb andb].
  all: change (wheelRQ =? wheelNone) with false; cbv iota.
  all: rewrite Hrem; change (negb (0 =? 0)) with false; unfold when at 1.
  all: unfold bind at 1, ret at 1; unfold bind at 1, rd at 1.
  all: change (negb (wheelRQ =? wheelRQ)) with false; cbn [andb].
  all: change (wheelRQ <? WheelsNo) with false;
    change (wheelRQ =? wheelExp) with false;
    change (wheelRQ =? wheelRQ) with true; cbv iota.
  all: unfold bind at 1; rewrite unlock_run by reflexivity.
  all: rewrite (unlock_after_lock _ Hlock).
  all: unfold bind at 1; rewrite (rQlock_Lock_run idx w Hidx Hrq).
  all: unfold bind at 1, rd at 1; rewrite load_set_rQlocks, Hpos.
  all: rewrite !Z.eqb_refl; cbn [negb orb].
  all: unfold bind at 1, rd at 1; rewrite load_set_rQlocks, Hfl, Hrun.
  all: rewrite Htry; unfold when.
  all: unfold bind at 1; unfold bind at 1, ret at 1; unfold ret at 1.
  all: unfold bind at 1; rewrite rQlock_Unlock_run;
    [|exact Hidx|cbn [wt set_wt rQlocks set_rQlocks]; apply aget_upd_eq].
  all: unfold ret; eexists; split; [reflexivity|].
  all: split; [intros a; rewrite !load_set_rQlocks; reflexivity|].
  all: split; [reflexivity|exact Hlock].
Qed.


Lemma wheelLst_run (wheel idx : Z) w :
  0 <= wheel < WheelsNo ->
  0 <= idx < lsts_len (aget (wheels (wt w)) wheel) ->
  wheelLst wheel idx w
  = Ok (Lwlists (lsts_off (aget (wheels (wt w)) wheel) + idx)) w.
Proof.
  intros Hw Hi. unfold wheelLst.
  destruct (Z.leb_spec 0 wheel); [|lia].
  destruct (Z.ltb_spec wheel WheelsNo); [|lia].
  destruct (Z.leb_spec 0 idx); [|lia].
  destruct (Z.ltb_spec idx (lsts_len (aget (wheels (wt w)) wheel))); [|lia].
  reflexivity.
Qed.

Lemma removed_from_intro (tl p n : addr) (flags : Z) w wl w1 w' :
  (forall a, load a wl = load a w) ->
  tInfo_flags (info (load tl w)) = flags ->
  frame [tl; p; n] wl w1 ->
  load tl w1
  = set_info (tInfo_setFlags
                (tInfo_setWheel (info (load tl wl)) wheelNone wheelNoIdx)
                fRemoved)
      (set_prev None (set_next None (load tl wl))) ->
  next (load p w1) = Some n -> prev (load n w1) = Some p ->
  (forall a, load a w' = load a w1) ->
  removed_from tl p n flags w w'.
Proof.
  intros Hwl Hfl (Hfr & _) Htl Hp Hn Hw'. unfold removed_from.
  rewrite !Hw', Htl, Hwl. cbn [next prev info set_info set_next set_prev].
  repeat split; try assumption; try reflexivity.
  - rewrite wheelPos_fields, wheelOf_setFlags, idxOf_setFlags,
      wheelOf_setWheel, idxOf_setWheel by (unfold wheelNoIdx; lia).
    reflexivity.
  - rewrite flags_fields, flagsOf_setFlags, flagsOf_setWheel
      by (unfold wheelNone, wheelNoIdx; lia).
    rewrite <- flags_fields, Hfl. reflexivity.
  - intros a H1 H2 H3. rewrite Hw', Hfr, Hwl; [reflexivity|].
    cbn. intuition congruence.
Qed.

Lemma linked_not_detached (tl p n : addr) (x : @TimerLnk U Arg) :
  next x = Some n -> prev x = Some p -> n <> tl ->
  TimerLnk_Detached tl x || is_nil (next x) || is_nil (prev x) = false.
Proof.
  intros Hn Hp Hne. unfold TimerLnk_Detached. rewrite Hn, Hp.
  rewrite ptr_eqb_Some_neq by congruence. reflexivity.
Qed.

Lemma rm_and_mark_removed (lst : lstRef) (tl p n : addr) flags w wl :
  (forall a, load a wl = load a w) ->
  tInfo_flags (info (load tl w)) = flags ->
  next (load tl w) = Some n -> prev (load tl w) = Some p ->
  n <> tl -> p <> tl ->
  exists w1,
    rm_and_mark lst tl wl = Ok tt w1 /\
    ctl (wt w1) = ctl (wt wl) /\
    forall w', (forall a, load a w' = load a w1) ->
      removed_from tl p n flags w w'.
Proof.
  intros Hwl Hfl Hn Hp Hna Hpa.
  rewrite <- (Hwl tl) in Hn, Hp.
  destruct (rm_and_mark_spec lst tl p n wl Hn Hp Hna Hpa)
    as (w1 & R & F & Ltl & Lp & Ln).
  exists w1. split; [exact R|]. split; [apply F|].
  intros w' Hw'.
  exact (removed_from_intro tl p n flags w wl w1 w' Hwl Hfl F Ltl Lp Ln Hw').
Qed.

Lemma wheels_set_opLock (b : bool) (s : @WTimer U Arg) :
  wheels (set_opLock b s) = wheels s.
Proof. destruct s; reflexivity. Qed.

Lemma del_remove_wheel (fuel : nat) (delF : Z) (tl p n : addr) w flags wheel idx :
  opLock (wt w) = false ->
  tInfo_getAll (info (load tl w)) = (flags, wheel, idx) ->
  Z.land flags fActive <> 0 -> Z.land flags fDelete = 0 ->
  Z.land flags fRemoved = 0 ->
  0 <= wheel < WheelsNo ->
  0 <= idx < lsts_len (aget (wheels (wt w)) wheel) ->
  next (load tl w) = Some n -> prev (load tl w) = Some p ->
  n <> tl -> p <> tl ->
  exists w',
    WTimer_del fuel tl delF w = Ok (true, None) w' /\
    removed_from tl p n flags w w' /\ opLock (wt w') = false.
Proof.
  intros Hlock Hall Hact Hdel Hrem Hwh Hidx Hn Hp Hna Hpa.
  destruct (getAll_flags_wheelPos _ _ _ _ Hall) as (Hfl & Hpos).
  apply Z.eqb_neq in Hact.
  assert (E1 : (wheel =? wheelNone) = false)
    by (apply Z.eqb_neq; unfold wheelNone, WheelsNo in *; lia).
  assert (E2 : (wheel <? WheelsNo) = true) by (apply Z.ltb_lt; lia).
  del_enter Hlock Hall.
  all: rewrite Hact, Hdel; change (0 =? 0) with true; cbn [negb andb].
  all: rewrite E1; cbv iota.
  all: rewrite Hrem; change (negb (0 =? 0)) with false; unfold when at 1.
  all: unfold bind at 1, ret at 1; unfold bind at 1, rd at 1.
  all: rewrite load_set_opLock, (linked_not_detached tl p n _ Hn Hp Hna).
  all: rewrite andb_false_r, E2.
  all: unfold bind at 1; rewrite wheelLst_run;
    [|exact Hwh|cbn [wt set_wt]; rewrite wheels_set_opLock; exact Hidx].
  all: cbv beta.
  all: match goal with |- context [rm_and_mark ?l _] => set (L := l) end.
  all: destruct (rm_and_mark_removed L tl p n flags w
                     (set_wt (set_opLock true (wt w)) w)
                     (fun a => load_set_opLock true a w) Hfl Hn Hp Hna Hpa)
           as (w1 & R & C & HR).
  all: unfold bind at 1; rewrite R.
  all: unfold bind at 1; rewrite unlock_run
    by (rewrite (ctl_opLock _ _ C); reflexivity).
  all: unfold ret; eexists; split; [reflexivity|].
  all: split; [apply HR; intros a; apply load_set_opLock|reflexivity].
Qed.

Lemma del_remove_expired (fuel : nat) (delF : Z) (tl p n : addr) w flags idx :
  opLock (wt w) = false ->
  tInfo_getAll (info (load tl w)) = (flags, wheelExp, idx) ->
  Z.land flags fActive <> 0 -> Z.land flags fDelete = 0 ->
  Z.land flags fRemoved = 0 -> Z.land flags fRunning = 0 ->
  next (load tl w) = Some n -> prev (load tl w) = Some p ->
  n <> tl -> p <> tl ->
  exists w',
    WTimer_del fuel tl delF w = Ok (true, None) w' /\
    removed_from tl p n flags w w' /\ opLock (wt w') = false.
Proof.
  intros Hlock Hall Hact Hdel Hrem Hrun Hn Hp Hna Hpa.
  destruct (getAll_flags_wheelPos _ _ _ _ Hall) as (Hfl & Hpos).
  apply Z.eqb_neq in Hact.
  del_enter Hlock Hall.
  all: rewrite Hact, Hdel; change (0 =? 0) with true; cbn [negb andb].
  all: change (wheelExp =? wheelNone) with false; cbv iota.
  all: rewrite Hrem; change (negb (0 =? 0)) with false; unfold when at 1.
  all: unfold bind at 1, ret at 1; unfold bind at 1, rd at 1.
  all: rewrite load_set_opLock, (linked_not_detached tl p n _ Hn Hp Hna).
  all: rewrite andb_false_r.
  all: change (wheelExp <? WheelsNo) with false;
    change (wheelExp =? wheelExp) with true; cbv iota.
  all: unfold bind at 1, rd at 1; rewrite load_set_opLock, Hfl, Hrun.
  all: change (0 =? 0) with true; cbv iota.
  all: destruct (rm_and_mark_removed Lexpired tl p n flags w
                     (set_wt (set_opLock true (wt w)) w)
                     (fun a => load_set_opLock true a w) Hfl Hn Hp Hna Hpa)
           as (w1 & R & C & HR).
  all: unfold bind at 1; unfold bind at 1; rewrite R; unfold ret at 1.
  all: unfold bind at 1; rewrite unlock_run
    by (rewrite (ctl_opLock _ _ C); reflexivity).
  all: unfold ret; eexists; split; [reflexivity|].
  all: split; [apply HR; intros a; apply load_set_opLock|reflexivity].
Qed.

Lemma opLock_set_rQlocks (l : arr bool) (s : @WTimer U Arg) :
  opLock (set_rQlocks l s) = opLock s.
Proof. destruct s; reflexivity. Qed.

Lemma rQlocks_set_rQlocks (l : arr bool) (s : @WTimer U Arg) :
  rQlocks (set_rQlocks l s) = l.
Proof. destruct s; reflexivity. Qed.

Lemma del_remove_rq (fuel : nat) (delF : Z) (tl p n : addr) w flags idx :
  opLock (wt w) = false ->
  tInfo_getAll (info (load tl w)) = (flags, wheelRQ, idx) ->
  Z.land flags fActive <> 0 -> Z.land flags fDelete = 0 ->
  Z.land flags fRemoved = 0 -> Z.land flags fRunning = 0 ->
  0 <= idx < runQueuesNo -> aget (rQlocks (wt w)) idx = false ->
  next (load tl w) = Some n -> prev (load tl w) = Some p ->
  n <> tl -> p <> tl ->
  exists w',
    WTimer_del fuel tl delF w = Ok (true, None) w' /\
    removed_from tl p n flags w w' /\ opLock (wt w') = false.
Proof.
  intros Hlock Hall Hact Hdel Hrem Hrun Hidx Hrq Hn Hp Hna Hpa.
  destruct (getAll_flags_wheelPos _ _ _ _ Hall) as (Hfl & Hpos).
  apply Z.eqb_neq in Hact.
  del_enter Hlock Hall.
  all: rewrite Hact, Hdel; change (0 =? 0) with true; cbn [negb andb].
  all: change (wheelRQ =? wheelNone) with false; cbv iota.
  all: rewrite Hrem; change (negb (0 =? 0)) with false; unfold when at 1.
  all: unfold bind at 1, ret at 1; unfold bind at 1, rd at 1.
  all: change (negb (wheelRQ =? wheelRQ)) with false; cbn [andb].
  all: change (wheelRQ <? WheelsNo) with false;
    change (wheelRQ =? wheelExp) with false;
    change (wheelRQ =? wheelRQ) with true; cbv iota.
  all: unfold bind at 1; rewrite unlock_run by reflexivity.
  all: rewrite (unlock_after_lock _ Hlock).
  all: unfold bind at 1; rewrite (rQlock_Lock_run idx w Hidx Hrq).
  all: unfold bind at 1, rd at 1; rewrite load_set_rQlocks, Hpos.
  all: rewrite !Z.eqb_refl; cbn [negb orb].
  all: unfold bind at 1, rd at 1; rewrite load_set_rQlocks, Hfl, Hrun.
  all: change (0 =? 0) with true; cbv iota.
  all: unfold bind at 1; unfold bind at 1; unfold rQidx at 1.
  all: destruct (Z.leb_spec 0 idx); [|lia].
  all: destruct (Z.ltb_spec idx runQueuesNo); [|lia].
  all: cbn [andb]; unfold ret at 1.
  all: destruct (rm_and_mark_removed (LrQs idx) tl p n flags w
                  (set_wt (set_rQlocks (upd (rQlocks (wt w)) idx true) (wt w))
                     w)
                  (fun a => load_set_rQlocks _ a w) Hfl Hn Hp Hna Hpa)
           as (w1 & R & C & HR).
  all: unfold bind at 1; rewrite R; unfold ret at 1.
  all: unfold bind at 1; rewrite rQlock_Unlock_run;
    [|exact Hidx|rewrite (ctl_rQlocks _ _ C); cbn [wt set_wt];
                 rewrite rQlocks_set_rQlocks; apply aget_upd_eq].
  all: unfold ret; eexists; split; [reflexivity|].
  all: split; [apply HR; intros a; apply load_set_rQlocks|].
  all: cbn [wt set_wt]; rewrite opLock_set_rQlocks, (ctl_opLock _ _ C).
  all: cbn [wt set_wt]; rewrite opLock_set_rQlocks; exact Hlock.
Qed.

Lemma ctl_store_opLock a (x : @TimerLnk U Arg) w :
  opLock (wt (store a x w)) = opLock (wt w).
Proof. apply ctl_opLock, ctl_store. Qed.

(** [Del] (no [fDelTry]) on a timer whose callback is running: the timer
    is marked with [fDelete] and stays otherwise as it is. *)
Lemma del_running_mark (fuel : nat) (delF : Z) (tl : addr) w flags idx :
  opLock (wt w) = false ->
  tInfo_getAll (info (load tl w)) = (flags, wheelNone, idx) ->
  Z.land flags fActive <> 0 -> Z.land flags fDelete = 0 ->
  Z.land flags fRunning <> 0 ->
  Z.land delF fDelTry = 0 ->
  exists w',
    WTimer_del fuel tl delF w = Ok (false, None) w' /\
    load tl w'
    = set_info (tInfo_setFlags (info (load tl w)) fDelete) (load tl w) /\
    (forall a, a <> tl -> load a w' = load a w) /\
    opLock (wt w') = false /\ faults w' = faults w.
Proof.
  intros Hlock Hall Hact Hdel Hrun Htry.
  destruct (getAll_flags_wheelPos _ _ _ _ Hall) as (Hfl & Hpos).
  apply Z.eqb_neq in Hact, Hrun.
  del_enter Hlock Hall.
  all: rewrite Hact, Hdel; change (0 =? 0) with true; cbn [negb andb].
  all: change (wheelNone =? wheelNone) with true; cbv iota.
  all: unfold bind at 1, rd at 1; rewrite load_set_opLock, Hfl, Hrun.
  all: cbn [negb]; rewrite Htry; change (0 =? 0) with true.
  all: unfold when, setFlags_at; unfold bind at 1, wr at 1.
  all: unfold bind at 1; rewrite unlock_run
    by (rewrite ctl_store_opLock; reflexivity).
  all: unfold ret; eexists; split; [reflexivity|].
  all: rewrite load_set_opLock.
  all: split; [rewrite load_set_opLock, load_store_eq; reflexivity|].
  all: split; [intros a Ha; rewrite load_set_opLock, load_store_ne by congruence;
               apply load_set_opLock|].
  all: split; [reflexivity|].
  all: cbn [faults set_wt]; rewrite faults_store; reflexivity.
Qed.

(** [del] on a timer that was removed already. *)
Lemma del_already_removed (fuel : nat) (delF : Z) (tl : addr) w flags idx :
  opLock (wt w) = false ->
  tInfo_getAll (info (load tl w)) = (flags, wheelNone, idx) ->
  Z.land flags fActive <> 0 -> Z.land flags fDelete = 0 ->
  Z.land flags fRunning = 0 -> Z.land flags fRemoved <> 0 ->
  WTimer_del fuel tl delF w = Ok (true, Some ErrAlreadyRemovedTimer) w.
Proof.
  intros Hlock Hall Hact Hdel Hrun Hrem.
  destruct (getAll_flags_wheelPos _ _ _ _ Hall) as (Hfl & Hpos).
  apply Z.eqb_neq in Hact, Hrem.
  del_enter Hlock Hall.
  all: rewrite Hact, Hdel; change (0 =? 0) with true; cbn [negb andb].
  all: change (wheelNone =? wheelNone) with true; cbv iota.
  all: unfold bind at 1, rd at 1; rewrite load_set_opLock, Hfl, Hrun.
  all: change (negb (0 =? 0)) with false; cbv iota.
  all: unfold bind at 1; rewrite unlock_run by reflexivity.
  all: rewrite (unlock_after_lock _ Hlock), Hrem; unfold when.
  all: reflexivity.
Qed.

End Del.

Section DelProperties.
Context {U Arg : Type}.
Implicit Types (w : @World U Arg).

Lemma getAll_of_fields (t : tInfo) (f wh idx : Z) :
  tInfo_flags t = f -> tInfo_wheelPos t = (wh, idx) ->
  tInfo_getAll t = (f, wh, idx).
Proof.
  rewrite flags_fields, wheelPos_fields, getAll_fields.
  intros <- [= <- <-]. reflexivity.
Qed.

(** [DelTry] never sets the [Delete] flag: whenever it returns, every
    timer structure has the [Delete] bit it had before the call. *)
Theorem DelTry_never_sets_Delete (fuel : nat) (tl : addr) w r w' :
  WTimer_DelTry fuel tl w = Ok r w' ->
  forall a, Z.land (tInfo_flags (info (load a w'))) fDelete
            = Z.land (tInfo_flags (info (load a w))) fDelete.
Proof.
  revert w r w'. unfold WTimer_DelTry.
  change (keeps_delete (U:=U) (Arg:=Arg) (WTimer_del fuel tl fDelTry)).
  induction fuel as [|k IH].
  all: cbn [WTimer_del];
    change (Z.land fDelTry fDelTry =? 0) with false;
    repeat first
      [ apply keeps_lock | apply keeps_unlock
      | apply keeps_rQlock_Lock | apply keeps_rQlock_Unlock
      | apply keeps_rQidx | apply keeps_wheelLst
      | apply keeps_rd | apply keeps_ret
      | apply keeps_when | apply keeps_PANIC | apply keeps_BUG
      | apply keeps_rm_and_mark
      | apply keeps_outOfFuel
      | exact IH
      | match goal with |- keeps_delete (if ?c then _ else _) => destruct c end
      | match goal with |- keeps_delete (match ?p with _ => _ end) =>
          destruct p end
      | match goal with |- keeps_delete (bind _ _) =>
          apply keeps_bind; [|intros] end ].
Qed.

(** [DelTry] on an active timer whose callback is running (position
    [None], or still on its run queue in the window before the worker
    unlinks it) and which is not marked for deletion returns
    [(false, nil)] and leaves every timer structure as it is. *)
Theorem DelTry_spares_running_timer (fuel : nat) (tl : addr) w
  flags wheel idx :
  opLock (wt w) = false ->
  tInfo_getAll (info (load tl w)) = (flags, wheel, idx) ->
  Z.land flags fActive <> 0 -> Z.land flags fDelete = 0 ->
  Z.land flags fRunning <> 0 ->
  wheel = wheelNone \/
  (wheel = wheelRQ /\ Z.land flags fRemoved = 0 /\
   0 <= idx < runQueuesNo /\ aget (rQlocks (wt w)) idx = false) ->
  exists w',
    WTimer_DelTry fuel tl w = Ok (false, None) w' /\
    (forall a, load a w' = load a w) /\
    faults w' = faults w /\ opLock (wt w') = false.
Proof.
  intros Hlock Hall Hact Hdel Hrun [->|(-> & Hrem & Hi & Hq)].
  - exists w. split; [|auto].
    apply (del_running_none fuel fDelTry tl w flags idx); auto.
    discriminate.
  - apply (del_running_rq fuel fDelTry tl w flags idx); auto.
    discriminate.
Qed.

(** [Del] on an active timer whose callback is running (position [None])
    returns [(false, nil)] and sets the [Delete] flag of the timer: its
    flags become [flags | fDelete], its position stays, and no other
    structure changes. *)
Theorem Del_marks_running_timer (fuel : nat) (tl : addr) w flags idx :
  opLock (wt w) = false ->
  tInfo_getAll (info (load tl w)) = (flags, wheelNone, idx) ->
  Z.land flags fActive <> 0 -> Z.land flags fDelete = 0 ->
  Z.land flags fRunning <> 0 ->
  exists w',
    WTimer_Del fuel tl w = Ok (false, None) w' /\
    tInfo_getAll (info (load tl w'))
    = (Z.lor flags fDelete, wheelNone, idx) /\
    next (load tl w') = next (load tl w) /\
    prev (load tl w') = prev (load tl w) /\
    (forall a, a <> tl -> load a w' = load a w) /\
    opLock (wt w') = false /\ faults w' = faults w.
Proof.
  intros Hlock Hall Hact Hdel Hrun.
  destruct (del_running_mark fuel 0 tl w flags idx Hlock Hall Hact Hdel Hrun
              eq_refl) as (w' & R & L & F & O & B).
  exists w'. split; [exact R|]. rewrite L. cbn [info set_info next prev].
  split; [|destruct (load tl w); auto].
  rewrite getAll_fields in *. injection Hall as H1 H2 H3.
  rewrite flagsOf_setFlags, wheelOf_setFlags, idxOf_setFlags, H1, H2, H3.
  reflexivity.
Qed.

(** [Del] and [DelTry] on a timer that is not active (never added, or
    fired and discarded) return [(true, ErrInactiveTimer)] and change
    nothing. *)
Theorem Del_inactive_timer (fuel : nat) (tl : addr) w :
  opLock (wt w) = false ->
  Z.land (tInfo_flags (info (load tl w))) fActive = 0 ->
  WTimer_Del fuel tl w = Ok (true, Some ErrInactiveTimer) w /\
  WTimer_DelTry fuel tl w = Ok (true, Some ErrInactiveTimer) w.
Proof.
  intros Hlock Hact.
  destruct (tInfo_getAll (info (load tl w))) as [[flags wheel] idx] eqn:Hall.
  destruct (getAll_flags_wheelPos _ _ _ _ Hall) as (Hfl & _).
  rewrite Hfl in Hact.
  split; eapply del_inactive; eassumption.
Qed.

(** [Del] and [DelTry] on an active timer that is marked for deletion
    already return [ErrDeletedTimer], with [true] iff the timer has
    [fRemoved], and change nothing. *)
Theorem Del_marked_timer (fuel : nat) (tl : addr) w :
  opLock (wt w) = false ->
  Z.land (tInfo_flags (info (load tl w))) fActive <> 0 ->
  Z.land (tInfo_flags (info (load tl w))) fDelete <> 0 ->
  let removed :=
    negb (Z.land (tInfo_flags (info (load tl w))) fRemoved =? 0) in
  WTimer_Del fuel tl w = Ok (removed, Some ErrDeletedTimer) w /\
  WTimer_DelTry fuel tl w = Ok (removed, Some ErrDeletedTimer) w.
Proof.
  intros Hlock Hact Hdel removed. subst removed.
  destruct (tInfo_getAll (info (load tl w))) as [[flags wheel] idx] eqn:Hall.
  destruct (getAll_flags_wheelPos _ _ _ _ Hall) as (Hfl & _).
  rewrite Hfl in *.
  split; eapply del_marked; try eassumption; reflexivity.
Qed.

Lemma land_lor_other (f a b : Z) :
  Z.land a b = 0 -> Z.land (Z.lor f a) b = Z.land f b.
Proof.
  intros H. rewrite Z.land_lor_distr_l, H. apply Z.lor_0_r.
Qed.

(** A second [Del] (or a [DelTry]) after a [Del] that removed the timer
    returns [(true, ErrAlreadyRemovedTimer)] and changes nothing. *)
Theorem Del_twice_AlreadyRemoved (fuel fuel' : nat) (tl p n : addr) w
  flags wheel idx :
  opLock (wt w) = false ->
  tInfo_getAll (info (load tl w)) = (flags, wheel, idx) ->
  Z.land flags fActive <> 0 -> Z.land flags fDelete = 0 ->
  Z.land flags fRemoved = 0 -> Z.land flags fRunning = 0 ->
  waiting_on wheel idx flags w ->
  next (load tl w) = Some n -> prev (load tl w) = Some p ->
  n <> tl -> p <> tl ->
  exists w',
    WTimer_Del fuel tl w = Ok (true, None) w' /\
    WTimer_Del fuel' tl w' = Ok (true, Some ErrAlreadyRemovedTimer) w' /\
    WTimer_DelTry fuel' tl w' = Ok (true, Some ErrAlreadyRemovedTimer) w'.
Proof.
  intros Hlock Hall Hact Hdel Hrem Hrun Hon Hn Hp Hna Hpa.
  assert (exists w', WTimer_del fuel tl 0 w = Ok (true, None) w' /\
                     removed_from tl p n flags w w' /\ opLock (wt w') = false)
    as (w' & R & Rm & O).
  { destruct Hon as [(Hw & Hi)|[(-> & _)|(-> & _ & Hi & Hq)]].
    - eapply del_remove_wheel; eassumption.
    - eapply del_remove_expired; eassumption.
    - eapply del_remove_rq; eassumption. }
  exists w'. split; [exact R|].
  destruct Rm as (_ & _ & _ & Hpos & Hfl & _).
  pose proof (getAll_of_fields _ _ _ _ Hfl Hpos) as Hall'.
  split; eapply del_already_removed; try eassumption.
  all: try (rewrite land_lor_other by reflexivity; assumption).
  all: rewrite Z.land_lor_distr_l; change (Z.land fRemoved fRemoved) with 16;
    intros E; apply Z.lor_eq_0_iff in E; destruct E; discriminate.
Qed.

End DelProperties.

Lemma DelTry_never_sets_Delete_witness :
  WTimer_DelTry 0 (ATimer 0) world_expiring
  = Ok (true, None) (run_on (WTimer_DelTry 0 (ATimer 0)) world_expiring) /\
  Z.land (tInfo_flags (info (load (ATimer 0)
            (run_on (WTimer_DelTry 0 (ATimer 0)) world_expiring)))) fDelete
  = Z.land (tInfo_flags (info (load (ATimer 0) world_expiring))) fDelete.
Proof.
  assert (H : WTimer_DelTry 0 (ATimer 0) world_expiring
              = Ok (true, None)
                  (run_on (WTimer_DelTry 0 (ATimer 0)) world_expiring))
    by (vm_compute; reflexivity).
  split; [exact H|].
  exact (DelTry_never_sets_Delete 0 (ATimer 0) world_expiring _ _ H (ATimer 0)).
Defined.

Lemma DelTry_spares_running_timer_witness :
  tInfo_getAll (info (load (ATimer 0) world_running))
  = (Z.lor Ffast (Z.lor fActive fRunning), wheelNone, wheelNoIdx) /\
  exists w',
    WTimer_DelTry 0 (ATimer 0) world_running = Ok (false, None) w' /\
    forall a, load a w' = load a world_running.
Proof.
  assert (H : tInfo_getAll (info (load (ATimer 0) world_running))
              = (Z.lor Ffast (Z.lor fActive fRunning), wheelNone, wheelNoIdx))
    by (vm_compute; reflexivity).
  split; [exact H|].
  destruct (DelTry_spares_running_timer 0 (ATimer 0) world_running _ _ _
              eq_refl H) as (w' & R & L & _);
    [vm_compute; discriminate | reflexivity | vm_compute; discriminate
    | left; reflexivity |].
  exists w'. split; [exact R | exact L].
Defined.

Lemma Del_marks_running_timer_witness :
  exists w',
    WTimer_Del 0 (ATimer 0) world_running = Ok (false, None) w' /\
    tInfo_getAll (info (load (ATimer 0) w'))
    = (Z.lor (Z.lor Ffast (Z.lor fActive fRunning)) fDelete,
       wheelNone, wheelNoIdx).
Proof.
  destruct (Del_marks_running_timer 0 (ATimer 0) world_running
              (Z.lor Ffast (Z.lor fActive fRunning)) wheelNoIdx eq_refl)
    as (w' & R & G & _);
    [vm_compute; reflexivity | vm_compute; discriminate | reflexivity
    | vm_compute; discriminate |].
  exists w'. split; [exact R | exact G].
Defined.

Lemma Del_inactive_timer_witness :
  WTimer_Del 0 (ATimer 0) world0 = Ok (true, Some ErrInactiveTimer) world0 /\
  WTimer_DelTry 0 (ATimer 0) world0
  = Ok (true, Some ErrInactiveTimer) world0.
Proof.
  apply (Del_inactive_timer 0 (ATimer 0) world0); reflexivity.
Defined.

Lemma Del_marked_timer_witness :
  let w := run_on (WTimer_Del 0 (ATimer 0)) world_running in
  WTimer_Del 0 (ATimer 0) w = Ok (false, Some ErrDeletedTimer) w /\
  WTimer_DelTry 0 (ATimer 0) w = Ok (false, Some ErrDeletedTimer) w.
Proof.
  cbv zeta.
  apply (Del_marked_timer 0 (ATimer 0)
           (run_on (WTimer_Del 0 (ATimer 0)) world_running));
    [reflexivity | vm_compute; discriminate | vm_compute; discriminate].
Defined.

Lemma Del_twice_AlreadyRemoved_witness :
  exists w',
    WTimer_Del 0 (ATimer 0) world_expiring = Ok (true, None) w' /\
    WTimer_Del 0 (ATimer 0) w' = Ok (true, Some ErrAlreadyRemovedTimer) w'.
Proof.
  destruct (Del_twice_AlreadyRemoved 0 0 (ATimer 0) (AHead Lexpired)
              (AHead Lexpired) world_expiring fActive wheelExp wheelNoIdx
              eq_refl)
    as (w' & R & R2 & _);
    [ vm_compute; reflexivity | vm_compute; discriminate | reflexivity
    | reflexivity | reflexivity | right; left; split; reflexivity
    | reflexivity | reflexivity | discriminate | discriminate |].
  exists w'. split; [exact R | exact R2].
Defined.

(** ** Tick values: comparisons and arithmetic at any distance *)

Lemma mod_diff_cases (x y n : Z) :
  0 <= x < n -> 0 <= y < n ->
  (x - y) mod n = if y <=? x then x - y else x - y + n.
Proof.
  intros Hx Hy. destruct (Z.leb_spec y x).
  - apply Z.mod_small. lia.
  - symmetry. apply (Z.mod_unique_pos _ _ (-1)); lia.
Qed.

Lemma Ticks_cmp_Val (a b : Ticks) :
  Ticks_LT a b
  = (2 ^ 47 <=? (Ticks_Val a - Ticks_Val b) mod 2 ^ 48) /\
  Ticks_EQ a b = ((Ticks_Val a - Ticks_Val b) mod 2 ^ 48 =? 0).
Proof.
  rewrite Ticks_LT_sign, Ticks_EQ_mod, diff_mod_Val, MaxTicksDiff_pow2.
  split; reflexivity.
Qed.

(** Whatever the distance between two tick values, exactly one of
    [a.LT(b)], [a.EQ(b)] and [a.GT(b)] holds; [NE], [GE] and [LE] are the
    negations of [EQ], [LT] and [GT]; and [EQ] holds exactly when the
    canonical values are the same. *)
Theorem Ticks_trichotomy (a b : Ticks) :
  ((Ticks_LT a b = true /\ Ticks_EQ a b = false /\ Ticks_GT a b = false) \/
   (Ticks_LT a b = false /\ Ticks_EQ a b = true /\ Ticks_GT a b = false) \/
   (Ticks_LT a b = false /\ Ticks_EQ a b = false /\ Ticks_GT a b = true)) /\
  Ticks_NE a b = negb (Ticks_EQ a b) /\
  Ticks_GE a b = negb (Ticks_LT a b) /\
  Ticks_LE a b = negb (Ticks_GT a b) /\
  Ticks_EQ a b = (Ticks_Val a =? Ticks_Val b).
Proof.
  destruct (Ticks_cmp_Val a b) as (HL & HE).
  pose proof (Ticks_Val_range a) as Ha.
  pose proof (Ticks_Val_range b) as Hb.
  rewrite (mod_diff_cases _ _ _ Ha Hb) in HL, HE.
  rewrite Ticks_GE_sign. unfold Ticks_LE, Ticks_GT, Ticks_NE.
  rewrite HL, HE.
  destruct (Z.leb_spec (Ticks_Val b) (Ticks_Val a));
    repeat match goal with
           | |- context [?x <=? ?y] => destruct (Z.leb_spec x y)
           | |- context [?x =? ?y] => destruct (Z.eqb_spec x y)
           end; cbn; try lia; intuition (auto; lia).
Qed.

(** [a.LT(b)] and [b.GT(a)] agree, and so do [a.GT(b)] and [b.LT(a)],
    unless the two values are exactly [MaxTicksDiff] apart; at that
    distance each is [LT] the other and neither is [GT]. *)
Theorem Ticks_LT_GT_flip (a b : Ticks) :
  (Ticks_Val (Ticks_Sub a b) <> MaxTicksDiff ->
   Ticks_GT b a = Ticks_LT a b /\ Ticks_LT b a = Ticks_GT a b) /\
  (Ticks_Val (Ticks_Sub a b) = MaxTicksDiff ->
   Ticks_LT a b = true /\ Ticks_LT b a = true /\
   Ticks_GT a b = false /\ Ticks_GT b a = false).
Proof.
  destruct (Ticks_cmp_Val a b) as (HL & HE).
  destruct (Ticks_cmp_Val b a) as (HL' & HE').
  pose proof (Ticks_Val_range a) as Ha.
  pose proof (Ticks_Val_range b) as Hb.
  rewrite Ticks_Val_Sub, MaxTicksDiff_pow2.
  change TicksBits with 48. change (48 - 1) with 47.
  rewrite (mod_diff_cases _ _ _ Ha Hb) in *.
  rewrite (mod_diff_cases _ _ _ Hb Ha) in *.
  unfold Ticks_GT, Ticks_NE. rewrite HL, HE, HL', HE'.
  split; intros Hd;
    destruct (Z.leb_spec (Ticks_Val b) (Ticks_Val a));
    destruct (Z.leb_spec (Ticks_Val a) (Ticks_Val b));
    repeat match goal with
           | |- context [?x <=? ?y] => destruct (Z.leb_spec x y)
           | |- context [?x =? ?y] => destruct (Z.eqb_spec x y)
           end; cbn; try lia; auto.
Qed.

Lemma Ticks_LT_GT_flip_witness :
  Ticks_Val (Ticks_Sub (NewTicks MaxTicksDiff) (NewTicks 0)) = MaxTicksDiff /\
  Ticks_LT (NewTicks MaxTicksDiff) (NewTicks 0) = true /\
  Ticks_LT (NewTicks 0) (NewTicks MaxTicksDiff) = true.
Proof.
  assert (H : Ticks_Val (Ticks_Sub (NewTicks MaxTicksDiff) (NewTicks 0))
              = MaxTicksDiff) by (vm_compute; reflexivity).
  split; [exact H|].
  destruct (proj2 (Ticks_LT_GT_flip (NewTicks MaxTicksDiff) (NewTicks 0)) H)
    as (H1 & H2 & _).
  split; [exact H1 | exact H2].
Defined.

Lemma v_Add (a b : Ticks) : v (Ticks_Add a b) = (v a + v b) mod 2 ^ 48.
Proof. unfold Ticks_Add. cbn [v]. now rewrite land_TicksMask, u64_mod48. Qed.

Lemma v_Sub (a b : Ticks) : v (Ticks_Sub a b) = (v a - v b) mod 2 ^ 48.
Proof. unfold Ticks_Sub. cbn [v]. now rewrite land_TicksMask, u64_mod48. Qed.

Lemma v_AddUint64 (a : Ticks) (u : Z) :
  v (Ticks_AddUint64 a u) = (v a + u) mod 2 ^ 48.
Proof.
  unfold Ticks_AddUint64. cbn [v]. now rewrite land_TicksMask, u64_mod48.
Qed.

Lemma v_SubUint64 (a : Ticks) (u : Z) :
  v (Ticks_SubUint64 a u) = (v a - u) mod 2 ^ 48.
Proof.
  unfold Ticks_SubUint64. cbn [v]. now rewrite land_TicksMask, u64_mod48.
Qed.

(** [Sub] undoes [Add] and [Add] undoes [Sub], for tick values and for
    plain numbers ([AddUint64], [SubUint64]), wrap-around included; [Add]
    is commutative. *)
Theorem Ticks_Add_Sub_inverse (a b : Ticks) (u : Z) :
  Ticks_Val (Ticks_Sub (Ticks_Add a b) b) = Ticks_Val a /\
  Ticks_Val (Ticks_Add (Ticks_Sub a b) b) = Ticks_Val a /\
  Ticks_Val (Ticks_SubUint64 (Ticks_AddUint64 a u) u) = Ticks_Val a /\
  Ticks_Val (Ticks_AddUint64 (Ticks_SubUint64 a u) u) = Ticks_Val a /\
  Ticks_EQ (Ticks_Sub (Ticks_Add a b) b) a = true /\
  Ticks_Add a b = Ticks_Add b a.
Proof.
  assert (E1 : Ticks_Val (Ticks_Sub (Ticks_Add a b) b) = Ticks_Val a).
  { rewrite !Ticks_Val_mod, v_Sub, v_Add, Z.mod_mod by lia.
    rewrite Zminus_mod_idemp_l. f_equal. lia. }
  repeat split.
  - exact E1.
  - rewrite !Ticks_Val_mod, v_Add, v_Sub, Z.mod_mod by lia.
    rewrite Zplus_mod_idemp_l. f_equal. lia.
  - rewrite !Ticks_Val_mod, v_SubUint64, v_AddUint64, Z.mod_mod by lia.
    rewrite Zminus_mod_idemp_l. f_equal. lia.
  - rewrite !Ticks_Val_mod, v_AddUint64, v_SubUint64, Z.mod_mod by lia.
    rewrite Zplus_mod_idemp_l. f_equal. lia.
  - destruct (Ticks_cmp_Val (Ticks_Sub (Ticks_Add a b) b) a) as (_ & ->).
    rewrite E1, Z.sub_diag. reflexivity.
  - unfold Ticks_Add. now rewrite Z.add_comm.
Qed.

(** [NewTicks] keeps the low [TicksBits] bits: [Val] of a new tick value
    is the number modulo [2^TicksBits], always below [2^TicksBits], and the
    number itself when that is below [2^TicksBits]; [NewTicks(t.Val())]
    is [EQ] to [t]. *)
Theorem NewTicks_Val_roundtrip (u : Z) (t : Ticks) :
  Ticks_Val (NewTicks u) = u mod 2 ^ TicksBits /\
  0 <= Ticks_Val t < 2 ^ TicksBits /\
  (0 <= u < 2 ^ TicksBits -> Ticks_Val (NewTicks u) = u) /\
  Ticks_Val (NewTicks (Ticks_Val t)) = Ticks_Val t /\
  Ticks_EQ (NewTicks (Ticks_Val t)) t = true.
Proof.
  change TicksBits with 48.
  assert (E : Ticks_Val (NewTicks (Ticks_Val t)) = Ticks_Val t).
  { rewrite Ticks_Val_NewTicks. apply Z.mod_small, Ticks_Val_range. }
  repeat split.
  - apply Ticks_Val_NewTicks.
  - apply Ticks_Val_range.
  - apply Ticks_Val_range.
  - intros Hu. rewrite Ticks_Val_NewTicks. now apply Z.mod_small.
  - exact E.
  - destruct (Ticks_cmp_Val (NewTicks (Ticks_Val t)) t) as (_ & ->).
    rewrite E, Z.sub_diag. reflexivity.
Qed.

(** ** The packed information word *)

Lemma flagsOf_assignFlags (t : tInfo) (m : Z) :
  flagsOf (tInfo_assignFlags t m) = u8 m.
Proof.
  unfold flagsOf, tInfo_assignFlags, flgsBpos, flgsMask. cbn [atomicV].
  change 255 with (Z.ones 8). bitblast.
Qed.

Lemma wheelOf_assignFlags (t : tInfo) (m : Z) :
  wheelOf (tInfo_assignFlags t m) = wheelOf t.
Proof.
  unfold wheelOf, tInfo_assignFlags, flgsBpos, flgsMask. cbn [atomicV].
  change 255 with (Z.ones 8). bitblast.
Qed.

Lemma idxOf_assignFlags (t : tInfo) (m : Z) :
  idxOf (tInfo_assignFlags t m) = idxOf t.
Proof.
  unfold idxOf, tInfo_assignFlags, flgsBpos, flgsMask. cbn [atomicV].
  change 255 with (Z.ones 8). bitblast.
Qed.

Lemma flagsOf_setAll (t : tInfo) (f w idx : Z) :
  0 <= w < 2 ^ 8 -> 0 <= idx < 2 ^ 16 ->
  flagsOf (tInfo_setAll t f w idx) = u8 f.
Proof.
  intros Hw Hidx.
  unfold flagsOf, tInfo_setAll, flgsBpos, wNoBpos. cbn [atomicV].
  replace idx with (idx mod 2 ^ 16) by (now apply Z.mod_small).
  replace w with (w mod 2 ^ 8) by (now apply Z.mod_small).
  bitblast.
Qed.

Lemma wheelOf_setAll (t : tInfo) (f w idx : Z) :
  0 <= idx < 2 ^ 16 ->
  wheelOf (tInfo_setAll t f w idx) = u8 w.
Proof.
  intros Hidx.
  unfold wheelOf, tInfo_setAll, flgsBpos, wNoBpos. cbn [atomicV].
  replace idx with (idx mod 2 ^ 16) by (now apply Z.mod_small).
  bitblast.
Qed.

Lemma idxOf_setAll (t : tInfo) (f w idx : Z) :
  idxOf (tInfo_setAll t f w idx) = u16 idx.
Proof.
  unfold idxOf, tInfo_setAll, flgsBpos, wNoBpos. cbn [atomicV].
  bitblast.
Qed.

(** [setAll] then [getAll] returns the three values stored, and
    [flags] and [wheelPos] return their parts. *)
Theorem tInfo_setAll_getAll (t : tInfo) (f w idx : Z) :
  0 <= f < 2 ^ 8 -> 0 <= w < 2 ^ 8 -> 0 <= idx < 2 ^ 16 ->
  tInfo_getAll (tInfo_setAll t f w idx) = (f, w, idx) /\
  tInfo_flags (tInfo_setAll t f w idx) = f /\
  tInfo_wheelPos (tInfo_setAll t f w idx) = (w, idx).
Proof.
  intros Hf Hw Hidx.
  rewrite flags_fields, wheelPos_fields, getAll_fields.
  rewrite flagsOf_setAll, wheelOf_setAll, idxOf_setAll by assumption.
  unfold u8, u16. rewrite !Z.mod_small by assumption. auto.
Qed.

Lemma tInfo_setAll_getAll_witness :
  tInfo_getAll (tInfo_setAll (mkTInfo 0) (Z.lor fActive Ffast) 2 1000)
  = (Z.lor fActive Ffast, 2, 1000).
Proof.
  apply (tInfo_setAll_getAll (mkTInfo 0) (Z.lor fActive Ffast) 2 1000);
    vm_compute; (split; [discriminate|reflexivity]).
Defined.

(** [setWheel] replaces the wheel number and the index and keeps the
    flags. *)
Theorem tInfo_setWheel_keeps_flags (t : tInfo) (w idx : Z) :
  0 <= w < 2 ^ 8 -> 0 <= idx < 2 ^ 16 ->
  tInfo_getAll (tInfo_setWheel t w idx) = (tInfo_flags t, w, idx) /\
  tInfo_wheelPos (tInfo_setWheel t w idx) = (w, idx).
Proof.
  intros Hw Hidx.
  rewrite flags_fields, wheelPos_fields, getAll_fields.
  rewrite flagsOf_setWheel, wheelOf_setWheel, idxOf_setWheel by assumption.
  unfold u8, u16. rewrite !Z.mod_small by assumption. auto.
Qed.

Lemma tInfo_setWheel_keeps_flags_witness :
  tInfo_getAll (tInfo_setWheel (tInfo_setFlags (mkTInfo 0) fActive)
                  wheelExp wheelNoIdx)
  = (tInfo_flags (tInfo_setFlags (mkTInfo 0) fActive), wheelExp, wheelNoIdx).
Proof.
  apply (tInfo_setWheel_keeps_flags (tInfo_setFlags (mkTInfo 0) fActive)
           wheelExp wheelNoIdx); vm_compute; (split; [discriminate|reflexivity]).
Defined.

(** The four flag updates change the flags as their names say and keep
    the wheel position: [setFlags] ors the mask in, [resetFlags] clears
    it, [chgFlags] clears [resetMask] and then sets [setMask] (a bit in
    both masks ends up set), [assignFlags] replaces the flags. *)
Theorem tInfo_flag_updates (t : tInfo) (m sm rm : Z) :
  (tInfo_flags (tInfo_setFlags t m) = Z.lor (tInfo_flags t) (u8 m) /\
   tInfo_wheelPos (tInfo_setFlags t m) = tInfo_wheelPos t) /\
  (tInfo_flags (tInfo_resetFlags t m) = Z.land (tInfo_flags t) (not8 m) /\
   tInfo_wheelPos (tInfo_resetFlags t m) = tInfo_wheelPos t) /\
  (tInfo_flags (tInfo_chgFlags t sm rm)
   = Z.lor (Z.land (tInfo_flags t) (not8 rm)) (u8 sm) /\
   tInfo_wheelPos (tInfo_chgFlags t sm rm) = tInfo_wheelPos t) /\
  (tInfo_flags (tInfo_assignFlags t m) = u8 m /\
   tInfo_wheelPos (tInfo_assignFlags t m) = tInfo_wheelPos t).
Proof.
  rewrite !flags_fields, !wheelPos_fields.
  rewrite flagsOf_setFlags, wheelOf_setFlags, idxOf_setFlags.
  rewrite flagsOf_resetFlags, wheelOf_resetFlags, idxOf_resetFlags.
  rewrite flagsOf_chgFlags, wheelOf_chgFlags, idxOf_chgFlags.
  rewrite flagsOf_assignFlags, wheelOf_assignFlags, idxOf_assignFlags.
  repeat split.
Qed.

(** ** Linking and unlinking on any list *)

Section ListLinks.
Context {U Arg : Type}.
Implicit Types (w : @World U Arg) (x : @TimerLnk U Arg).

(** [append] of a detached entry to a list whose last entry is [p] (the
    head itself when the list is empty). *)
Lemma timerLst_append_spec (lst : lstRef) (e p : addr) w :
  e <> AHead lst -> p <> e ->
  prev (load (AHead lst) w) = Some p ->
  TimerLnk_Detached e (load e w) = true ->
  tInfo_wheelPos (info (load e w)) = (wheelNone, wheelNoIdx) ->
  exists w',
    timerLst_append lst e w = Ok tt w' /\
    frame [e; p; AHead lst] w w' /\ faults w' = faults w /\
    load e w'
    = set_info (tInfo_setWheel (info (load e w))
                  (fst (lstTag lst w)) (snd (lstTag lst w)))
        (set_next (Some (AHead lst)) (set_prev (Some p) (load e w))) /\
    load p w'
    = (if addr_eq_dec p (AHead lst)
       then set_prev (Some e) (set_next (Some e) (load p w))
       else set_next (Some e) (load p w)) /\
    load (AHead lst) w'
    = (if addr_eq_dec p (AHead lst)
       then set_prev (Some e) (set_next (Some e) (load p w))
       else set_prev (Some e) (load (AHead lst) w)).
Proof.
  intros He Hpe Hp Hd Hpos.
  unfold timerLst_append. mrun. rewrite Hd. cbn [negb]. mrun.
  rewrite Hp. mload. cbn [prev next set_prev set_next deref]. mrun.
  mload. cbn [info set_next set_prev]. rewrite Hpos.
  cbn [negb orb Z.eqb wheelNone wheelNoIdx].
  cbn [Pos.eqb negb orb]. mrun.
  eexists. split; [reflexivity|].
  split; [|split; [|split; [|split]]].
  - repeat (apply frame_store_r; [cbn; tauto|]). apply frame_refl.
  - now rewrite !faults_store.
  - mload. mtag. reflexivity.
  - destruct (addr_eq_dec p (AHead lst)) as [->|Hph]; mload; reflexivity.
  - destruct (addr_eq_dec p (AHead lst)) as [->|Hph]; mload; reflexivity.
Qed.

(** [insert] of a detached entry into a list whose first entry is [n]
    (the head itself when the list is empty). *)
Lemma timerLst_insert_spec (lst : lstRef) (e n : addr) w :
  e <> AHead lst -> n <> e ->
  next (load (AHead lst) w) = Some n ->
  TimerLnk_Detached e (load e w) = true ->
  tInfo_wheelPos (info (load e w)) = (wheelNone, wheelNoIdx) ->
  exists w',
    timerLst_insert lst e w = Ok tt w' /\
    frame [e; n; AHead lst] w w' /\ faults w' = faults w /\
    load e w'
    = set_info (tInfo_setWheel (info (load e w))
                  (fst (lstTag lst w)) (snd (lstTag lst w)))
        (set_next (Some n) (set_prev (Some (AHead lst)) (load e w))) /\
    load n w'
    = (if addr_eq_dec n (AHead lst)
       then set_next (Some e) (set_prev (Some e) (load n w))
       else set_prev (Some e) (load n w)) /\
    load (AHead lst) w'
    = (if addr_eq_dec n (AHead lst)
       then set_next (Some e) (set_prev (Some e) (load n w))
       else set_next (Some e) (load (AHead lst) w)).
Proof.
  intros He Hne Hn Hd Hpos.
  unfold timerLst_insert. mrun. rewrite Hd. cbn [negb]. mrun.
  mload. rewrite Hn. cbn [prev next set_prev set_next deref]. mrun.
  mload. cbn [info set_next set_prev]. rewrite Hpos.
  cbn [negb orb Z.eqb wheelNone wheelNoIdx].
  cbn [Pos.eqb negb orb]. mrun.
  eexists. split; [reflexivity|].
  split; [|split; [|split; [|split]]].
  - repeat (apply frame_store_r; [cbn; tauto|]). apply frame_refl.
  - now rewrite !faults_store.
  - mload. mtag. reflexivity.
  - destruct (addr_eq_dec n (AHead lst)) as [->|Hnh]; mload; reflexivity.
  - destruct (addr_eq_dec n (AHead lst)) as [->|Hnh]; mload; reflexivity.
Qed.

Lemma set_next_same x (q q' : ptr) :
  next x = q -> set_next q (set_next q' x) = x.
Proof. destruct x. cbn. intros ->. reflexivity. Qed.

Lemma set_prev_same x (q q' : ptr) :
  prev x = q -> set_prev q (set_prev q' x) = x.
Proof. destruct x. cbn. intros ->. reflexivity. Qed.

Lemma set_links_same x (q r q' r' : ptr) :
  next x = q -> prev x = r ->
  set_prev r (set_next q (set_prev r' (set_next q' x))) = x /\
  set_prev r (set_next q (set_next q' (set_prev r' x))) = x.
Proof. destruct x. cbn. intros -> ->. split; reflexivity. Qed.

(** The information word after the entry went on a list and came off it
    again. *)
Lemma getAll_on_off (t : tInfo) (n i : Z) :
  0 <= n < 2 ^ 8 -> 0 <= i < 2 ^ 16 ->
  tInfo_wheelPos t = (wheelNone, wheelNoIdx) ->
  tInfo_wheelPos (tInfo_setWheel t n i) = (n, i) /\
  tInfo_getAll (tInfo_setWheel (tInfo_setWheel t n i) wheelNone wheelNoIdx)
  = tInfo_getAll t.
Proof.
  intros Hn Hi Hpos. rewrite wheelPos_fields in *. rewrite !getAll_fields.
  injection Hpos as H1 H2.
  rewrite !flagsOf_setWheel, !wheelOf_setWheel, !idxOf_setWheel
    by (unfold wheelNone, wheelNoIdx; lia).
  unfold u8, u16. rewrite !Z.mod_small by lia.
  rewrite H1, H2. split; reflexivity.
Qed.

(** [append] links a detached entry as the last of the list, gives it
    the list's position, and [rm] afterwards puts every other structure
    back as it was; the entry then is detached (linked to itself) with
    its old flags and position. *)
Theorem timerLst_append_rm_roundtrip (lst : lstRef) (e p : addr) w :
  e <> AHead lst -> p <> e ->
  prev (load (AHead lst) w) = Some p ->
  next (load p w) = Some (AHead lst) ->
  TimerLnk_Detached e (load e w) = true ->
  tInfo_wheelPos (info (load e w)) = (wheelNone, wheelNoIdx) ->
  0 <= fst (lstTag lst w) < 2 ^ 8 -> 0 <= snd (lstTag lst w) < 2 ^ 16 ->
  exists w1 w2,
    timerLst_append lst e w = Ok tt w1 /\
    prev (load (AHead lst) w1) = Some e /\ next (load p w1) = Some e /\
    next (load e w1) = Some (AHead lst) /\ prev (load e w1) = Some p /\
    tInfo_wheelPos (info (load e w1)) = lstTag lst w /\
    timerLst_rm lst (Some e) w1 = Ok tt w2 /\
    (forall a, a <> e -> load a w2 = load a w) /\
    TimerLnk_Detached e (load e w2) = true /\
    tInfo_getAll (info (load e w2)) = tInfo_getAll (info (load e w)) /\
    faults w2 = faults w.
Proof.
  intros He Hpe Hp Hpn Hd Hpos Ht1 Ht2.
  destruct (timerLst_append_spec lst e p w He Hpe Hp Hd Hpos)
    as (w1 & R1 & F1 & B1 & Le & Lp & Lh).
  destruct (getAll_on_off (info (load e w)) _ _ Ht1 Ht2 Hpos) as (Hon & Hoff).
  assert (Hen : next (load e w1) = Some (AHead lst)) by (rewrite Le; reflexivity).
  assert (Hep : prev (load e w1) = Some p) by (rewrite Le; reflexivity).
  destruct (timerLst_rm_spec lst e p (AHead lst) w1 Hen Hep
              (not_eq_sym He) Hpe)
    as (w2 & R2 & F2 & B2 & Le2 & Lp2 & Lh2).
  exists w1, w2.
  split; [exact R1|].
  split; [rewrite Lh; destruct (addr_eq_dec p (AHead lst)); reflexivity|].
  split; [rewrite Lp; destruct (addr_eq_dec p (AHead lst)); reflexivity|].
  split; [exact Hen|]. split; [exact Hep|].
  assert (Htag : tInfo_wheelPos (info (load e w1)) = lstTag lst w).
  { rewrite Le. cbn [info set_info]. rewrite Hon.
    destruct (lstTag lst w); reflexivity. }
  split; [exact Htag|].
  split; [exact R2|].
  split; [|split; [|split]].
  - intros a Ha.
    destruct (addr_eq_dec a p) as [->|Hap].
    + rewrite Lp2, Lp.
      destruct (addr_eq_dec p (AHead lst)) as [E|E].
      * rewrite E in *. apply set_links_same; assumption.
      * apply set_next_same. exact Hpn.
    + destruct (addr_eq_dec a (AHead lst)) as [->|Hah].
      * rewrite Lh2, Lh.
        destruct (addr_eq_dec p (AHead lst)) as [E|E]; [congruence|].
        apply set_prev_same. exact Hp.
      * destruct F2 as (F2 & _). destruct F1 as (F1 & _).
        rewrite F2, F1; [reflexivity| |]; cbn; intuition congruence.
  - rewrite Le2. unfold TimerLnk_Detached. cbn [next set_next set_prev set_info].
    rewrite ptr_eqb_refl. reflexivity.
  - rewrite Le2, Le. cbn [info set_info set_next set_prev]. exact Hoff.
  - rewrite B2, B1; [reflexivity|].
    destruct F1 as (_ & T1 & _). rewrite T1. exact Htag.
Qed.

(** [insert] links a detached entry as the first of the list, and [rm]
    afterwards puts every other structure back as it was. *)
Theorem timerLst_insert_rm_roundtrip (lst : lstRef) (e n : addr) w :
  e <> AHead lst -> n <> e ->
  next (load (AHead lst) w) = Some n ->
  prev (load n w) = Some (AHead lst) ->
  TimerLnk_Detached e (load e w) = true ->
  tInfo_wheelPos (info (load e w)) = (wheelNone, wheelNoIdx) ->
  0 <= fst (lstTag lst w) < 2 ^ 8 -> 0 <= snd (lstTag lst w) < 2 ^ 16 ->
  exists w1 w2,
    timerLst_insert lst e w = Ok tt w1 /\
    next (load (AHead lst) w1) = Some e /\ prev (load n w1) = Some e /\
    next (load e w1) = Some n /\ prev (load e w1) = Some (AHead lst) /\
    tInfo_wheelPos (info (load e w1)) = lstTag lst w /\
    timerLst_rm lst (Some e) w1 = Ok tt w2 /\
    (forall a, a <> e -> load a w2 = load a w) /\
    TimerLnk_Detached e (load e w2) = true /\
    tInfo_getAll (info (load e w2)) = tInfo_getAll (info (load e w)) /\
    faults w2 = faults w.
Proof.
  intros He Hne Hn Hnp Hd Hpos Ht1 Ht2.
  destruct (timerLst_insert_spec lst e n w He Hne Hn Hd Hpos)
    as (w1 & R1 & F1 & B1 & Le & Ln & Lh).
  destruct (getAll_on_off (info (load e w)) _ _ Ht1 Ht2 Hpos) as (Hon & Hoff).
  assert (Hen : next (load e w1) = Some n) by (rewrite Le; reflexivity).
  assert (Hep : prev (load e w1) = Some (AHead lst))
    by (rewrite Le; reflexivity).
  destruct (timerLst_rm_spec lst e (AHead lst) n w1 Hen Hep Hne
              (not_eq_sym He))
    as (w2 & R2 & F2 & B2 & Le2 & Lh2 & Ln2).
  exists w1, w2.
  split; [exact R1|].
  split; [rewrite Lh; destruct (addr_eq_dec n (AHead lst)); reflexivity|].
  split; [rewrite Ln; destruct (addr_eq_dec n (AHead lst)); reflexivity|].
  split; [exact Hen|]. split; [exact Hep|].
  assert (Htag : tInfo_wheelPos (info (load e w1)) = lstTag lst w).
  { rewrite Le. cbn [info set_info]. rewrite Hon.
    destruct (lstTag lst w); reflexivity. }
  split; [exact Htag|].
  split; [exact R2|].
  split; [|split; [|split]].
  - intros a Ha.
    destruct (addr_eq_dec a (AHead lst)) as [->|Hah].
    + rewrite Lh2, Lh.
      destruct (addr_eq_dec (AHead lst) n) as [E|E].
      * rewrite <- E in *.
        destruct (addr_eq_dec (AHead lst) (AHead lst)); [|congruence].
        apply set_links_same; assumption.
      * destruct (addr_eq_dec n (AHead lst)); [congruence|].
        apply set_next_same. exact Hn.
    + destruct (addr_eq_dec a n) as [->|Han].
      * rewrite Ln2, Ln.
        destruct (addr_eq_dec (AHead lst) n) as [E|E]; [congruence|].
        destruct (addr_eq_dec n (AHead lst)); [congruence|].
        apply set_prev_same. exact Hnp.
      * destruct F2 as (F2 & _). destruct F1 as (F1 & _).
        rewrite F2, F1; [reflexivity| |]; cbn; intuition congruence.
  - rewrite Le2. unfold TimerLnk_Detached. cbn [next set_next set_prev set_info].
    rewrite ptr_eqb_refl. reflexivity.
  - rewrite Le2, Le. cbn [info set_info set_next set_prev]. exact Hoff.
  - rewrite B2, B1; [reflexivity|].
    destruct F1 as (_ & T1 & _). rewrite T1. exact Htag.
Qed.

(** [init] empties a list whatever it held: afterwards [isEmpty] is
    true, the list and its head carry the position given, the head has
    [fHead], and nothing but the list changed. *)
Theorem timerLst_init_isEmpty (l : lstRef) (n i : Z) w :
  0 <= n < 2 ^ 8 -> 0 <= i < 2 ^ 16 ->
  exists w',
    timerLst_init l n i w = Ok tt w' /\
    timerLst_isEmpty l w' = Ok true w' /\
    lstTag l w' = (n, i) /\
    tInfo_wheelPos (info (load (AHead l) w')) = (n, i) /\
    Z.land (tInfo_flags (info (load (AHead l) w'))) fHead = fHead /\
    (forall a, a <> AHead l -> load a w' = load a w) /\
    faults w' = faults w.
Proof.
  intros Hn Hi.
  destruct (timerLst_init_spec l n i w Hn Hi)
    as (w' & R & (I1 & I2 & I3 & I4 & I5 & I6) & (O1 & O2 & O3)).
  exists w'. split; [exact R|].
  split.
  { unfold timerLst_isEmpty. mrun. cbn [load]. rewrite I1, ptr_eqb_refl.
    reflexivity. }
  split; [unfold lstTag; rewrite I3, I4; reflexivity|].
  split; [exact I6|]. split; [exact I5|].
  split.
  - intros [l'|k] Ha; cbn [load].
    + rewrite O1; [reflexivity|congruence].
    + rewrite O3. reflexivity.
  - rewrite O3. reflexivity.
Qed.

(** [mv] on an empty list returns false and changes nothing, with no
    iteration needed. *)
Theorem timerLst_mv_empty (fuel : nat) (lst dst : lstRef) w :
  next (load (AHead lst) w) = Some (AHead lst) ->
  prev (load (AHead lst) w) = Some (AHead lst) ->
  timerLst_mv fuel lst dst w = Ok false w.
Proof.
  intros Hn Hp. unfold timerLst_mv, timerLst_rmSubList. mrun.
  rewrite Hp.
  repeat (progress (rewrite ?Hp, ?Hn, ?ptr_eqb_refl;
                    cbn [is_nil orb andb negb]; cbv beta iota)).
  reflexivity.
Qed.

End ListLinks.

Lemma timerLst_append_rm_roundtrip_witness :
  exists w1 w2,
    timerLst_append Lexpired (ATimer 0) world_listed = Ok tt w1 /\
    timerLst_rm Lexpired (Some (ATimer 0)) w1 = Ok tt w2 /\
    forall a, a <> ATimer 0 -> load a w2 = load a world_listed.
Proof.
  destruct (timerLst_append_rm_roundtrip Lexpired (ATimer 0) (AHead Lexpired)
              world_listed)
    as (w1 & w2 & R1 & _ & _ & _ & _ & _ & R2 & L & _);
    [ discriminate | discriminate | reflexivity | reflexivity | reflexivity
    | reflexivity | vm_compute; (split; [discriminate|reflexivity])
    | vm_compute; (split; [discriminate|reflexivity]) |].
  exists w1, w2. split; [exact R1|]. split; [exact R2 | exact L].
Defined.

Lemma timerLst_insert_rm_roundtrip_witness :
  exists w1 w2,
    timerLst_insert Lexpired (ATimer 0) world_listed = Ok tt w1 /\
    timerLst_rm Lexpired (Some (ATimer 0)) w1 = Ok tt w2 /\
    forall a, a <> ATimer 0 -> load a w2 = load a world_listed.
Proof.
  destruct (timerLst_insert_rm_roundtrip Lexpired (ATimer 0) (AHead Lexpired)
              world_listed)
    as (w1 & w2 & R1 & _ & _ & _ & _ & _ & R2 & L & _);
    [ discriminate | discriminate | reflexivity | reflexivity | reflexivity
    | reflexivity | vm_compute; (split; [discriminate|reflexivity])
    | vm_compute; (split; [discriminate|reflexivity]) |].
  exists w1, w2. split; [exact R1|]. split; [exact R2 | exact L].
Defined.

Lemma timerLst_init_isEmpty_witness :
  exists w',
    timerLst_init Lexpired wheelExp wheelNoIdx world_expiring = Ok tt w' /\
    timerLst_isEmpty Lexpired w' = Ok true w'.
Proof.
  destruct (timerLst_init_isEmpty Lexpired wheelExp wheelNoIdx world_expiring)
    as (w' & R & E & _);
    [ vm_compute; (split; [discriminate|reflexivity])
    | vm_compute; (split; [discriminate|reflexivity]) |].
  exists w'. split; [exact R | exact E].
Defined.

Lemma timerLst_mv_empty_witness :
  timerLst_mv 0 Lexpired (LrQs 0) world_listed = Ok false world_listed.
Proof.
  apply (timerLst_mv_empty 0 Lexpired (LrQs 0) world_listed); reflexivity.
Defined.

(** ** Preparing and adding timers *)

Section AddTimers.
Context {U Arg : Type}.
Implicit Types (w : @World U Arg) (x : @TimerLnk U Arg).

Lemma land_not8_internal (flags : Z) :
  u8 (Z.land flags (not8 fInternalMask)) = Z.land flags (not8 fInternalMask).
Proof.
  change (not8 fInternalMask) with 224. unfold u8.
  rewrite <- Z.land_ones by lia. rewrite <- Z.land_assoc. reflexivity.
Qed.

(** [InitTimer] never fails, whatever the handle held before: the handle
    is zeroed, gets nil links (so it is detached), the position
    [(None, NoIdx)], and as flags the user's flags without the internal
    ones; nothing else changes. *)
Theorem InitTimer_always_succeeds (tl : addr) (flags : Z) w :
  exists w',
    WTimer_InitTimer tl flags w = Ok None w' /\
    next (load tl w') = None /\ prev (load tl w') = None /\
    TimerLnk_Detached tl (load tl w') = true /\
    tInfo_getAll (info (load tl w'))
    = (Z.land flags (not8 fInternalMask), wheelNone, wheelNoIdx) /\
    f (load tl w') = None /\ arg (load tl w') = None /\
    intvl (load tl w') = 0 /\
    (forall a, a <> tl -> load a w' = load a w) /\
    faults w' = faults w.
Proof.
  unfold WTimer_InitTimer, WTimer_Reset. mrun. mload.
  cbn [info set_info TimerLnk_zero next prev is_nil negb orb].
  assert (E : tInfo_flags (tInfo_setWheel (mkTInfo 0) wheelNone wheelNoIdx) = 0)
    by reflexivity.
  rewrite E. cbn [Z.land Z.eqb negb andb]. cbv beta iota.
  eexists. split; [reflexivity|]. mload.
  cbn [info set_info next prev f arg intvl].
  repeat split.
  - rewrite getAll_fields, flagsOf_chgFlags, wheelOf_chgFlags, idxOf_chgFlags.
    rewrite land_not8_internal. reflexivity.
  - intros a Ha. mload. reflexivity.
  - now rewrite !faults_store.
Qed.

Lemma sanity_active (tl : addr) (d : Z) fn w :
  Z.land (tInfo_flags (info (load tl w))) fActive <> 0 ->
  WTimer_addSanityChecks tl d fn w = Ok (Some ErrActiveTimer) w.
Proof.
  intros H. apply Z.eqb_neq in H.
  unfold WTimer_addSanityChecks. mrun. rewrite H. reflexivity.
Qed.

Lemma sanity_unreset (tl : addr) (d : Z) fn w :
  Z.land (tInfo_flags (info (load tl w))) fActive = 0 ->
  Z.land (tInfo_flags (info (load tl w))) fRunning <> 0 \/
  Z.land (tInfo_flags (info (load tl w))) fRemoved <> 0 ->
  WTimer_addSanityChecks tl d fn w = Ok (Some ErrNotResetTimer) w.
Proof.
  intros Ha H.
  unfold WTimer_addSanityChecks. mrun. rewrite Ha. cbn [Z.eqb negb].
  destruct (Z.eqb_spec (Z.land (tInfo_flags (info (load tl w))) fRunning) 0)
    as [E|E]; [|reflexivity].
  destruct H as [H|H]; [contradiction|].
  apply Z.eqb_neq in H. cbn [negb]. rewrite H. reflexivity.
Qed.

Lemma sanity_fresh (tl : addr) (d : Z) fn w :
  Z.land (tInfo_flags (info (load tl w))) fActive = 0 ->
  Z.land (tInfo_flags (info (load tl w))) fRunning = 0 ->
  Z.land (tInfo_flags (info (load tl w))) fRemoved = 0 ->
  next (load tl w) = None -> prev (load tl w) = None ->
  tInfo_wheelPos (info (load tl w)) = (wheelNone, wheelNoIdx) ->
  WTimer_addSanityChecks tl d fn w
  = Ok (match fn with None => Some ErrInvalidParameters | Some _ => None end)
      w.
Proof.
  intros Ha Hr Hm Hn Hp Hpos.
  unfold WTimer_addSanityChecks. mrun.
  rewrite Ha, Hr, Hm, Hn, Hp, Hpos. cbn [Z.eqb negb is_nil orb].
  change (negb (wheelNone =? wheelNone) || negb (wheelNoIdx =? wheelNoIdx))
    with false. cbv iota.
  destruct fn; reflexivity.
Qed.

(** A failed check is all that [Add], [AddT] and [AddExpire] do. *)
Lemma Add_family_rejected (tl : addr) (e : error) fn (p : option Arg) w :
  opLock (wt w) = false ->
  (forall d,
     WTimer_addSanityChecks tl d fn (set_wt (set_opLock true (wt w)) w)
     = Ok (Some e) (set_wt (set_opLock true (wt w)) w)) ->
  forall (d : Z) (delta exp : Ticks),
    WTimer_Add tl d fn p w = Ok (Some e) w /\
    WTimer_AddT tl delta fn p w = Ok (Some e) w /\
    WTimer_AddExpire tl exp fn p w = Ok (Some e) w.
Proof.
  intros Hlock Hs'.
  assert (HA : forall d, WTimer_Add tl d fn p w = Ok (Some e) w).
  { intros d. unfold WTimer_Add.
    unfold bind at 1. rewrite (lock_run _ Hlock).
    unfold bind at 1. rewrite Hs'.
    unfold bind at 1. rewrite unlock_run by reflexivity.
    unfold ret. rewrite (unlock_after_lock _ Hlock). reflexivity. }
  intros d delta exp. split; [apply HA|]. split.
  - unfold WTimer_AddT. unfold bind at 1, rdWt at 1. apply HA.
  - unfold WTimer_AddExpire. unfold bind at 1, rdWt at 1. cbv zeta.
    unfold bind at 1. rewrite (lock_run _ Hlock).
    unfold bind at 1. rewrite Hs'.
    unfold bind at 1. rewrite unlock_run by reflexivity.
    unfold ret. rewrite (unlock_after_lock _ Hlock). reflexivity.
Qed.

(** [Add], [AddT] and [AddExpire] on a handle that is in use change
    nothing and answer [ErrActiveTimer] when the handle has [fActive], and
    [ErrNotResetTimer] when it has not but has [fRunning] or [fRemoved]. *)
Theorem Add_rejects_timer_in_use (tl : addr) fn (p : option Arg)
  (d : Z) (delta exp : Ticks) w :
  opLock (wt w) = false ->
  (Z.land (tInfo_flags (info (load tl w))) fActive <> 0 ->
   WTimer_Add tl d fn p w = Ok (Some ErrActiveTimer) w /\
   WTimer_AddT tl delta fn p w = Ok (Some ErrActiveTimer) w /\
   WTimer_AddExpire tl exp fn p w = Ok (Some ErrActiveTimer) w) /\
  (Z.land (tInfo_flags (info (load tl w))) fActive = 0 ->
   Z.land (tInfo_flags (info (load tl w))) fRunning <> 0 \/
   Z.land (tInfo_flags (info (load tl w))) fRemoved <> 0 ->
   WTimer_Add tl d fn p w = Ok (Some ErrNotResetTimer) w /\
   WTimer_AddT tl delta fn p w = Ok (Some ErrNotResetTimer) w /\
   WTimer_AddExpire tl exp fn p w = Ok (Some ErrNotResetTimer) w).
Proof.
  intros Hlock. split.
  - intros Ha. apply Add_family_rejected; [exact Hlock|].
    intros d'. apply sanity_active. rewrite load_set_opLock. exact Ha.
  - intros Ha Hr. apply Add_family_rejected; [exact Hlock|].
    intros d'. apply sanity_unreset; rewrite load_set_opLock; assumption.
Qed.

(** [Add], [AddT] and [AddExpire] with a nil callback on a handle that is
    ready to be added change nothing and answer [ErrInvalidParameters]. *)
Theorem Add_rejects_nil_callback (tl : addr) (p : option Arg)
  (d : Z) (delta exp : Ticks) w :
  opLock (wt w) = false ->
  Z.land (tInfo_flags (info (load tl w))) fActive = 0 ->
  Z.land (tInfo_flags (info (load tl w))) fRunning = 0 ->
  Z.land (tInfo_flags (info (load tl w))) fRemoved = 0 ->
  next (load tl w) = None -> prev (load tl w) = None ->
  tInfo_wheelPos (info (load tl w)) = (wheelNone, wheelNoIdx) ->
  WTimer_Add tl d None p w = Ok (Some ErrInvalidParameters) w /\
  WTimer_AddT tl delta None p w = Ok (Some ErrInvalidParameters) w /\
  WTimer_AddExpire tl exp None p w = Ok (Some ErrInvalidParameters) w.
Proof.
  intros Hlock Ha Hr Hm Hn Hp Hpos.
  apply Add_family_rejected; [exact Hlock|].
  intros d'.
  apply (sanity_fresh tl d' None); rewrite load_set_opLock; assumption.
Qed.

Lemma getWheelPos_slot (exp now : Ticks) (wh idx : Z) :
  getWheelPos exp now = (wh, idx) ->
  (wh = wheelExp /\ idx = wheelNoIdx) \/
  (0 <= wh < WheelsNo /\ exists n, wheelEntries wh = Some n /\ 0 <= idx < n).
Proof.
  rewrite getWheelPos_cases. cbv zeta.
  pose proof (wheel0Pos_range (Ticks_Val exp)).
  pose proof (wheel1Pos_range (Ticks_Val exp)).
  pose proof (wheel2Pos_range (Ticks_Val exp)).
  pose proof (wheel3Pos_range (Ticks_Val exp)).
  repeat match goal with
         | |- context [if ?c then _ else _] => destruct c
         end; intros [= <- <-]; [left; split; reflexivity|right..];
    (split; [unfold WheelsNo; lia|]).
  - exists 16384. split; [reflexivity|lia].
  - exists 16384. split; [reflexivity|lia].
  - exists 1024. split; [reflexivity|lia].
  - exists 1024. split; [reflexivity|lia].
Qed.

(** [appendTimer] at a position that [getWheelPos] answers is [append]
    to the list of that position. *)
Lemma appendTimer_is_append (tl : addr) (exp now : Ticks) (wh idx : Z) w w' :
  wheels_ready (wt w) ->
  getWheelPos exp now = (wh, idx) ->
  timerLst_append (slotLst wh idx) tl w = Ok tt w' ->
  WTimer_appendTimer tl wh idx w = Ok None w'.
Proof.
  intros Hr Hg R.
  unfold WTimer_appendTimer.
  destruct (getWheelPos_slot exp now wh idx Hg)
    as [(-> & ->)|(Hw & n & Hn & Hi)].
  - change (wheelExp <? WheelsNo) with false.
    change (wheelExp =? wheelExp) with true. cbv iota.
    unfold bind at 1. change (slotLst wheelExp wheelNoIdx) with Lexpired in R.
    rewrite R. reflexivity.
  - destruct (Z.ltb_spec wh WheelsNo); [|lia].
    unfold bind at 1.
    rewrite (wheelLst_ok wh idx (wheelOff wh) n w Hw (Hr wh n Hn) Hi).
    assert (E : slotLst wh idx = Lwlists (wheelOff wh + idx)).
    { unfold slotLst. destruct (Z.eqb_spec wh wheelExp) as [E|E];
        [unfold wheelExp, WheelsNo in *; lia|reflexivity]. }
    rewrite E in R. unfold bind at 1. rewrite R. reflexivity.
Qed.

Lemma wheels_ready_store a x w :
  wheels_ready (wt w) -> wheels_ready (wt (store a x w)).
Proof.
  unfold wheels_ready. intros H k n Hk.
  rewrite (ctl_wheels _ _ (ctl_store a x w)). apply H, Hk.
Qed.

Lemma wheels_ready_lock (b : bool) w :
  wheels_ready (wt w) -> wheels_ready (wt (set_wt (set_opLock b (wt w)) w)).
Proof.
  unfold wheels_ready. intros H k n Hk. cbn [wt set_wt].
  rewrite wheels_set_opLock. apply H, Hk.
Qed.

Lemma lstTag_set_opLock (b : bool) l w :
  lstTag l (set_wt (set_opLock b (wt w)) w) = lstTag l w.
Proof. unfold lstTag. cbn [wt set_wt]. destruct (wt w), l; reflexivity. Qed.

(** [AddExpire] of a handle that is ready to be added. *)
Lemma AddExpire_spec (tl q : addr) (exp : Ticks)
  (fn : @TimerHandlerF U Arg) (p : option Arg) (wh idx : Z) w :
  wheels_ready (wt w) -> opLock (wt w) = false ->
  Z.land (tInfo_flags (info (load tl w))) fActive = 0 ->
  Z.land (tInfo_flags (info (load tl w))) fRunning = 0 ->
  Z.land (tInfo_flags (info (load tl w))) fRemoved = 0 ->
  next (load tl w) = None -> prev (load tl w) = None ->
  tInfo_wheelPos (info (load tl w)) = (wheelNone, wheelNoIdx) ->
  getWheelPos exp (WTimer_Now (wt w)) = (wh, idx) ->
  lstTag (slotLst wh idx) w = (wh, idx) ->
  tl <> AHead (slotLst wh idx) -> q <> tl ->
  prev (load (AHead (slotLst wh idx)) w) = Some q ->
  exists w',
    WTimer_AddExpire tl exp (Some fn) p w = Ok None w' /\
    next (load tl w') = Some (AHead (slotLst wh idx)) /\
    prev (load tl w') = Some q /\
    next (load q w') = Some tl /\
    prev (load (AHead (slotLst wh idx)) w') = Some tl /\
    expire (load tl w') = exp /\
    f (load tl w') = Some fn /\ arg (load tl w') = p /\
    intvl (load tl w')
    = WTimer_Duration (wt w) (Ticks_Sub exp (WTimer_Now (wt w))) /\
    tInfo_getAll (info (load tl w'))
    = (Z.lor (Z.land (tInfo_flags (info (load tl w))) (not8 fInternalMask))
         fActive, wh, idx) /\
    (forall a, a <> tl -> a <> q -> a <> AHead (slotLst wh idx) ->
               load a w' = load a w) /\
    opLock (wt w') = false /\ faults w' = faults w /\
    wheels_ready (wt w') /\ (forall l, lstTag l w' = lstTag l w) /\
    user w' = user w /\ calls w' = calls w.
Proof.
  intros Hr Hlock Ha Hrun Hrem Hn Hp Hpos Hg Htag Hh Hq Hprev.
  unfold WTimer_AddExpire. unfold bind at 1, rdWt at 1. cbv zeta.
  unfold bind at 1. rewrite (lock_run _ Hlock).
  unfold bind at 1.
  rewrite (sanity_fresh tl _ (Some fn)) by (rewrite load_set_opLock; assumption).
  set (wl := set_wt (set_opLock true (wt w)) w).
  do 5 (unfold bind at 1, wr at 1). unfold bind at 1, rd at 1.
  mload. cbn [expire set_info set_expire set_intvl set_arg set_f].
  rewrite Hg. unfold bind at 1.
  match goal with
  | |- context [WTimer_appendTimer _ _ _ ?W] => set (w5 := W)
  end.
  assert (L5 : load tl w5
               = set_info (tInfo_chgFlags (info (load tl w)) fActive
                             fInternalMask)
                   (set_expire exp
                      (set_intvl (WTimer_Duration (wt w)
                                    (Ticks_Sub exp (WTimer_Now (wt w))))
                         (set_arg p (set_f (Some fn) (load tl w)))))).
  { unfold w5. mload. unfold wl. rewrite load_set_opLock. reflexivity. }
  assert (O5 : forall a, a <> tl -> load a w5 = load a w).
  { intros a Hne. unfold w5. mload. apply load_set_opLock. }
  assert (R5 : wheels_ready (wt w5)).
  { unfold w5. repeat apply wheels_ready_store. apply wheels_ready_lock, Hr. }
  assert (T5 : lstTag (slotLst wh idx) w5 = lstTag (slotLst wh idx) w).
  { unfold w5. rewrite !lstTag_store. reflexivity. }
  assert (K5 : opLock (wt w5) = true).
  { unfold w5. rewrite !ctl_store_opLock. reflexivity. }
  assert (B5 : faults w5 = faults w).
  { unfold w5. rewrite !faults_store. reflexivity. }
  assert (D5 : TimerLnk_Detached tl (load tl w5) = true).
  { rewrite L5. unfold TimerLnk_Detached.
    cbn [next prev set_info set_expire set_intvl set_arg set_f].
    rewrite Hn, Hp. cbn [is_nil andb]. apply orb_true_r. }
  assert (P5 : tInfo_wheelPos (info (load tl w5)) = (wheelNone, wheelNoIdx)).
  { rewrite L5. cbn [info set_info].
    rewrite wheelPos_fields, wheelOf_chgFlags, idxOf_chgFlags,
      <- wheelPos_fields. exact Hpos. }
  assert (H5 : prev (load (AHead (slotLst wh idx)) w5) = Some q).
  { rewrite O5 by congruence. exact Hprev. }
  destruct (timerLst_append_spec (slotLst wh idx) tl q w5 Hh Hq H5 D5 P5)
    as (w6 & R6 & F6 & B6 & Le & Lq & Lh).
  rewrite (appendTimer_is_append tl exp (WTimer_Now (wt w)) wh idx w5 w6
             R5 Hg R6).
  assert (K6 : opLock (wt w6) = true).
  { destruct F6 as (_ & _ & C & _). rewrite (ctl_opLock _ _ C). exact K5. }
  unfold bind at 1. rewrite (unlock_run _ K6). unfold ret.
  eexists. split; [reflexivity|].
  rewrite !load_set_opLock, Le, L5.
  cbn [next prev expire f arg intvl info set_info set_next set_prev
       set_expire set_intvl set_arg set_f].
  repeat split.
  - rewrite Lq. destruct (addr_eq_dec q (AHead (slotLst wh idx))); reflexivity.
  - rewrite Lh. destruct (addr_eq_dec q (AHead (slotLst wh idx))); reflexivity.
  - rewrite T5, Htag. cbn [fst snd].
    destruct (getWheelPos_slot _ _ _ _ Hg) as [(-> & ->)|(Hw & n & Hn' & Hi)].
    + rewrite getAll_fields, flagsOf_setWheel, wheelOf_setWheel,
        idxOf_setWheel, flagsOf_chgFlags, <- flags_fields
        by (unfold wheelExp, wheelNoIdx; lia).
      reflexivity.
    + assert (0 <= wh < 2 ^ 8) by (unfold WheelsNo in Hw; lia).
      assert (0 <= idx < 2 ^ 16).
      { destruct (wheelEntries_cases _ _ Hn') as [(_ & ->)|[(_ & ->)|[(_ & ->)|(_ & ->)]]]; lia. }
      rewrite getAll_fields, flagsOf_setWheel, wheelOf_setWheel,
        idxOf_setWheel, flagsOf_chgFlags, <- flags_fields by assumption.
      unfold u8, u16.
      rewrite !Z.mod_small by (first [assumption | unfold fActive; lia]).
      reflexivity.
  - intros a A1 A2 A3. rewrite load_set_opLock.
    destruct F6 as (F6 & _). rewrite F6 by (cbn; intuition congruence).
    apply O5, A1.
  - cbn [faults set_wt]. rewrite B6. exact B5.
  - apply wheels_ready_lock. destruct F6 as (_ & _ & C & _).
    unfold wheels_ready. intros k n Hk.
    rewrite (ctl_wheels _ _ C). apply R5, Hk.
  - intros l. destruct F6 as (_ & T6 & _).
    rewrite lstTag_set_opLock, T6. unfold w5. rewrite !lstTag_store.
    unfold wl. apply lstTag_set_opLock.
  - destruct F6 as (_ & _ & _ & Fu & _). cbn [user set_wt]. rewrite Fu.
    unfold w5. now rewrite !user_store.
  - destruct F6 as (_ & _ & _ & _ & _ & Fc & _). cbn [calls set_wt].
    rewrite Fc. unfold w5. now rewrite !calls_store.
Qed.


(** [AddExpire] of a handle that is ready to be added (no [fActive],
    [fRunning] or [fRemoved], nil links, position [(None, NoIdx)]) on a
    scheduler whose wheels are set up returns nil: the handle becomes the
    last entry of the list that [getWheelPos(expire, Now())] names, after
    the old last entry [q]; it has [fActive] besides its user flags, that
    position, the expire value, the callback and its argument. *)
Theorem AddExpire_links_timer (tl q : addr) (exp : Ticks)
  (fn : @TimerHandlerF U Arg) (p : option Arg) (wh idx : Z) w :
  wheels_ready (wt w) -> opLock (wt w) = false ->
  Z.land (tInfo_flags (info (load tl w))) fActive = 0 ->
  Z.land (tInfo_flags (info (load tl w))) fRunning = 0 ->
  Z.land (tInfo_flags (info (load tl w))) fRemoved = 0 ->
  next (load tl w) = None -> prev (load tl w) = None ->
  tInfo_wheelPos (info (load tl w)) = (wheelNone, wheelNoIdx) ->
  getWheelPos exp (WTimer_Now (wt w)) = (wh, idx) ->
  lstTag (slotLst wh idx) w = (wh, idx) ->
  tl <> AHead (slotLst wh idx) -> q <> tl ->
  prev (load (AHead (slotLst wh idx)) w) = Some q ->
  exists w',
    WTimer_AddExpire tl exp (Some fn) p w = Ok None w' /\
    next (load tl w') = Some (AHead (slotLst wh idx)) /\
    prev (load tl w') = Some q /\
    next (load q w') = Some tl /\
    prev (load (AHead (slotLst wh idx)) w') = Some tl /\
    expire (load tl w') = exp /\
    f (load tl w') = Some fn /\ arg (load tl w') = p /\
    intvl (load tl w')
    = WTimer_Duration (wt w) (Ticks_Sub exp (WTimer_Now (wt w))) /\
    tInfo_getAll (info (load tl w'))
    = (Z.lor (Z.land (tInfo_flags (info (load tl w))) (not8 fInternalMask))
         fActive, wh, idx) /\
    (forall a, a <> tl -> a <> q -> a <> AHead (slotLst wh idx) ->
               load a w' = load a w) /\
    opLock (wt w') = false /\ faults w' = faults w.
Proof.
  intros Hr Hlock Ha Hrun Hrem Hn Hp Hpos Hg Htag Hh Hq Hprev.
  destruct (AddExpire_spec tl q exp fn p wh idx w Hr Hlock Ha Hrun Hrem Hn Hp
              Hpos Hg Htag Hh Hq Hprev)
    as (w' & R & H1 & H2 & H3 & H4 & H5 & H6 & H7 & H8 & H9 & H10 & H11
        & H12 & _).
  exists w'. repeat (split; [assumption|]). assumption.
Qed.

Lemma added_flags (fl : Z) :
  let fl' := Z.lor (Z.land fl (not8 fInternalMask)) fActive in
  Z.land fl' fActive <> 0 /\ Z.land fl' fDelete = 0 /\
  Z.land fl' fRemoved = 0 /\ Z.land fl' fRunning = 0.
Proof.
  cbv zeta. change (not8 fInternalMask) with 224.
  rewrite !Z.land_lor_distr_l, <- !Z.land_assoc.
  change (Z.land 224 fActive) with 0. change (Z.land 224 fDelete) with 0.
  change (Z.land 224 fRemoved) with 0. change (Z.land 224 fRunning) with 0.
  rewrite !Z.land_0_r. cbn. repeat split; discriminate.
Qed.

(** After a successful [AddExpire] the handle is in use: another [Add],
    [AddT] or [AddExpire] answers [ErrActiveTimer] and changes nothing,
    and [Del] (or [DelTry]) returns [(true, nil)] and takes the handle off
    its list again, which then ends with the old last entry [q] as
    before. *)
Theorem AddExpire_then_Del (tl q : addr) (exp : Ticks)
  (fn : @TimerHandlerF U Arg) (p : option Arg) (wh idx : Z) (fuel : nat) w :
  wheels_ready (wt w) -> opLock (wt w) = false ->
  Z.land (tInfo_flags (info (load tl w))) fActive = 0 ->
  Z.land (tInfo_flags (info (load tl w))) fRunning = 0 ->
  Z.land (tInfo_flags (info (load tl w))) fRemoved = 0 ->
  next (load tl w) = None -> prev (load tl w) = None ->
  tInfo_wheelPos (info (load tl w)) = (wheelNone, wheelNoIdx) ->
  getWheelPos exp (WTimer_Now (wt w)) = (wh, idx) ->
  lstTag (slotLst wh idx) w = (wh, idx) ->
  tl <> AHead (slotLst wh idx) -> q <> tl ->
  prev (load (AHead (slotLst wh idx)) w) = Some q ->
  exists w1,
    WTimer_AddExpire tl exp (Some fn) p w = Ok None w1 /\
    (forall fn' p' d delta exp',
        WTimer_Add tl d fn' p' w1 = Ok (Some ErrActiveTimer) w1 /\
        WTimer_AddT tl delta fn' p' w1 = Ok (Some ErrActiveTimer) w1 /\
        WTimer_AddExpire tl exp' fn' p' w1 = Ok (Some ErrActiveTimer) w1) /\
    forall delF, exists w2,
      WTimer_del fuel tl delF w1 = Ok (true, None) w2 /\
      removed_from tl q (AHead (slotLst wh idx))
        (Z.lor (Z.land (tInfo_flags (info (load tl w))) (not8 fInternalMask))
           fActive) w1 w2 /\
      opLock (wt w2) = false.
Proof.
  intros Hr Hlock Ha Hrun Hrem Hn Hp Hpos Hg Htag Hh Hq Hprev.
  destruct (AddExpire_spec tl q exp fn p wh idx w Hr Hlock Ha Hrun Hrem Hn Hp
              Hpos Hg Htag Hh Hq Hprev)
    as (w1 & R & N1 & P1 & _ & _ & _ & _ & _ & _ & G1 & _ & K1 & _ & R1 & _).
  destruct (added_flags (tInfo_flags (info (load tl w))))
    as (FA & FD & FM & FR).
  destruct (getAll_flags_wheelPos _ _ _ _ G1) as (Hfl & _).
  exists w1. split; [exact R|]. split.
  - intros fn' p' d delta exp'.
    apply Add_family_rejected; [exact K1|].
    intros d'. apply sanity_active. rewrite load_set_opLock, Hfl. exact FA.
  - intros delF.
    destruct (getWheelPos_slot _ _ _ _ Hg) as [(-> & ->)|(Hw & n & Hn' & Hi)].
    + eapply del_remove_expired; eauto.
    + eapply del_remove_wheel; eauto.
      rewrite (R1 wh n Hn'). exact Hi.
Qed.

End AddTimers.

Lemma world_wheels_ready : wheels_ready (wt world_wheels).
Proof.
  intros k n Hk.
  destruct (wheelEntries_cases k n Hk)
    as [(Ek & En)|[(Ek & En)|[(Ek & En)|(Ek & En)]]];
    clear Hk; subst k n; vm_compute; reflexivity.
Qed.

Lemma Add_rejects_timer_in_use_witness :
  WTimer_Add (ATimer 0) 1000 (Some count_once) None world_expiring
  = Ok (Some ErrActiveTimer) world_expiring.
Proof.
  assert (H : Z.land (tInfo_flags (info (load (ATimer 0) world_expiring)))
                fActive <> 0) by (vm_compute; discriminate).
  destruct (proj1 (Add_rejects_timer_in_use (ATimer 0) (Some count_once) None
                     1000 (NewTicks 1) (NewTicks 1) world_expiring eq_refl) H)
    as (HA & _).
  exact HA.
Defined.

Lemma Add_rejects_nil_callback_witness :
  WTimer_Add (ATimer 0) 1000 None None world_listed
  = Ok (Some ErrInvalidParameters) world_listed.
Proof.
  destruct (Add_rejects_nil_callback (ATimer 0) None 1000 (NewTicks 1)
              (NewTicks 1) world_listed) as (HA & _);
    [reflexivity.. | exact HA].
Defined.

Lemma AddExpire_links_timer_witness :
  exists w',
    WTimer_AddExpire (ATimer 0) (NewTicks 5) (Some count_once) None
      world_wheels = Ok None w' /\
    next (load (ATimer 0) w') = Some (AHead (Lwlists 5)) /\
    prev (load (AHead (Lwlists 5)) w') = Some (ATimer 0) /\
    tInfo_getAll (info (load (ATimer 0) w')) = (Z.lor Ffast fActive, 0, 5).
Proof.
  destruct (AddExpire_links_timer (ATimer 0) (AHead (Lwlists 5)) (NewTicks 5)
              count_once None 0 5 world_wheels world_wheels_ready)
    as (w' & R & H1 & _ & _ & H4 & _ & _ & _ & _ & H9 & _);
    [ reflexivity | reflexivity | reflexivity | reflexivity | reflexivity
    | reflexivity | reflexivity | reflexivity | reflexivity
    | discriminate | discriminate | reflexivity |].
  exists w'. split; [exact R|]. split; [exact H1|]. split; [exact H4|exact H9].
Defined.

Lemma AddExpire_then_Del_witness :
  exists w1 w2,
    WTimer_AddExpire (ATimer 0) (NewTicks 5) (Some count_once) None
      world_wheels = Ok None w1 /\
    WTimer_Del 0 (ATimer 0) w1 = Ok (true, None) w2 /\
    prev (load (AHead (Lwlists 5)) w2) = Some (AHead (Lwlists 5)).
Proof.
  destruct (AddExpire_then_Del (ATimer 0) (AHead (Lwlists 5)) (NewTicks 5)
              count_once None 0 5 0%nat world_wheels world_wheels_ready)
    as (w1 & R & _ & D);
    [ reflexivity | reflexivity | reflexivity | reflexivity | reflexivity
    | reflexivity | reflexivity | reflexivity | reflexivity
    | discriminate | discriminate | reflexivity |].
  destruct (D 0) as (w2 & R2 & Rm & _).
  exists w1, w2. split; [exact R|]. split; [exact R2|].
  apply Rm.
Defined.

(** ** Ticks on a scheduler without waiting timers *)

Section Quiet.
Context {U Arg : Type}.
Implicit Types (w : @World U Arg) (x : @TimerLnk U Arg).

Lemma initialised_quiet w : initialised w -> quiet w.
Proof.
  intros (Hr & Hl & He & _). split; [exact Hr|]. split.
  - intros l k idx (n & Hn & Hi & ->).
    destruct (Hl k n idx Hn Hi) as (H1 & H2 & _). split; assumption.
  - destruct He as (H1 & H2 & _). split; assumption.
Qed.

Lemma redistLst_empty (fuel : nat) (lst : lstRef) (now : Ticks) w :
  lst_empty lst w -> WTimer_redistLst fuel lst now w = Ok tt w.
Proof.
  intros (Hn & Hp). unfold WTimer_redistLst, timerLst_isEmpty. mrun.
  rewrite Hn. cbn [deref]. mrun.
  assert (E : redistLst_loop fuel lst (Some (AHead lst))
                (next (load (AHead lst) w)) now w = Ok tt w).
  { destruct fuel; cbn [redistLst_loop]; rewrite ptr_eqb_refl; reflexivity. }
  rewrite E, Hn, ptr_eqb_refl. reflexivity.
Qed.

Lemma mv_empty_run (fuel : nat) (lst dst : lstRef) w :
  lst_empty lst w -> timerLst_mv fuel lst dst w = Ok false w.
Proof.
  intros (Hn & Hp). unfold timerLst_mv, timerLst_rmSubList. mrun.
  rewrite Hp.
  repeat (progress (rewrite ?Hp, ?Hn, ?ptr_eqb_refl;
                    cbn [is_nil orb andb negb]; cbv beta iota)).
  reflexivity.
Qed.

Lemma processExpired_empty (fuel : nat) (now : Ticks) w :
  lst_empty Lexpired w -> WTimer_processExpired fuel now w = Ok tt w.
Proof.
  intros (Hn & Hp). unfold WTimer_processExpired.
  assert (E : processExpired_loop fuel 0 w = Ok 0 w).
  { destruct fuel; cbn [processExpired_loop]; unfold timerLst_isEmpty; mrun;
      rewrite Hn, ptr_eqb_refl; reflexivity. }
  unfold bind at 1. rewrite E. reflexivity.
Qed.

Lemma wheelLst_slot (k idx n : Z) w :
  wheels_ready (wt w) -> wheelEntries k = Some n -> 0 <= idx < n ->
  wheelLst k idx w = Ok (Lwlists (wheelOff k + idx)) w.
Proof.
  intros Hr Hn Hi. apply (wheelLst_ok k idx (wheelOff k) n).
  - destruct (wheelEntries_cases k n Hn)
      as [(E & _)|[(E & _)|[(E & _)|(E & _)]]]; rewrite E;
      unfold WheelsNo; lia.
  - apply Hr, Hn.
  - exact Hi.
Qed.

Lemma redistTimers_quiet (fuel : nat) (now : Ticks) w :
  quiet w -> WTimer_redistTimers fuel now w = Ok tt w.
Proof.
  intros (Hr & Hl & He). unfold WTimer_redistTimers. cbv zeta.
  pose proof (wheel0Pos_range (Ticks_Val now)) as R0.
  pose proof (wheel1Pos_range (Ticks_Val now)) as R1.
  pose proof (wheel2Pos_range (Ticks_Val now)) as R2.
  pose proof (wheel3Pos_range (Ticks_Val now)) as R3.
  assert (S : forall k n idx, wheelEntries k = Some n -> 0 <= idx < n ->
              (l <- wheelLst k idx ;; WTimer_redistLst fuel l now) w = Ok tt w).
  { intros k n idx Hn Hi. unfold bind at 1.
    rewrite (wheelLst_slot k idx n w Hr Hn Hi).
    apply redistLst_empty. apply (Hl _ k idx). exists n. auto. }
  assert (W3 : when (wheel2Pos (Ticks_Val now) =? 0)
                 (l3 <- wheelLst 3 (wheel3Pos (Ticks_Val now)) ;;
                  WTimer_redistLst fuel l3 now) w = Ok tt w).
  { unfold when. destruct (_ =? 0); [|reflexivity].
    apply (S 3 1024); [reflexivity|lia]. }
  assert (W2 : when (wheel1Pos (Ticks_Val now) =? 0)
                 (when (wheel2Pos (Ticks_Val now) =? 0)
                    (l3 <- wheelLst 3 (wheel3Pos (Ticks_Val now)) ;;
                     WTimer_redistLst fuel l3 now) ;;
                  l2 <- wheelLst 2 (wheel2Pos (Ticks_Val now)) ;;
                  WTimer_redistLst fuel l2 now) w = Ok tt w).
  { unfold when at 1. destruct (wheel1Pos _ =? 0); [|reflexivity].
    unfold bind at 1. rewrite W3.
    apply (S 2 1024); [reflexivity|lia]. }
  assert (W1 : when (wheel0Pos (Ticks_Val now) =? 0)
                 (when (wheel1Pos (Ticks_Val now) =? 0)
                    (when (wheel2Pos (Ticks_Val now) =? 0)
                       (l3 <- wheelLst 3 (wheel3Pos (Ticks_Val now)) ;;
                        WTimer_redistLst fuel l3 now) ;;
                     l2 <- wheelLst 2 (wheel2Pos (Ticks_Val now)) ;;
                     WTimer_redistLst fuel l2 now) ;;
                  l1 <- wheelLst 1 (wheel1Pos (Ticks_Val now)) ;;
                  WTimer_redistLst fuel l1 now) w = Ok tt w).
  { unfold when at 1. destruct (wheel0Pos _ =? 0); [|reflexivity].
    unfold bind at 1. rewrite W2.
    apply (S 1 16384); [reflexivity|lia]. }
  unfold bind at 1. rewrite W1.
  unfold bind at 1.
  rewrite (wheelLst_slot 0 _ 16384 w Hr eq_refl R0).
  unfold bind at 1. rewrite mv_empty_run; [reflexivity|].
  apply (Hl _ 0 (wheel0Pos (Ticks_Val now))). exists 16384. auto.
Qed.

Lemma quiet_same_lists (s : @WTimer U Arg) w :
  wheels s = wheels (wt w) -> wlists s = wlists (wt w) ->
  expired s = expired (wt w) -> rQs s = rQs (wt w) ->
  quiet w -> quiet (set_wt s w).
Proof.
  intros H1 H2 H3 H4 (Hr & Hl & He).
  assert (L : forall a, load a (set_wt s w) = load a w)
    by (intros a; apply load_set_wt_ctl; assumption).
  split; [|split].
  - unfold wheels_ready. cbn [wt set_wt]. rewrite H1. exact Hr.
  - intros l k idx Hs. unfold lst_empty. rewrite L. exact (Hl l k idx Hs).
  - unfold lst_empty. rewrite L. exact He.
Qed.

Lemma quiet_lock (b : bool) w :
  quiet w -> quiet (set_wt (set_opLock b (wt w)) w).
Proof. apply quiet_same_lists; destruct (wt w); reflexivity. Qed.

Lemma quiet_tick (n : Z) w :
  quiet w -> quiet (set_wt (set_nowTicks n (wt w)) w).
Proof. apply quiet_same_lists; destruct (wt w); reflexivity. Qed.

(** A tick on a quiet scheduler changes nothing. *)
Lemma run_quiet (fuel : nat) (now : Ticks) w :
  quiet w -> opLock (wt w) = false -> WTimer_run fuel now w = Ok tt w.
Proof.
  intros Hq Hlock. unfold WTimer_run.
  unfold bind at 1. rewrite (lock_run _ Hlock).
  unfold bind at 1. rewrite (redistTimers_quiet _ _ _ (quiet_lock true w Hq)).
  unfold bind at 1.
  rewrite processExpired_empty by (apply (quiet_lock true w Hq)).
  rewrite unlock_run by reflexivity.
  rewrite (unlock_after_lock _ Hlock). reflexivity.
Qed.

Lemma set_nowTicks_twice (n m : Z) w :
  set_wt (set_nowTicks n (wt (set_wt (set_nowTicks m (wt w)) w)))
    (set_wt (set_nowTicks m (wt w)) w)
  = set_wt (set_nowTicks n (wt w)) w.
Proof. destruct w as [s tm us wc cl sp fl]. destruct s. reflexivity. Qed.

Lemma set_nowTicks_same w : set_wt (set_nowTicks (nowTicks (wt w)) (wt w)) w = w.
Proof. destruct w as [s tm us wc cl sp fl]. destruct s. reflexivity. Qed.

Lemma nowTicks_set_nowTicks (n : Z) w :
  nowTicks (wt (set_wt (set_nowTicks n (wt w)) w)) = n.
Proof. destruct w as [s tm us wc cl sp fl]. destruct s. reflexivity. Qed.

Lemma opLock_set_nowTicks (n : Z) w :
  opLock (wt (set_wt (set_nowTicks n (wt w)) w)) = opLock (wt w).
Proof. destruct w as [s tm us wc cl sp fl]. destruct s. reflexivity. Qed.

(** The distance to [t] in ticks, and how one tick changes it. *)
Lemma Val_Now (n : Z) w :
  nowTicks (wt w) = n -> Ticks_Val (WTimer_Now (wt w)) = n mod 2 ^ 48.
Proof. intros <-. unfold WTimer_Now. apply Ticks_Val_NewTicks. Qed.

Lemma dist_zero (t : Ticks) w :
  Ticks_Val (Ticks_Sub t (WTimer_Now (wt w))) = 0 ->
  Ticks_NE (WTimer_Now (wt w)) t = false /\
  Ticks_GT (WTimer_Now (wt w)) t = false.
Proof.
  intros Hd. unfold Ticks_GT, Ticks_NE.
  destruct (Ticks_cmp_Val (WTimer_Now (wt w)) t) as (_ & ->).
  rewrite Ticks_Val_Sub in Hd. change TicksBits with 48 in Hd.
  pose proof (Ticks_Val_range t) as Rt.
  pose proof (Ticks_Val_range (WTimer_Now (wt w))) as Rn.
  rewrite (mod_diff_cases _ _ _ Rt Rn) in Hd.
  rewrite (mod_diff_cases _ _ _ Rn Rt).
  assert (E : Ticks_Val (WTimer_Now (wt w)) = Ticks_Val t)
    by (destruct (Z.leb_spec (Ticks_Val (WTimer_Now (wt w))) (Ticks_Val t)); lia).
  rewrite E, Z.leb_refl, Z.sub_diag. cbn. rewrite andb_false_r. auto.
Qed.

Lemma dist_pos (t : Ticks) w :
  0 < Ticks_Val (Ticks_Sub t (WTimer_Now (wt w))) <= MaxTicksDiff ->
  Ticks_NE (WTimer_Now (wt w)) t = true /\
  Ticks_GT (WTimer_Now (wt w)) t = false.
Proof.
  intros Hd. unfold Ticks_GT, Ticks_NE.
  destruct (Ticks_cmp_Val (WTimer_Now (wt w)) t) as (-> & ->).
  rewrite Ticks_Val_Sub, MaxTicksDiff_pow2 in Hd.
  change TicksBits with 48 in Hd. change (48 - 1) with 47 in Hd.
  pose proof (Ticks_Val_range t) as Rt.
  pose proof (Ticks_Val_range (WTimer_Now (wt w))) as Rn.
  rewrite (mod_diff_cases _ _ _ Rt Rn) in Hd.
  rewrite (mod_diff_cases _ _ _ Rn Rt).
  destruct (Z.leb_spec (Ticks_Val (WTimer_Now (wt w))) (Ticks_Val t));
    destruct (Z.leb_spec (Ticks_Val t) (Ticks_Val (WTimer_Now (wt w))));
    repeat match goal with
           | |- context [?x <=? ?y] => destruct (Z.leb_spec x y)
           | |- context [?x =? ?y] => destruct (Z.eqb_spec x y)
           end; cbn; try lia; auto.
Qed.

Lemma dist_tick (t : Ticks) w :
  0 < Ticks_Val (Ticks_Sub t (WTimer_Now (wt w))) ->
  Ticks_Val (Ticks_Sub t
               (WTimer_Now
                  (wt (set_wt (set_nowTicks (u64 (nowTicks (wt w) + 1)) (wt w))
                         w))))
  = Ticks_Val (Ticks_Sub t (WTimer_Now (wt w))) - 1.
Proof.
  intros Hd. rewrite !Ticks_Val_Sub in *. change TicksBits with 48 in *.
  rewrite (Val_Now _ _ (nowTicks_set_nowTicks _ w)).
  rewrite (Val_Now _ w eq_refl) in *.
  rewrite u64_mod48.
  rewrite Zminus_mod_idemp_r in Hd. rewrite !Zminus_mod_idemp_r.
  replace (Ticks_Val t - (nowTicks (wt w) + 1))
    with ((Ticks_Val t - nowTicks (wt w)) - 1) by lia.
  rewrite <- Zminus_mod_idemp_l.
  apply Z.mod_small.
  pose proof (Z.mod_pos_bound (Ticks_Val t - nowTicks (wt w)) (2 ^ 48)).
  lia.
Qed.

Lemma advanceTimeTo_loop_quiet (fuel : nat) (t : Ticks) :
  forall w,
    quiet w -> opLock (wt w) = false ->
    (Z.to_nat (Ticks_Val (Ticks_Sub t (WTimer_Now (wt w)))) <= fuel)%nat ->
    Ticks_Val (Ticks_Sub t (WTimer_Now (wt w))) <= MaxTicksDiff ->
    exists w',
      advanceTimeTo_loop fuel t w = Ok tt w' /\
      Ticks_Val (Ticks_Sub t (WTimer_Now (wt w'))) = 0 /\
      w' = set_wt (set_nowTicks (nowTicks (wt w')) (wt w)) w.
Proof.
  induction fuel as [|k IH]; intros w Hq Hlock Hf Hm.
  - assert (Hd : Ticks_Val (Ticks_Sub t (WTimer_Now (wt w))) = 0).
    { pose proof (Ticks_Val_range (Ticks_Sub t (WTimer_Now (wt w)))). lia. }
    exists w. cbn [advanceTimeTo_loop]. unfold bind at 1, rdWt at 1.
    rewrite (proj1 (dist_zero t w Hd)).
    split; [reflexivity|]. split; [exact Hd|].
    symmetry. apply set_nowTicks_same.
  - destruct (Z.eq_dec (Ticks_Val (Ticks_Sub t (WTimer_Now (wt w)))) 0)
      as [Hd|Hd].
    + exists w. cbn [advanceTimeTo_loop]. unfold bind at 1, rdWt at 1.
      rewrite (proj1 (dist_zero t w Hd)).
      split; [reflexivity|]. split; [exact Hd|].
      symmetry. apply set_nowTicks_same.
    + assert (Hp : 0 < Ticks_Val (Ticks_Sub t (WTimer_Now (wt w))))
        by (pose proof (Ticks_Val_range (Ticks_Sub t (WTimer_Now (wt w))));
            lia).
      cbn [advanceTimeTo_loop]. unfold bind at 1, rdWt at 1.
      rewrite (proj1 (dist_pos t w (conj Hp Hm))).
      unfold WTimer_incTime. unfold bind at 1, wrWt at 1.
      unfold bind at 1, rdWt at 1. unfold bind at 1.
      set (w1 := set_wt (set_nowTicks (u64 (nowTicks (wt w) + 1)) (wt w)) w).
      assert (Hq1 : quiet w1) by (apply quiet_tick, Hq).
      assert (Hl1 : opLock (wt w1) = false)
        by (unfold w1; rewrite opLock_set_nowTicks; exact Hlock).
      rewrite (run_quiet _ _ w1 Hq1 Hl1).
      pose proof (dist_tick t w Hp) as Ht. fold w1 in Ht.
      destruct (IH w1 Hq1 Hl1) as (w' & R & D & E); [lia|lia|].
      exists w'. split; [exact R|]. split; [exact D|].
      rewrite E at 1. unfold w1. apply set_nowTicks_twice.
Qed.

(** [advanceTimeTo(wt.Now())] does nothing at all, whatever the state of
    the scheduler and its timers: no tick, no callback, no change. *)
Theorem advanceTimeTo_now_is_noop (fuel : nat) w :
  WTimer_advanceTimeTo fuel (WTimer_Now (wt w)) w = Ok tt w.
Proof.
  assert (Hd : Ticks_Val (Ticks_Sub (WTimer_Now (wt w)) (WTimer_Now (wt w)))
               = 0).
  { rewrite Ticks_Val_Sub, Z.sub_diag. reflexivity. }
  destruct (dist_zero _ w Hd) as (HN & HG).
  unfold WTimer_advanceTimeTo. unfold bind at 1, rdWt at 1. rewrite HG.
  unfold when. unfold bind at 1, ret at 1.
  destruct fuel; cbn [advanceTimeTo_loop]; unfold bind at 1, rdWt at 1;
    rewrite HN; reflexivity.
Qed.

(** On a scheduler that is set up and has no timer waiting (every wheel
    list and the expired list empty), [advanceTimeTo(t)] for a [t] at
    most [MaxTicksDiff] ticks ahead only moves the clock to [t]: every
    tick in between runs, finds nothing, and the timers, the lists, the
    callbacks' record, the user's state and the bug log stay as they
    are. *)
Theorem advanceTimeTo_quiet (fuel : nat) (t : Ticks) w :
  quiet w -> opLock (wt w) = false ->
  Ticks_Val (Ticks_Sub t (WTimer_Now (wt w))) <= MaxTicksDiff ->
  (Z.to_nat (Ticks_Val (Ticks_Sub t (WTimer_Now (wt w)))) <= fuel)%nat ->
  exists w',
    WTimer_advanceTimeTo fuel t w = Ok tt w' /\
    Ticks_EQ (WTimer_Now (wt w')) t = true /\
    w' = set_wt (set_nowTicks (nowTicks (wt w')) (wt w)) w /\
    quiet w'.
Proof.
  intros Hq Hlock Hm Hf.
  destruct (advanceTimeTo_loop_quiet fuel t w Hq Hlock Hf Hm)
    as (w' & R & D & E).
  exists w'. split; [|split; [|split]].
  - unfold WTimer_advanceTimeTo. unfold bind at 1, rdWt at 1.
    assert (HG : Ticks_GT (WTimer_Now (wt w)) t = false).
    { destruct (Z.eq_dec (Ticks_Val (Ticks_Sub t (WTimer_Now (wt w)))) 0)
        as [Hd|Hd].
      - apply (dist_zero t w Hd).
      - apply (dist_pos t w).
        pose proof (Ticks_Val_range (Ticks_Sub t (WTimer_Now (wt w)))). lia. }
    rewrite HG. unfold when. unfold bind at 1, ret at 1. exact R.
  - pose proof (proj1 (dist_zero t w' D)) as HN.
    unfold Ticks_NE in HN. now apply negb_false_iff in HN.
  - exact E.
  - rewrite E. apply quiet_tick, Hq.
Qed.

End Quiet.

Lemma Init_keeps_ctl_fields {U Arg : Type} (a : option Z) (b : Z)
  (c : arr wheel) (s s0 : @WTimer U Arg) :
  set_rQch a (set_tickDuration b (set_wheels c (ctl s))) = ctl s0 ->
  opLock s = opLock s0 /\ nowTicks s = nowTicks s0.
Proof.
  intros H. split.
  - apply (f_equal opLock) in H. destruct s, s0. exact H.
  - apply (f_equal nowTicks) in H. destruct s, s0. exact H.
Qed.

Lemma advanceTimeTo_quiet_witness :
  exists w w' : @World nat unit,
    quiet w /\
    WTimer_advanceTimeTo 3 (NewTicks 3) w = Ok tt w' /\
    Ticks_EQ (WTimer_Now (wt w')) (NewTicks 3) = true.
Proof.
  destruct (Init_ok 1000000 world0) as (w & _ & I & _ & C & _);
    [vm_compute; split; discriminate|].
  destruct (Init_keeps_ctl_fields _ _ _ _ _ C) as (Hl & Hn).
  assert (Hd : Ticks_Val (Ticks_Sub (NewTicks 3) (WTimer_Now (wt w))) = 3).
  { unfold WTimer_Now. rewrite Hn. reflexivity. }
  destruct (advanceTimeTo_quiet 3 (NewTicks 3) w (initialised_quiet w I) Hl)
    as (w' & R & E & _).
  - rewrite Hd. vm_compute. discriminate.
  - rewrite Hd. apply le_n.
  - exists w, w'. split; [exact (initialised_quiet w I)|].
    split; [exact R | exact E].
Defined.

(** ** What [del] leaves alone when it removes a timer *)

Section DelFrame.
Context {U Arg : Type}.
Implicit Types (w : @World U Arg) (s : @WTimer U Arg).

Lemma ctl_set_opLock (b : bool) s : ctl (set_opLock b s) = set_opLock b (ctl s).
Proof. destruct s; reflexivity. Qed.

Lemma ctl_set_rQlocks (l : arr bool) s :
  ctl (set_rQlocks l s) = set_rQlocks l (ctl s).
Proof. destruct s; reflexivity. Qed.

Lemma set_opLock_twice (b b' : bool) s :
  set_opLock b (set_opLock b' s) = set_opLock b s.
Proof. destruct s; reflexivity. Qed.

Lemma set_rQlocks_twice (l l' : arr bool) s :
  set_rQlocks l (set_rQlocks l' s) = set_rQlocks l s.
Proof. destruct s; reflexivity. Qed.

Lemma set_opLock_same s : set_opLock (opLock s) s = s.
Proof. destruct s; reflexivity. Qed.

Lemma set_rQlocks_same s : set_rQlocks (rQlocks s) s = s.
Proof. destruct s; reflexivity. Qed.

Lemma set_wt_same w : set_wt (wt w) w = w.
Proof. destruct w; reflexivity. Qed.

Lemma lstTag_set_rQlocks (l : arr bool) r w :
  lstTag r (set_wt (set_rQlocks l (wt w)) w) = lstTag r w.
Proof. unfold lstTag. cbn [wt set_wt]. destruct (wt w), r; reflexivity. Qed.

(** A frame stays one when the scheduler lock taken before is released
    after. *)
Lemma frame_locked mods w w1 :
  opLock (wt w) = false ->
  frame mods (set_wt (set_opLock true (wt w)) w) w1 ->
  frame mods w (set_wt (set_opLock false (wt w1)) w1).
Proof.
  intros Hlock (F1 & F2 & F3 & F4 & F5 & F6 & F7).
  repeat split.
  - intros a Ha. rewrite load_set_opLock, (F1 a Ha). apply load_set_opLock.
  - intros l. rewrite lstTag_set_opLock, F2. apply lstTag_set_opLock.
  - cbn [wt set_wt] in *. rewrite ctl_set_opLock, F3, ctl_set_opLock,
      set_opLock_twice, <- ctl_set_opLock, <- Hlock.
    now rewrite set_opLock_same.
  - destruct w1, w; exact F4.
  - destruct w1, w; exact F5.
  - destruct w1, w; exact F6.
  - destruct w1, w; exact F7.
Qed.

(** The same for a run-queue lock: the flags of the run queues are the
    only part of the scheduler that may differ, and they agree at every
    index. *)
Lemma frame_rq_locked mods (idx : Z) w w1 :
  aget (rQlocks (wt w)) idx = false ->
  frame mods (set_wt (set_rQlocks (upd (rQlocks (wt w)) idx true) (wt w)) w)
    w1 ->
  let w' := set_wt (set_rQlocks (upd (rQlocks (wt w1)) idx false) (wt w1)) w1
  in
  frame mods (set_wt (set_rQlocks (rQlocks (wt w')) (wt w)) w) w' /\
  forall i, aget (rQlocks (wt w')) i = aget (rQlocks (wt w)) i.
Proof.
  intros Hrq (F1 & F2 & F3 & F4 & F5 & F6 & F7). cbv zeta.
  assert (E : rQlocks (wt w1) = upd (rQlocks (wt w)) idx true).
  { rewrite (ctl_rQlocks _ _ F3). cbn [wt set_wt].
    apply rQlocks_set_rQlocks. }
  split; [repeat split|].
  - intros a Ha. rewrite !load_set_rQlocks, (F1 a Ha).
    apply load_set_rQlocks.
  - intros l. rewrite !lstTag_set_rQlocks, F2. apply lstTag_set_rQlocks.
  - cbn [wt set_wt] in *.
    rewrite rQlocks_set_rQlocks, !ctl_set_rQlocks, F3, ctl_set_rQlocks.
    now rewrite set_rQlocks_twice.
  - destruct w1, w; exact F4.
  - destruct w1, w; exact F5.
  - destruct w1, w; exact F6.
  - destruct w1, w; exact F7.
  - intros i. cbn [wt set_wt]. rewrite rQlocks_set_rQlocks, E.
    destruct (Z.eq_dec idx i) as [<-|Hne].
    + now rewrite aget_upd_eq.
    + now rewrite !aget_upd_ne by exact Hne.
Qed.

(** A frame over the whole scheduler is one over everything but the
    run-queue flags. *)
Lemma frame_rq_of_frame mods w w' :
  frame mods w w' ->
  frame mods (set_wt (set_rQlocks (rQlocks (wt w')) (wt w)) w) w' /\
  forall i, aget (rQlocks (wt w')) i = aget (rQlocks (wt w)) i.
Proof.
  intros F. pose proof F as (_ & _ & F3 & _).
  rewrite (ctl_rQlocks _ _ F3), set_rQlocks_same, set_wt_same.
  split; [exact F|reflexivity].
Qed.

(** [lst.rm(tl); tl.next = nil; tl.prev = nil; setFlags(fRemoved)], with
    what it leaves alone. *)
Lemma rm_and_mark_full (lst : lstRef) (tl p n : addr) flags w wl :
  (forall a, load a wl = load a w) ->
  tInfo_flags (info (load tl w)) = flags ->
  next (load tl w) = Some n -> prev (load tl w) = Some p ->
  n <> tl -> p <> tl ->
  exists w1,
    rm_and_mark lst tl wl = Ok tt w1 /\
    frame [tl; p; n] wl w1 /\
    (tInfo_wheelPos (info (load tl w)) = lstTag lst wl ->
     faults w1 = faults wl) /\
    (load tl w1
    = set_info (tInfo_setFlags
                  (tInfo_setWheel (info (load tl w)) wheelNone wheelNoIdx)
                  fRemoved)
        (set_prev None (set_next None (load tl w))) /\
    load p w1
    = (if addr_eq_dec p n
       then set_prev (Some p) (set_next (Some n) (load p w))
       else set_next (Some n) (load p w)) /\
    load n w1
    = (if addr_eq_dec p n
       then set_prev (Some p) (set_next (Some n) (load p w))
       else set_prev (Some p) (load n w))) /\
    forall w', (forall a, load a w' = load a w1) ->
      removed_from tl p n flags w w'.
Proof.
  intros Hwl Hfl Hn Hp Hna Hpa.
  pose proof Hn as Hn'. pose proof Hp as Hp'.
  rewrite <- (Hwl tl) in Hn', Hp'.
  unfold rm_and_mark.
  destruct (timerLst_rm_spec lst tl p n wl Hn' Hp' Hna Hpa)
    as (w1 & R & F & B & Ltl & Lp & Ln).
  unfold bind at 1. rewrite R. mrun.
  eexists. split; [reflexivity|].
  match goal with |- frame _ _ ?W /\ _ => set (w2 := W) end.
  assert (F2 : frame [tl; p; n] wl w2).
  { unfold w2. repeat (apply frame_store_r; [cbn; tauto|]). exact F. }
  assert (L2 : load tl w2
               = set_info (tInfo_setFlags
                             (tInfo_setWheel (info (load tl wl)) wheelNone
                                wheelNoIdx) fRemoved)
                   (set_prev None (set_next None (load tl wl)))).
  { unfold w2. mload. rewrite Ltl. reflexivity. }
  assert (P2 : load p w2 = load p w1) by (unfold w2; mload; reflexivity).
  assert (N2 : load n w2 = load n w1) by (unfold w2; mload; reflexivity).
  split; [exact F2|]. split; [|split].
  - intros Hpos. unfold w2. rewrite !faults_store. apply B.
    rewrite Hwl. exact Hpos.
  - rewrite L2, P2, N2, Lp, Ln, !Hwl. repeat split.
  - intros w' Hw'.
    apply (removed_from_intro tl p n flags w wl w2 w' Hwl Hfl F2 L2);
      [| |exact Hw'].
    + rewrite P2, Lp. destruct (addr_eq_dec p n); reflexivity.
    + rewrite N2, Ln. destruct (addr_eq_dec p n) as [->|]; reflexivity.
Qed.

Ltac del_start Hlock Hall :=
  match goal with
  | |- context [WTimer_del ?fuel _ _] => destruct fuel; cbn [WTimer_del]
  end;
  unfold bind at 1; rewrite (lock_run _ Hlock);
  unfold bind at 1, rd at 1; rewrite load_set_opLock, Hall;
  rewrite active_not_deleted.

(** [del] of a timer waiting on a wheel. *)
Lemma del_wheel_full (fuel : nat) (delF : Z) (tl p n : addr) w flags wheel idx :
  opLock (wt w) = false ->
  tInfo_getAll (info (load tl w)) = (flags, wheel, idx) ->
  Z.land flags fActive <> 0 -> Z.land flags fDelete = 0 ->
  Z.land flags fRemoved = 0 ->
  0 <= wheel < WheelsNo ->
  0 <= idx < lsts_len (aget (wheels (wt w)) wheel) ->
  next (load tl w) = Some n -> prev (load tl w) = Some p ->
  n <> tl -> p <> tl ->
  exists w',
    WTimer_del fuel tl delF w = Ok (true, None) w' /\
    removed_from tl p n flags w w' /\ opLock (wt w') = false /\
    (load tl w'
    = set_info (tInfo_setFlags
                  (tInfo_setWheel (info (load tl w)) wheelNone wheelNoIdx)
                  fRemoved)
        (set_prev None (set_next None (load tl w))) /\
    load p w'
    = (if addr_eq_dec p n
       then set_prev (Some p) (set_next (Some n) (load p w))
       else set_next (Some n) (load p w)) /\
    load n w'
    = (if addr_eq_dec p n
       then set_prev (Some p) (set_next (Some n) (load p w))
       else set_prev (Some p) (load n w))) /\
    frame [tl; p; n] w w' /\
    (lstTag (delLst wheel idx w) w = (wheel, idx) -> faults w' = faults w).
Proof.
  intros Hlock Hall Hact Hdel Hrem Hwh Hidx Hn Hp Hna Hpa.
  destruct (getAll_flags_wheelPos _ _ _ _ Hall) as (Hfl & Hpos).
  apply Z.eqb_neq in Hact.
  assert (E1 : (wheel =? wheelNone) = false)
    by (apply Z.eqb_neq; unfold wheelNone, WheelsNo in *; lia).
  assert (E2 : (wheel <? WheelsNo) = true) by (apply Z.ltb_lt; lia).
  unfold delLst. rewrite E2.
  del_start Hlock Hall.
  all: rewrite Hact, Hdel; change (0 =? 0) with true; cbn [negb andb].
  all: rewrite E1; cbv iota.
  all: rewrite Hrem; change (negb (0 =? 0)) with false; unfold when at 1.
  all: unfold bind at 1, ret at 1; unfold bind at 1, rd at 1.
  all: rewrite load_set_opLock, (linked_not_detached tl p n _ Hn Hp Hna).
  all: rewrite andb_false_r, E2.
  all: unfold bind at 1; rewrite wheelLst_run;
    [|exact Hwh|cbn [wt set_wt]; rewrite wheels_set_opLock; exact Hidx].
  all: cbv beta.
  all: match goal with |- context [rm_and_mark ?l _] => set (L := l) end.
  all: destruct (rm_and_mark_full L tl p n flags w
                     (set_wt (set_opLock true (wt w)) w)
                     (fun a => load_set_opLock true a w) Hfl Hn Hp Hna Hpa)
           as (w1 & R & F & B & E & HR).
  all: pose proof F as (_ & _ & C & _).
  all: unfold bind at 1; rewrite R.
  all: unfold bind at 1; rewrite unlock_run
    by (rewrite (ctl_opLock _ _ C); reflexivity).
  all: unfold ret; eexists; split; [reflexivity|].
  all: split; [apply HR; intros a; apply load_set_opLock|].
  all: split; [reflexivity|].
  all: split; [rewrite !load_set_opLock; exact E|].
  all: split; [exact (frame_locked _ w w1 Hlock F)|].
  all: intros Htag; cbn [faults set_wt]; rewrite B;
    [reflexivity|rewrite Hpos, lstTag_set_opLock; unfold L; cbn [wt set_wt];
                 rewrite wheels_set_opLock; symmetry; exact Htag].
Qed.

(** [del] of a timer waiting on the expired list. *)
Lemma del_expired_full (fuel : nat) (delF : Z) (tl p n : addr) w flags idx :
  opLock (wt w) = false ->
  tInfo_getAll (info (load tl w)) = (flags, wheelExp, idx) ->
  Z.land flags fActive <> 0 -> Z.land flags fDelete = 0 ->
  Z.land flags fRemoved = 0 -> Z.land flags fRunning = 0 ->
  next (load tl w) = Some n -> prev (load tl w) = Some p ->
  n <> tl -> p <> tl ->
  exists w',
    WTimer_del fuel tl delF w = Ok (true, None) w' /\
    removed_from tl p n flags w w' /\ opLock (wt w') = false /\
    (load tl w'
    = set_info (tInfo_setFlags
                  (tInfo_setWheel (info (load tl w)) wheelNone wheelNoIdx)
                  fRemoved)
        (set_prev None (set_next None (load tl w))) /\
    load p w'
    = (if addr_eq_dec p n
       then set_prev (Some p) (set_next (Some n) (load p w))
       else set_next (Some n) (load p w)) /\
    load n w'
    = (if addr_eq_dec p n
       then set_prev (Some p) (set_next (Some n) (load p w))
       else set_prev (Some p) (load n w))) /\
    frame [tl; p; n] w w' /\
    (lstTag (delLst wheelExp idx w) w = (wheelExp, idx) ->
     faults w' = faults w).
Proof.
  intros Hlock Hall Hact Hdel Hrem Hrun Hn Hp Hna Hpa.
  destruct (getAll_flags_wheelPos _ _ _ _ Hall) as (Hfl & Hpos).
  apply Z.eqb_neq in Hact.
  unfold delLst. change (wheelExp <? WheelsNo) with false.
  change (wheelExp =? wheelExp) with true. cbv iota.
  del_start Hlock Hall.
  all: rewrite Hact, Hdel; change (0 =? 0) with true; cbn [negb andb].
  all: change (wheelExp =? wheelNone) with false; cbv iota.
  all: rewrite Hrem; change (negb (0 =? 0)) with false; unfold when at 1.
  all: unfold bind at 1, ret at 1; unfold bind at 1, rd at 1.
  all: rewrite load_set_opLock, (linked_not_detached tl p n _ Hn Hp Hna).
  all: rewrite andb_false_r.
  all: change (wheelExp <? WheelsNo) with false;
    change (wheelExp =? wheelExp) with true; cbv iota.
  all: unfold bind at 1, rd at 1; rewrite load_set_opLock, Hfl, Hrun.
  all: change (0 =? 0) with true; cbv iota.
  all: destruct (rm_and_mark_full Lexpired tl p n flags w
                     (set_wt (set_opLock true (wt w)) w)
                     (fun a => load_set_opLock true a w) Hfl Hn Hp Hna Hpa)
           as (w1 & R & F & B & E & HR).
  all: pose proof F as (_ & _ & C & _).
  all: unfold bind at 1; unfold bind at 1; rewrite R; unfold ret at 1.
  all: unfold bind at 1; rewrite unlock_run
    by (rewrite (ctl_opLock _ _ C); reflexivity).
  all: unfold ret; eexists; split; [reflexivity|].
  all: split; [apply HR; intros a; apply load_set_opLock|].
  all: split; [reflexivity|].
  all: split; [rewrite !load_set_opLock; exact E|].
  all: split; [exact (frame_locked _ w w1 Hlock F)|].
  all: intros Htag; cbn [faults set_wt]; rewrite B;
    [reflexivity|rewrite Hpos, lstTag_set_opLock; symmetry; exact Htag].
Qed.

(** [del] of a timer waiting on a run queue. *)
Lemma del_rq_full (fuel : nat) (delF : Z) (tl p n : addr) w flags idx :
  opLock (wt w) = false ->
  tInfo_getAll (info (load tl w)) = (flags, wheelRQ, idx) ->
  Z.land flags fActive <> 0 -> Z.land flags fDelete = 0 ->
  Z.land flags fRemoved = 0 -> Z.land flags fRunning = 0 ->
  0 <= idx < runQueuesNo -> aget (rQlocks (wt w)) idx = false ->
  next (load tl w) = Some n -> prev (load tl w) = Some p ->
  n <> tl -> p <> tl ->
  exists w',
    WTimer_del fuel tl delF w = Ok (true, None) w' /\
    removed_from tl p n flags w w' /\ opLock (wt w') = false /\
    (load tl w'
    = set_info (tInfo_setFlags
                  (tInfo_setWheel (info (load tl w)) wheelNone wheelNoIdx)
                  fRemoved)
        (set_prev None (set_next None (load tl w))) /\
    load p w'
    = (if addr_eq_dec p n
       then set_prev (Some p) (set_next (Some n) (load p w))
       else set_next (Some n) (load p w)) /\
    load n w'
    = (if addr_eq_dec p n
       then set_prev (Some p) (set_next (Some n) (load p w))
       else set_prev (Some p) (load n w))) /\
    (frame [tl; p; n] (set_wt (set_rQlocks (rQlocks (wt w')) (wt w)) w) w' /\
     forall i, aget (rQlocks (wt w')) i = aget (rQlocks (wt w)) i) /\
    (lstTag (delLst wheelRQ idx w) w = (wheelRQ, idx) ->
     faults w' = faults w).
Proof.
  intros Hlock Hall Hact Hdel Hrem Hrun Hidx Hrq Hn Hp Hna Hpa.
  destruct (getAll_flags_wheelPos _ _ _ _ Hall) as (Hfl & Hpos).
  apply Z.eqb_neq in Hact.
  unfold delLst. change (wheelRQ <? WheelsNo) with false.
  change (wheelRQ =? wheelExp) with false. cbv iota.
  del_start Hlock Hall.
  all: rewrite Hact, Hdel; change (0 =? 0) with true; cbn [negb andb].
  all: change (wheelRQ =? wheelNone) with false; cbv iota.
  all: rewrite Hrem; change (negb (0 =? 0)) with false; unfold when at 1.
  all: unfold bind at 1, ret at 1; unfold bind at 1, rd at 1.
  all: change (negb (wheelRQ =? wheelRQ)) with false; cbn [andb].
  all: change (wheelRQ <? WheelsNo) with false;
    change (wheelRQ =? wheelExp) with false;
    change (wheelRQ =? wheelRQ) with true; cbv iota.
  all: unfold bind at 1; rewrite unlock_run by reflexivity.
  all: rewrite (unlock_after_lock _ Hlock).
  all: unfold bind at 1; rewrite (rQlock_Lock_run idx w Hidx Hrq).
  all: unfold bind at 1, rd at 1; rewrite load_set_rQlocks, Hpos.
  all: rewrite !Z.eqb_refl; cbn [negb orb].
  all: unfold bind at 1, rd at 1; rewrite load_set_rQlocks, Hfl, Hrun.
  all: change (0 =? 0) with true; cbv iota.
  all: unfold bind at 1; unfold bind at 1; unfold rQidx at 1.
  all: destruct (Z.leb_spec 0 idx); [|lia].
  all: destruct (Z.ltb_spec idx runQueuesNo); [|lia].
  all: cbn [andb]; unfold ret at 1.
  all: destruct (rm_and_mark_full (LrQs idx) tl p n flags w
                  (set_wt (set_rQlocks (upd (rQlocks (wt w)) idx true) (wt w))
                     w)
                  (fun a => load_set_rQlocks _ a w) Hfl Hn Hp Hna Hpa)
           as (w1 & R & F & B & E & HR).
  all: pose proof F as (_ & _ & C & _).
  all: unfold bind at 1; rewrite R; unfold ret at 1.
  all: unfold bind at 1; rewrite rQlock_Unlock_run;
    [|exact Hidx|rewrite (ctl_rQlocks _ _ C); cbn [wt set_wt];
                 rewrite rQlocks_set_rQlocks; apply aget_upd_eq].
  all: unfold ret; eexists; split; [reflexivity|].
  all: split; [apply HR; intros a; apply load_set_rQlocks|].
  all: split;
    [cbn [wt set_wt]; rewrite opLock_set_rQlocks, (ctl_opLock _ _ C);
     cbn [wt set_wt]; rewrite opLock_set_rQlocks; exact Hlock|].
  all: split; [rewrite !load_set_rQlocks; exact E|].
  all: split; [exact (frame_rq_locked _ idx w w1 Hrq F)|].
  all: intros Htag; cbn [faults set_wt]; rewrite B;
    [reflexivity|rewrite Hpos, lstTag_set_rQlocks; symmetry; exact Htag].
Qed.

End DelFrame.

Section DelRemoves.
Context {U Arg : Type}.
Implicit Types (w : @World U Arg).

(** [del] of an active timer that is linked between [p] and [n], is not
    marked for deletion or removed, and waits on a wheel, on the expired
    list or on a run queue whose lock is free: [del] returns [(true, nil)].
    In the state it leaves, the timer is detached, has no position and
    carries [fRemoved], its other fields are those before the call; [p]
    and [n] are linked to each other and otherwise as before; the
    scheduler lock is free again, and every run-queue lock is as it was
    before the call; no other entry, no list head's position, no other
    field of the scheduler and nothing of the rest of the state has
    changed.  When the list the timer is taken from carries the timer's
    position, [rm] reports nothing: the fault log is the one before the
    call. *)
Theorem del_removes_waiting_timer (fuel : nat) (delF : Z) (tl p n : addr) w
  flags wheel idx :
  opLock (wt w) = false ->
  tInfo_getAll (info (load tl w)) = (flags, wheel, idx) ->
  Z.land flags fActive <> 0 -> Z.land flags fDelete = 0 ->
  Z.land flags fRemoved = 0 ->
  waiting_on wheel idx flags w ->
  next (load tl w) = Some n -> prev (load tl w) = Some p ->
  n <> tl -> p <> tl ->
  exists w',
    WTimer_del fuel tl delF w = Ok (true, None) w' /\
    removed_from tl p n flags w w' /\ opLock (wt w') = false /\
    (load tl w'
    = set_info (tInfo_setFlags
                  (tInfo_setWheel (info (load tl w)) wheelNone wheelNoIdx)
                  fRemoved)
        (set_prev None (set_next None (load tl w))) /\
    load p w'
    = (if addr_eq_dec p n
       then set_prev (Some p) (set_next (Some n) (load p w))
       else set_next (Some n) (load p w)) /\
    load n w'
    = (if addr_eq_dec p n
       then set_prev (Some p) (set_next (Some n) (load p w))
       else set_prev (Some p) (load n w))) /\
    (forall i, aget (rQlocks (wt w')) i = aget (rQlocks (wt w)) i) /\
    frame [tl; p; n] (set_wt (set_rQlocks (rQlocks (wt w')) (wt w)) w) w' /\
    (lstTag (delLst wheel idx w) w = (wheel, idx) -> faults w' = faults w).
Proof.
  intros Hlock Hall Hact Hdel Hrem Hwait Hn Hp Hna Hpa.
  destruct Hwait as [(Hwh & Hidx)|[(-> & Hrun)|(-> & Hrun & Hidx & Hrq)]].
  - destruct (del_wheel_full fuel delF tl p n w flags wheel idx Hlock Hall
                Hact Hdel Hrem Hwh Hidx Hn Hp Hna Hpa)
      as (w' & R & Rm & L & E & F & B).
    destruct (frame_rq_of_frame _ _ _ F) as (F' & Q).
    exists w'. repeat (split; [assumption|]). exact B.
  - destruct (del_expired_full fuel delF tl p n w flags idx Hlock Hall
                Hact Hdel Hrem Hrun Hn Hp Hna Hpa)
      as (w' & R & Rm & L & E & F & B).
    destruct (frame_rq_of_frame _ _ _ F) as (F' & Q).
    exists w'. repeat (split; [assumption|]). exact B.
  - destruct (del_rq_full fuel delF tl p n w flags idx Hlock Hall
                Hact Hdel Hrem Hrun Hidx Hrq Hn Hp Hna Hpa)
      as (w' & R & Rm & L & E & (F' & Q) & B).
    exists w'. repeat (split; [assumption|]). exact B.
Qed.

End DelRemoves.

Lemma del_removes_waiting_timer_witness :
  exists w',
    WTimer_DelTry 0 (ATimer 0) world_expiring = Ok (true, None) w' /\
    removed_from (ATimer 0) (AHead Lexpired) (AHead Lexpired) fActive
      world_expiring w' /\
    opLock (wt w') = false /\
    (forall i, aget (rQlocks (wt w')) i
               = aget (rQlocks (wt world_expiring)) i) /\
    faults w' = faults world_expiring.
Proof.
  destruct (del_removes_waiting_timer 0 fDelTry (ATimer 0) (AHead Lexpired)
              (AHead Lexpired) world_expiring fActive wheelExp wheelNoIdx
              eq_refl)
    as (w' & R & Rm & L & _ & Q & _ & B);
    [ vm_compute; reflexivity | vm_compute; discriminate | reflexivity
    | reflexivity | right; left; split; reflexivity | reflexivity
    | reflexivity | discriminate | discriminate |].
  exists w'. split; [exact R|]. split; [exact Rm|]. split; [exact L|].
  split; [exact Q|]. apply B. vm_compute. reflexivity.
Defined.

(** ** Only [ticker] writes [badTime] *)

Section KeepsBadTime.
Context {U Arg : Type}.
Implicit Types (w : @World U Arg) (s : @WTimer U Arg).

Lemma kb_ret {A : Type} (a : A) : keeps_badTime (U:=U) (Arg:=Arg) (ret a).
Proof. intros w r w' [= _ <-]. reflexivity. Qed.

Lemma kb_bind {A B : Type} (c : M A) (k : A -> M B) :
  keeps_badTime c -> (forall a, keeps_badTime (k a)) ->
  keeps_badTime (U:=U) (Arg:=Arg) (bind c k).
Proof.
  intros Hc Hk w r w' H. unfold bind in H.
  destruct (c w) as [a w1| |] eqn:E; try discriminate.
  rewrite (Hk a w1 r w' H). exact (Hc w a w1 E).
Qed.

Lemma kb_panic {A : Type} (p : gopanic) :
  keeps_badTime (U:=U) (Arg:=Arg) (A:=A) (panic p).
Proof. intros w r w' H. discriminate. Qed.

Lemma kb_outOfFuel {A : Type} :
  keeps_badTime (U:=U) (Arg:=Arg) (A:=A) outOfFuel.
Proof. intros w r w' H. discriminate. Qed.

Lemma kb_rd (a : addr) : keeps_badTime (U:=U) (Arg:=Arg) (rd a).
Proof. intros w r w' [= _ <-]. reflexivity. Qed.

Lemma kb_rdLst (l : lstRef) : keeps_badTime (U:=U) (Arg:=Arg) (rdLst l).
Proof. intros w r w' [= _ <-]. reflexivity. Qed.

Lemma kb_rdWt {A : Type} (g : @WTimer U Arg -> A) :
  keeps_badTime (U:=U) (Arg:=Arg) (rdWt g).
Proof. intros w r w' [= _ <-]. reflexivity. Qed.

Lemma kb_timestamp_Now : keeps_badTime (U:=U) (Arg:=Arg) timestamp_Now.
Proof. intros w r w' [= _ <-]. reflexivity. Qed.

Lemma kb_deref (p : ptr) : keeps_badTime (U:=U) (Arg:=Arg) (deref p).
Proof. destruct p; [apply kb_ret | apply kb_panic]. Qed.

Lemma badTime_ctl s s' : ctl s' = ctl s -> badTime s' = badTime s.
Proof. intros H. apply (f_equal badTime) in H. destruct s, s'. exact H. Qed.

Lemma kb_wr (a : addr) (g : TimerLnk -> TimerLnk) :
  keeps_badTime (U:=U) (Arg:=Arg) (wr a g).
Proof. intros w r w' [= _ <-]. apply badTime_ctl, ctl_store. Qed.

Lemma kb_wrWt (g : @WTimer U Arg -> @WTimer U Arg) :
  (forall s, badTime (g s) = badTime s) ->
  keeps_badTime (U:=U) (Arg:=Arg) (wrWt g).
Proof. intros Hg w r w' [= _ <-]. apply Hg. Qed.

Lemma kb_when (c : bool) (m : M unit) :
  keeps_badTime m -> keeps_badTime (U:=U) (Arg:=Arg) (when c m).
Proof. intros H. destruct c; [exact H | apply kb_ret]. Qed.

Lemma kb_PANIC (msg : string) : keeps_badTime (U:=U) (Arg:=Arg) (PANIC msg).
Proof. intros w r w' [= _ <-]. reflexivity. Qed.

Lemma kb_BUG (msg : string) : keeps_badTime (U:=U) (Arg:=Arg) (BUG msg).
Proof. intros w r w' [= _ <-]. reflexivity. Qed.

Lemma badTime_set_opLock (b : bool) s : badTime (set_opLock b s) = badTime s.
Proof. destruct s; reflexivity. Qed.

Lemma badTime_set_rQlocks (l : arr bool) s :
  badTime (set_rQlocks l s) = badTime s.
Proof. destruct s; reflexivity. Qed.

Lemma kb_lock : keeps_badTime (U:=U) (Arg:=Arg) WTimer_lock.
Proof.
  intros w r w' H. unfold WTimer_lock in H.
  destruct (opLock (wt w)); [discriminate|]. injection H as _ <-.
  apply badTime_set_opLock.
Qed.

Lemma kb_unlock : keeps_badTime (U:=U) (Arg:=Arg) WTimer_unlock.
Proof.
  intros w r w' H. unfold WTimer_unlock in H.
  destruct (opLock (wt w)); [|discriminate]. injection H as _ <-.
  apply badTime_set_opLock.
Qed.

Lemma kb_rQidx (i : Z) : keeps_badTime (U:=U) (Arg:=Arg) (rQidx i).
Proof.
  unfold rQidx. destruct ((0 <=? i) && (i <? runQueuesNo));
    [apply kb_ret | apply kb_panic].
Qed.

Lemma kb_rQlock_Lock (i : Z) :
  keeps_badTime (U:=U) (Arg:=Arg) (rQlock_Lock i).
Proof.
  apply kb_bind; [apply kb_rQidx|]. intros j w r w' H.
  destruct (aget (rQlocks (wt w)) j); [discriminate|]. injection H as _ <-.
  apply badTime_set_rQlocks.
Qed.

Lemma kb_rQlock_Unlock (i : Z) :
  keeps_badTime (U:=U) (Arg:=Arg) (rQlock_Unlock i).
Proof.
  apply kb_bind; [apply kb_rQidx|]. intros j w r w' H.
  destruct (aget (rQlocks (wt w)) j); [|discriminate]. injection H as _ <-.
  apply badTime_set_rQlocks.
Qed.

Lemma kb_wheelLst (wheel idx : Z) :
  keeps_badTime (U:=U) (Arg:=Arg) (wheelLst wheel idx).
Proof.
  intros w r w' H. unfold wheelLst in H.
  destruct ((0 <=? wheel) && (wheel <? WheelsNo)); [|discriminate].
  destruct ((0 <=? idx) && (idx <? lsts_len (aget (wheels (wt w)) wheel)));
    [|discriminate].
  now injection H as _ <-.
Qed.

Lemma kb_call_handler (t : addr) :
  keeps_badTime (U:=U) (Arg:=Arg) (call_handler t).
Proof.
  unfold call_handler. apply kb_bind; [apply kb_rd|]. intros x.
  destruct (f x) as [fn|]; [|apply kb_panic].
  intros w r w' H. destruct (fn t (arg x) (user w)) as (u' & r').
  injection H as _ <-. reflexivity.
Qed.

Lemma kb_spawn_handler (t : addr) :
  keeps_badTime (U:=U) (Arg:=Arg) (spawn_handler t).
Proof. intros w r w' [= _ <-]. reflexivity. Qed.

(** One step of the proofs below: the computation is taken apart along
    its binds, branches and stores. *)
Ltac kb_step :=
  first
    [ simple apply kb_ret | simple apply kb_panic | simple apply kb_outOfFuel
    | simple apply kb_rd | simple apply kb_rdLst | simple apply kb_rdWt
    | simple apply kb_deref | simple apply kb_timestamp_Now
    | simple apply kb_wr | simple apply kb_PANIC | simple apply kb_BUG
    | simple apply kb_lock | simple apply kb_unlock | simple apply kb_rQidx
    | simple apply kb_rQlock_Lock | simple apply kb_rQlock_Unlock
    | simple apply kb_wheelLst
    | simple apply kb_call_handler | simple apply kb_spawn_handler
    | simple apply kb_when
    | simple apply kb_wrWt; intros [];
      repeat match goal with
             | |- context [if ?c then _ else _] => destruct c
             end; reflexivity
    | lazymatch goal with
      | |- keeps_badTime (bind _ _) =>
          simple apply kb_bind; [|intros; cbv beta]
      | |- keeps_badTime (if ?c then _ else _) => destruct c
      | |- keeps_badTime (match ?p with _ => _ end) => destruct p
      end ].

Lemma kb_isDetached (e : addr) :
  keeps_badTime (U:=U) (Arg:=Arg) (isDetached e).
Proof. unfold isDetached. repeat kb_step. Qed.

Lemma kb_isEmpty (lst : lstRef) :
  keeps_badTime (U:=U) (Arg:=Arg) (timerLst_isEmpty lst).
Proof. unfold timerLst_isEmpty. repeat kb_step. Qed.

Lemma kb_setFlags_at (a : addr) (m : Z) :
  keeps_badTime (U:=U) (Arg:=Arg) (setFlags_at a m).
Proof. unfold setFlags_at. repeat kb_step. Qed.

Lemma kb_setWheel_at (a : addr) (wh idx : Z) :
  keeps_badTime (U:=U) (Arg:=Arg) (setWheel_at a wh idx).
Proof. unfold setWheel_at. repeat kb_step. Qed.

Lemma kb_append (lst : lstRef) (e : addr) :
  keeps_badTime (U:=U) (Arg:=Arg) (timerLst_append lst e).
Proof.
  unfold timerLst_append. repeat first [simple apply kb_isDetached | kb_step].
Qed.

Lemma kb_rm (lst : lstRef) (e : ptr) :
  keeps_badTime (U:=U) (Arg:=Arg) (timerLst_rm lst e).
Proof. unfold timerLst_rm. repeat kb_step. Qed.

Lemma kb_setWheel_loop (fuel : nat) :
  forall (v e : ptr) (wh idx : Z),
    keeps_badTime (U:=U) (Arg:=Arg) (setWheel_loop fuel v e wh idx).
Proof.
  induction fuel as [|k IH]; intros v e wh idx; cbn [setWheel_loop];
    repeat first [simple apply IH | simple apply kb_setWheel_at | kb_step].
Qed.

Lemma kb_rmSubList (fuel : nat) (lst : lstRef) (s e : ptr) :
  keeps_badTime (U:=U) (Arg:=Arg) (timerLst_rmSubList fuel lst s e).
Proof.
  unfold timerLst_rmSubList.
  repeat first [simple apply kb_setWheel_loop | simple apply kb_setWheel_at | kb_step].
Qed.

Lemma kb_appendSubList (fuel : nat) (lst : lstRef) (s e : ptr) :
  keeps_badTime (U:=U) (Arg:=Arg) (timerLst_appendSubList fuel lst s e).
Proof.
  unfold timerLst_appendSubList.
  repeat first [simple apply kb_setWheel_loop | simple apply kb_setWheel_at | kb_step].
Qed.

Lemma kb_mv (fuel : nat) (lst dst : lstRef) :
  keeps_badTime (U:=U) (Arg:=Arg) (timerLst_mv fuel lst dst).
Proof.
  unfold timerLst_mv. cbv zeta.
  repeat first [simple apply kb_rmSubList | simple apply kb_appendSubList | kb_step].
Qed.

Lemma kb_appendTimer (tl : addr) (wheel idx : Z) :
  keeps_badTime (U:=U) (Arg:=Arg) (WTimer_appendTimer tl wheel idx).
Proof.
  unfold WTimer_appendTimer. repeat first [simple apply kb_append | kb_step].
Qed.

Lemma kb_addUnsafe (tl : addr) (now : Ticks) :
  keeps_badTime (U:=U) (Arg:=Arg) (WTimer_addUnsafe tl now).
Proof.
  unfold WTimer_addUnsafe. cbv zeta.
  repeat first [simple apply kb_appendTimer | kb_step].
Qed.

Lemma kb_redistTimer (lst : lstRef) (tl : ptr) (now : Ticks) :
  keeps_badTime (U:=U) (Arg:=Arg) (WTimer_redistTimer lst tl now).
Proof.
  unfold WTimer_redistTimer.
  repeat first [simple apply kb_rm | simple apply kb_appendTimer | simple apply kb_setFlags_at
               | kb_step].
Qed.

Lemma kb_redistLst_loop (fuel : nat) (lst : lstRef) (now : Ticks) :
  forall v nxt : ptr,
    keeps_badTime (U:=U) (Arg:=Arg) (redistLst_loop fuel lst v nxt now).
Proof.
  induction fuel as [|k IH]; intros v nxt; cbn [redistLst_loop];
    repeat first [simple apply IH | simple apply kb_redistTimer | kb_step].
Qed.

Lemma kb_redistLst (fuel : nat) (lst : lstRef) (now : Ticks) :
  keeps_badTime (U:=U) (Arg:=Arg) (WTimer_redistLst fuel lst now).
Proof.
  unfold WTimer_redistLst. cbv zeta.
  repeat first [simple apply kb_redistLst_loop | simple apply kb_isEmpty | kb_step].
Qed.

Lemma kb_redistTimers (fuel : nat) (now : Ticks) :
  keeps_badTime (U:=U) (Arg:=Arg) (WTimer_redistTimers fuel now).
Proof.
  unfold WTimer_redistTimers. cbv zeta.
  repeat first [simple apply kb_redistLst | simple apply kb_mv | kb_step].
Qed.

Lemma kb_afterRunUnsafe (t : ptr) (rearm : bool) (delta : Z) :
  keeps_badTime (U:=U) (Arg:=Arg) (WTimer_afterRunUnsafe t rearm delta).
Proof.
  unfold WTimer_afterRunUnsafe.
  repeat first [simple apply kb_addUnsafe | simple apply kb_setFlags_at | kb_step].
Qed.

Lemma kb_runq_signal (cnt : nat) :
  keeps_badTime (U:=U) (Arg:=Arg) (runq_signal cnt).
Proof.
  induction cnt as [|k IH]; cbn [runq_signal];
    repeat first [simple apply IH | kb_step].
Qed.

Lemma kb_processExpired_loop (fuel : nat) :
  forall rQadded : Z,
    keeps_badTime (U:=U) (Arg:=Arg) (processExpired_loop fuel rQadded).
Proof.
  induction fuel as [|k IH]; intros rQadded; cbn [processExpired_loop];
    cbv zeta;
    repeat first [simple apply IH | simple apply kb_isEmpty | simple apply kb_rm
                 | simple apply kb_setFlags_at | simple apply kb_afterRunUnsafe
                 | simple apply kb_append | kb_step].
Qed.

Lemma kb_processExpired (fuel : nat) (now : Ticks) :
  keeps_badTime (U:=U) (Arg:=Arg) (WTimer_processExpired fuel now).
Proof.
  unfold WTimer_processExpired. cbv zeta.
  repeat first [simple apply kb_processExpired_loop | simple apply kb_runq_signal | kb_step].
Qed.

Lemma kb_run (fuel : nat) (now : Ticks) :
  keeps_badTime (U:=U) (Arg:=Arg) (WTimer_run fuel now).
Proof.
  unfold WTimer_run.
  repeat first [simple apply kb_redistTimers | simple apply kb_processExpired | kb_step].
Qed.

Lemma kb_incTime : keeps_badTime (U:=U) (Arg:=Arg) WTimer_incTime.
Proof. unfold WTimer_incTime. repeat kb_step. Qed.

Lemma kb_advanceTimeTo_loop (fuel : nat) (t : Ticks) :
  keeps_badTime (U:=U) (Arg:=Arg) (advanceTimeTo_loop fuel t).
Proof.
  induction fuel as [|k IH]; cbn [advanceTimeTo_loop];
    repeat first [simple apply IH | simple apply kb_incTime
                 | simple apply kb_run | kb_step].
Qed.

Lemma kb_advanceTimeTo (fuel : nat) (t : Ticks) :
  keeps_badTime (U:=U) (Arg:=Arg) (WTimer_advanceTimeTo fuel t).
Proof.
  unfold WTimer_advanceTimeTo.
  repeat first [simple apply kb_advanceTimeTo_loop | kb_step].
Qed.

Lemma badTime_set_badTime (n : Z) s : badTime (set_badTime n s) = n.
Proof. destruct s; reflexivity. Qed.

Lemma lastTickT_set_badTime (n : Z) s :
  lastTickT (set_badTime n s) = lastTickT s.
Proof. destruct s; reflexivity. Qed.

Lemma tickDuration_set_badTime (n : Z) s :
  tickDuration (set_badTime n s) = tickDuration s.
Proof. destruct s; reflexivity. Qed.

(** [ticker] on a clock sample that is not earlier than [lastTickT]: the
    count of backward samples is 0 when it returns, whatever it then does
    to the wheels. *)
Lemma ticker_forward_resets (fuel : nat) w (r : Z) w' :
  lastTickT (wt w) <= wallClock w ->
  WTimer_ticker fuel w = Ok r w' -> badTime (wt w') = 0.
Proof.
  intros Hfw H. apply Z.ltb_ge in Hfw.
  unfold WTimer_ticker in H.
  unfold bind at 1, timestamp_Now at 1 in H.
  unfold bind at 1, rdWt at 1 in H. rewrite Hfw in H.
  unfold bind at 1, wrWt at 1 in H.
  match type of H with
  | ?c ?w0 = Ok _ _ => assert (KB : keeps_badTime c)
  end.
  { repeat first [simple apply kb_advanceTimeTo | kb_step]. }
  apply KB in H. rewrite H. cbn [wt set_wt]. apply badTime_set_badTime.
Qed.

(** The same sample when less than a tick has passed since [lastTickT]
    (and the reference needs no re-adjusting): [ticker] returns 0 and
    only clears the count. *)
Lemma ticker_forward_short (fuel : nat) w :
  lastTickT (wt w) <= wallClock w ->
  tickDuration (wt w) <> 0 ->
  Z.quot (i64 (wallClock w - refTS (wt w))) (tickDuration (wt w))
  <= MaxTicksDiff - 2 ->
  i64 (wallClock w - lastTickT (wt w)) < tickDuration (wt w) ->
  WTimer_ticker fuel w = Ok 0 (set_wt (set_badTime 0 (wt w)) w).
Proof.
  intros Hfw Htd Hov Hd.
  apply Z.ltb_ge in Hfw. apply Z.eqb_neq in Htd. apply Z.ltb_lt in Hd.
  assert (Hov' : (Z.quot (i64 (wallClock w - refTS (wt w)))
                    (tickDuration (wt w)) >? MaxTicksDiff - 2) = false).
  { rewrite Z.gtb_ltb. apply Z.ltb_ge. exact Hov. }
  unfold WTimer_ticker.
  unfold bind at 1, timestamp_Now at 1.
  unfold bind at 1, rdWt at 1. rewrite Hfw.
  unfold bind at 1, wrWt at 1.
  rewrite Htd. unfold when at 1. unfold bind at 1, ret at 1.
  rewrite Hov'. unfold when at 1. unfold bind at 1, ret at 1.
  unfold bind at 1, rdWt at 1. cbn [wt set_wt].
  rewrite lastTickT_set_badTime, tickDuration_set_badTime, Hd.
  reflexivity.
Qed.

Lemma Ticks_set_badTime (n d : Z) s :
  WTimer_Ticks (set_badTime n s) d = WTimer_Ticks s d.
Proof. destruct s; reflexivity. Qed.

Lemma Now_set_badTime (n : Z) s :
  WTimer_Now (set_badTime n s) = WTimer_Now s.
Proof. destruct s; reflexivity. Qed.

Lemma Now_set_lastTickT (n : Z) s :
  WTimer_Now (set_lastTickT n s) = WTimer_Now s.
Proof. destruct s; reflexivity. Qed.

Lemma opLock_set_lastTickT (n : Z) s :
  opLock (set_lastTickT n s) = opLock s.
Proof. destruct s; reflexivity. Qed.

Lemma opLock_set_badTime (n : Z) s : opLock (set_badTime n s) = opLock s.
Proof. destruct s; reflexivity. Qed.

Lemma badTime_set_lastTickT (n : Z) s :
  badTime (set_lastTickT n s) = badTime s.
Proof. destruct s; reflexivity. Qed.

Lemma badTime_set_nowTicks (n : Z) s :
  badTime (set_nowTicks n s) = badTime s.
Proof. destruct s; reflexivity. Qed.

Lemma lastTickT_set_nowTicks (n : Z) s :
  lastTickT (set_nowTicks n s) = lastTickT s.
Proof. destruct s; reflexivity. Qed.

Lemma lastTickT_set_lastTickT (n : Z) s :
  lastTickT (set_lastTickT n s) = n.
Proof. destruct s; reflexivity. Qed.

Lemma Val_Sub_Add (a b : Ticks) :
  Ticks_Val (Ticks_Sub (Ticks_Add a b) a) = Ticks_Val b.
Proof.
  rewrite Ticks_Val_Sub. change TicksBits with 48.
  unfold Ticks_Val. rewrite !land_TicksMask, v_Add, Z.mod_mod by lia.
  rewrite Zminus_mod_idemp_l, Zminus_mod_idemp_r.
  f_equal. lia.
Qed.

(** The same sample on a scheduler with no timer waiting, when one tick
    or more has passed: [ticker] returns the ticks that passed, with the
    count cleared, [lastTickT] at the last whole tick and the logical time
    moved by those ticks. *)
Lemma ticker_forward_quiet (fuel : nat) w :
  quiet w -> opLock (wt w) = false ->
  lastTickT (wt w) <= wallClock w ->
  tickDuration (wt w) <> 0 ->
  Z.quot (i64 (wallClock w - refTS (wt w))) (tickDuration (wt w))
  <= MaxTicksDiff - 2 ->
  tickDuration (wt w) <= i64 (wallClock w - lastTickT (wt w)) ->
  Ticks_Val (fst (WTimer_Ticks (wt w) (i64 (wallClock w - lastTickT (wt w)))))
  <= MaxTicksDiff ->
  (Z.to_nat (Ticks_Val (fst (WTimer_Ticks (wt w)
                               (i64 (wallClock w - lastTickT (wt w))))))
   <= fuel)%nat ->
  exists w',
    WTimer_ticker fuel w
    = Ok (Ticks_Val (fst (WTimer_Ticks (wt w)
                            (i64 (wallClock w - lastTickT (wt w)))))) w' /\
    badTime (wt w') = 0 /\
    lastTickT (wt w')
    = wallClock w
      + - snd (WTimer_Ticks (wt w) (i64 (wallClock w - lastTickT (wt w)))) /\
    Ticks_EQ (WTimer_Now (wt w'))
      (Ticks_Add (WTimer_Now (wt w))
         (fst (WTimer_Ticks (wt w) (i64 (wallClock w - lastTickT (wt w))))))
    = true.
Proof.
  intros Hq Hlock Hfw Htd Hov Hd Hm Hf.
  apply Z.ltb_ge in Hfw. apply Z.eqb_neq in Htd. apply Z.ltb_ge in Hd.
  assert (Hov' : (Z.quot (i64 (wallClock w - refTS (wt w)))
                    (tickDuration (wt w)) >? MaxTicksDiff - 2) = false).
  { rewrite Z.gtb_ltb. apply Z.ltb_ge. exact Hov. }
  unfold WTimer_ticker.
  unfold bind at 1, timestamp_Now at 1.
  unfold bind at 1, rdWt at 1. rewrite Hfw.
  unfold bind at 1, wrWt at 1.
  rewrite Htd. unfold when at 1. unfold bind at 1, ret at 1.
  rewrite Hov'. unfold when at 1. unfold bind at 1, ret at 1.
  unfold bind at 1, rdWt at 1. cbn [wt set_wt].
  rewrite lastTickT_set_badTime, tickDuration_set_badTime, Hd,
    Ticks_set_badTime.
  destruct (WTimer_Ticks (wt w) (i64 (wallClock w - lastTickT (wt w))))
    as (ticks & rest) eqn:ET.
  cbn [fst snd] in *.
  unfold bind at 1, wrWt at 1. unfold bind at 1, rdWt at 1.
  cbn [wt set_wt]. rewrite Now_set_lastTickT, Now_set_badTime.
  set (w2 := set_wt (set_lastTickT (wallClock w + - rest)
                       (set_badTime 0 (wt w)))
               (set_wt (set_badTime 0 (wt w)) w)).
  assert (N2 : WTimer_Now (wt w2) = WTimer_Now (wt w)).
  { unfold w2. cbn [wt set_wt].
    now rewrite Now_set_lastTickT, Now_set_badTime. }
  assert (Q2 : quiet w2).
  { unfold w2. apply quiet_same_lists; [..|apply quiet_same_lists];
      try exact Hq; cbn [wt set_wt]; destruct (wt w); reflexivity. }
  assert (L2 : opLock (wt w2) = false).
  { unfold w2. cbn [wt set_wt].
    now rewrite opLock_set_lastTickT, opLock_set_badTime. }
  set (t := Ticks_Add (WTimer_Now (wt w)) ticks).
  assert (D2 : Ticks_Val (Ticks_Sub t (WTimer_Now (wt w2))) = Ticks_Val ticks).
  { rewrite N2. apply Val_Sub_Add. }
  destruct (advanceTimeTo_loop_quiet fuel t w2 Q2 L2) as (w' & R & D & E);
    [rewrite D2; exact Hf | rewrite D2; exact Hm |].
  assert (HG : Ticks_GT (WTimer_Now (wt w2)) t = false).
  { destruct (Z.eq_dec (Ticks_Val (Ticks_Sub t (WTimer_Now (wt w2)))) 0)
      as [Hz|Hz].
    - apply (dist_zero t w2 Hz).
    - apply (dist_pos t w2).
      pose proof (Ticks_Val_range (Ticks_Sub t (WTimer_Now (wt w2)))).
      rewrite D2 in *. lia. }
  unfold bind at 1. unfold WTimer_advanceTimeTo.
  unfold bind at 1, rdWt at 1. rewrite HG.
  unfold when at 1. unfold bind at 1, ret at 1. rewrite R.
  unfold ret. exists w'. split; [reflexivity|].
  split; [|split].
  - rewrite E. cbn [wt set_wt]. rewrite badTime_set_nowTicks.
    unfold w2. cbn [wt set_wt].
    now rewrite badTime_set_lastTickT, badTime_set_badTime.
  - rewrite E. cbn [wt set_wt]. rewrite lastTickT_set_nowTicks.
    unfold w2. cbn [wt set_wt]. apply lastTickT_set_lastTickT.
  - pose proof (proj1 (dist_zero t w' D)) as HN.
    unfold Ticks_NE in HN. now apply negb_false_iff in HN.
Qed.

End KeepsBadTime.

(** ** Backward clock samples are counted in a row *)

Section TickerCount.
Context {U Arg : Type}.
Implicit Types (w : @World U Arg).

(** A run of backward samples that takes the count from [k] to at most
    10. *)
Lemma ticker_backward_run (fuel : nat) (samples : list Z) :
  forall (k : nat) w,
    badTime (wt w) = Z.of_nat k ->
    (k + List.length samples <= 10)%nat ->
    Forall (fun ts => ts < lastTickT (wt w)) samples ->
    exists w',
      ticker_samples fuel samples w = Ok tt w' /\
      badTime (wt w') = Z.of_nat (k + List.length samples) /\
      lastTickT (wt w') = lastTickT (wt w) /\
      refTS (wt w') = refTS (wt w) /\
      refTicks (wt w') = refTicks (wt w) /\
      nowTicks (wt w') = nowTicks (wt w).
Proof.
  induction samples as [|ts rest IH]; intros k w0 Hk Hlen Hall.
  - exists w0. cbn. rewrite Nat.add_0_r. repeat split; auto.
  - inversion Hall as [|? ? Hts Hrest]; subst.
    cbn [ticker_samples List.length] in *.
    unfold bind at 1. unfold bind at 1.
    rewrite (ticker_backwards_step fuel (set_wallClock ts w0)) by exact Hts.
    cbv zeta. cbn [wt set_wallClock badTime wallClock].
    assert (Hu : u32 (badTime (wt w0) + 1) = Z.of_nat (S k)).
    { rewrite Hk. unfold u32. rewrite Z.mod_small; lia. }
    rewrite Hu.
    destruct (Z.gtb_spec (Z.of_nat (S k)) 10) as [H|_]; [lia|].
    destruct (IH (S k) (set_wt (set_badTime (Z.of_nat (S k)) (wt w0))
                          (set_wallClock ts w0)))
      as (w' & HR & Hb & Hl & Hs & Hr & Hn).
    + reflexivity.
    + lia.
    + exact Hrest.
    + exists w'. rewrite HR. cbn in *.
      repeat split; try assumption.
      rewrite Hb. f_equal. lia.
Qed.

(** The backward sample that finds the count at 10. *)
Lemma ticker_backward_rebase (fuel : nat) (ts : Z) w :
  badTime (wt w) = 10 -> ts < lastTickT (wt w) ->
  exists w',
    ticker_samples fuel [ts] w = Ok tt w' /\
    lastTickT (wt w') = ts /\ refTS (wt w') = ts /\
    refTicks (wt w') = WTimer_Now (wt w) /\
    nowTicks (wt w') = nowTicks (wt w).
Proof.
  intros Hb Hts. cbn [ticker_samples].
  unfold bind at 1. unfold bind at 1.
  rewrite (ticker_backwards_step fuel (set_wallClock ts w)) by exact Hts.
  cbv zeta. cbn [wt set_wallClock badTime wallClock].
  rewrite Hb. change (u32 (10 + 1) >? 10) with true. cbn iota.
  eexists. split; [reflexivity|]. cbn. repeat split.
Qed.

(** Up to 10 backward samples in a row from a count at 0, and the 11th. *)
Lemma ticker_backward_count (fuel : nat) (samples : list Z) w :
  badTime (wt w) = 0 ->
  (List.length samples <= 10)%nat ->
  Forall (fun ts => ts < lastTickT (wt w)) samples ->
  exists w',
    ticker_samples fuel samples w = Ok tt w' /\
    badTime (wt w') = Z.of_nat (List.length samples) /\
    lastTickT (wt w') = lastTickT (wt w) /\
    refTS (wt w') = refTS (wt w) /\
    refTicks (wt w') = refTicks (wt w) /\
    nowTicks (wt w') = nowTicks (wt w) /\
    forall ts,
      List.length samples = 10%nat -> ts < lastTickT (wt w) ->
      exists w'',
        ticker_samples fuel [ts] w' = Ok tt w'' /\
        lastTickT (wt w'') = ts /\ refTS (wt w'') = ts /\
        refTicks (wt w'') = WTimer_Now (wt w) /\
        nowTicks (wt w'') = nowTicks (wt w).
Proof.
  intros Hbad Hlen Hall.
  destruct (ticker_backward_run fuel samples 0%nat w Hbad Hlen Hall)
    as (w' & HR & Hb & Hl & Hs & Hr & Hn).
  exists w'. repeat split; try assumption.
  intros ts H10 Hts.
  destruct (ticker_backward_rebase fuel ts w') as (w'' & R & E1 & E2 & E3 & E4).
  - rewrite Hb, H10. reflexivity.
  - rewrite Hl. exact Hts.
  - exists w''. repeat split; try assumption.
    + rewrite E3. unfold WTimer_Now. now rewrite Hn.
    + now rewrite E4.
Qed.

(** C9. On a clock sample earlier than [lastTickT], [ticker] adds one to
    [badTime] and returns 0 with the logical time, the wheels and the
    timers as they were, whatever its fuel; while the counter is at most
    10 nothing else changes, and once it is above 10 the engine rebases:
    [lastTickT = refTS = now], [refTicks] = the current ticks.  So from a
    counter at 0, up to 10 backward samples in a row leave [lastTickT],
    [refTS], [refTicks] and the ticks alone, and the 11th rebases.

    The count is of backward samples in a row: on a sample that is not
    earlier than [lastTickT], [ticker] clears [badTime] before anything
    else, and nothing it runs afterwards writes it, so the counter is 0
    whenever such a call returns; it does return, with only the counter
    changed, when less than a tick has passed.  Hence, whatever the
    counter was before, after a sample that is not backward it again
    takes 11 backward samples in a row to rebase. *)
Theorem ticker_absorbs_backward_time (fuel : nat) w :
  (wallClock w < lastTickT (wt w) ->
   let bad := u32 (badTime (wt w) + 1) in
   exists w',
     WTimer_ticker fuel w = Ok 0 w' /\
     badTime (wt w') = bad /\
     nowTicks (wt w') = nowTicks (wt w) /\
     calls w' = calls w /\ timers w' = timers w /\
     wlists (wt w') = wlists (wt w) /\ expired (wt w') = expired (wt w) /\
     rQs (wt w') = rQs (wt w) /\
     (bad <= 10 -> w' = set_wt (set_badTime bad (wt w)) w) /\
     (bad > 10 ->
      lastTickT (wt w') = wallClock w /\ refTS (wt w') = wallClock w /\
      refTicks (wt w') = WTimer_Now (wt w))) /\
  (forall samples : list Z,
     badTime (wt w) = 0 ->
     (List.length samples <= 10)%nat ->
     Forall (fun ts => ts < lastTickT (wt w)) samples ->
     exists w',
       ticker_samples fuel samples w = Ok tt w' /\
       badTime (wt w') = Z.of_nat (List.length samples) /\
       lastTickT (wt w') = lastTickT (wt w) /\
       refTS (wt w') = refTS (wt w) /\
       refTicks (wt w') = refTicks (wt w) /\
       nowTicks (wt w') = nowTicks (wt w) /\
       forall ts,
         List.length samples = 10%nat -> ts < lastTickT (wt w) ->
         exists w'',
           ticker_samples fuel [ts] w' = Ok tt w'' /\
           lastTickT (wt w'') = ts /\ refTS (wt w'') = ts /\
           refTicks (wt w'') = WTimer_Now (wt w) /\
           nowTicks (wt w'') = nowTicks (wt w)) /\
  (lastTickT (wt w) <= wallClock w ->
   forall (r : Z) w1,
     WTimer_ticker fuel w = Ok r w1 ->
     badTime (wt w1) = 0 /\
     forall samples : list Z,
       (List.length samples <= 10)%nat ->
       Forall (fun ts => ts < lastTickT (wt w1)) samples ->
       exists w',
         ticker_samples fuel samples w1 = Ok tt w' /\
         badTime (wt w') = Z.of_nat (List.length samples) /\
         lastTickT (wt w') = lastTickT (wt w1) /\
         refTS (wt w') = refTS (wt w1) /\
         refTicks (wt w') = refTicks (wt w1) /\
         nowTicks (wt w') = nowTicks (wt w1) /\
         forall ts,
           List.length samples = 10%nat -> ts < lastTickT (wt w1) ->
           exists w'',
             ticker_samples fuel [ts] w' = Ok tt w'' /\
             lastTickT (wt w'') = ts /\ refTS (wt w'') = ts /\
             refTicks (wt w'') = WTimer_Now (wt w1) /\
             nowTicks (wt w'') = nowTicks (wt w1)) /\
  (lastTickT (wt w) <= wallClock w ->
   tickDuration (wt w) <> 0 ->
   Z.quot (i64 (wallClock w - refTS (wt w))) (tickDuration (wt w))
   <= MaxTicksDiff - 2 ->
   i64 (wallClock w - lastTickT (wt w)) < tickDuration (wt w) ->
   WTimer_ticker fuel w = Ok 0 (set_wt (set_badTime 0 (wt w)) w)).
Proof.
  split; [|split; [|split]].
  - intros Hback. cbv zeta.
    rewrite (ticker_backwards_step fuel w Hback). cbv zeta.
    eexists. split; [reflexivity|].
    destruct (Z.gtb_spec (u32 (badTime (wt w) + 1)) 10) as [H|H]; cbn;
      repeat split; intros; try reflexivity; lia.
  - intros samples. apply ticker_backward_count.
  - intros Hfw r w1 R.
    pose proof (ticker_forward_resets fuel w r w1 Hfw R) as Hb.
    split; [exact Hb|].
    intros samples. apply ticker_backward_count. exact Hb.
  - apply ticker_forward_short.
Qed.

End TickerCount.

Lemma ticker_absorbs_backward_time_witness :
  let w := set_wt (set_lastTickT 500 (wt world0)) (set_wallClock 400 world0) in
  let v := set_wt (set_badTime 5
                     (set_tickDuration 1000 (set_lastTickT 500 (wt world0))))
             (set_wallClock 600 world0) in
  (wallClock w < lastTickT (wt w) /\
   exists w', WTimer_ticker 0 w = Ok 0 w' /\ badTime (wt w') = 1) /\
  (lastTickT (wt v) <= wallClock v /\ badTime (wt v) = 5 /\
   exists v', WTimer_ticker 0 v = Ok 0 v' /\ badTime (wt v') = 0 /\
     exists v'', ticker_samples 0 [450; 400; 350; 300; 250; 200] v'
                 = Ok tt v'' /\
       badTime (wt v'') = 6 /\ lastTickT (wt v'') = 500).
Proof.
  cbv zeta.
  destruct (ticker_absorbs_backward_time 0
              (set_wt (set_lastTickT 500 (wt world0))
                      (set_wallClock 400 world0)))
    as (A & _).
  destruct (ticker_absorbs_backward_time 0
              (set_wt (set_badTime 5
                         (set_tickDuration 1000
                            (set_lastTickT 500 (wt world0))))
                 (set_wallClock 600 world0)))
    as (_ & _ & C & D).
  split.
  - assert (H : wallClock (set_wt (set_lastTickT 500 (wt world0))
                                  (set_wallClock 400 world0))
                < lastTickT (wt (set_wt (set_lastTickT 500 (wt world0))
                                        (set_wallClock 400 world0))))
      by reflexivity.
    split; [exact H|].
    destruct (A H) as (w' & HR & Hb & _).
    exists w'. split; [exact HR | exact Hb].
  - assert (H : lastTickT (wt (set_wt (set_badTime 5
                                  (set_tickDuration 1000
                                     (set_lastTickT 500 (wt world0))))
                               (set_wallClock 600 world0)))
                <= wallClock (set_wt (set_badTime 5
                                  (set_tickDuration 1000
                                     (set_lastTickT 500 (wt world0))))
                               (set_wallClock 600 world0)))
      by (vm_compute; discriminate).
    split; [exact H|]. split; [reflexivity|].
    pose proof (D H) as R.
    assert (R' := R ltac:(vm_compute; discriminate)
                    ltac:(vm_compute; discriminate)
                    ltac:(vm_compute; reflexivity)).
    destruct (C H _ _ R') as (Hb & Run).
    eexists. split; [exact R'|]. split; [exact Hb|].
    destruct (Run [450; 400; 350; 300; 250; 200]) as (v'' & HR & B6 & L6 & _).
    + cbn. lia.
    + repeat constructor.
    + exists v''. split; [exact HR|]. split; [exact B6|]. exact L6.
Defined.

(** ** [DelTry]: what it removes, what it spares *)

Section DelTryCases.
Context {U Arg : Type}.
Implicit Types (w : @World U Arg).



End DelTryCases.


